(** * meetings_fetch: a shallow embedding of [scripts/meetings_fetch.py]

    The development follows the script function by function.  Python values
    that come out of [json.loads] are modelled by the type [json]; Python's
    [None] is the JSON [null].  Strings are Rocq strings, read as Python
    strings whose code points are below 256, so [len] is [String.length].
    JSON numbers are the integers; the script never computes with them.

    Exceptions are explicit: a function that can raise returns a [result].
    Library functions whose behaviour is outside the script ([json.loads],
    [datetime.fromisoformat], the [pytz] database, the HTTP transport) are
    parameters of the functions that call them. *)

From Stdlib Require Import ZArith List String Ascii Bool Lia Arith.
From Stdlib Require Import Permutation Sorted DecimalString.
Import ListNotations.

Local Open Scope string_scope.
Local Open Scope list_scope.

(** ** Exceptions *)

Inductive exn : Type :=
| AttributeError
| TypeError
| KeyError
| IndexError
| OverflowError
| TransportError
| JSONDecodeError
| ValueError (msg : string).

Inductive result (A : Type) : Type :=
| Ret (a : A)
| Raise (e : exn).

Arguments Ret {A} a.
Arguments Raise {A} e.

Definition bind {A B : Type} (m : result A) (k : A -> result B) : result B :=
  match m with
  | Ret a => k a
  | Raise e => Raise e
  end.

(** [try: body except Exception: handler] *)
Definition try_except {A : Type} (body : result A) (handler : exn -> result A)
  : result A :=
  match body with
  | Ret a => Ret a
  | Raise e => handler e
  end.

Declare Scope py_scope.
Delimit Scope py_scope with py.
Notation "x <- m ;; k" := (bind m (fun x => k))
  (at level 61, m at next level, right associativity) : py_scope.
Local Open Scope py_scope.

(** ** Python string primitives *)

Module PyStr.

(** [value.split(sep)] for a one-character separator: never empty. *)
Fixpoint split (sep : ascii) (s : string) : list string :=
  match s with
  | EmptyString => [EmptyString]
  | String c rest =>
      if Ascii.eqb c sep then EmptyString :: split sep rest
      else match split sep rest with
           | [] => [String c EmptyString]
           | hd :: tl => String c hd :: tl
           end
  end.

(** [sep in value] for a one-character [sep]. *)
Fixpoint mem (sep : ascii) (s : string) : bool :=
  match s with
  | EmptyString => false
  | String c rest => Ascii.eqb c sep || mem sep rest
  end.

(** [value.split(sep, 1)] when [sep in value]: the text before the first
    separator and the text after it. *)
Fixpoint split1 (sep : ascii) (s : string) : string * string :=
  match s with
  | EmptyString => (EmptyString, EmptyString)
  | String c rest =>
      if Ascii.eqb c sep then (EmptyString, rest)
      else let (a, b) := split1 sep rest in (String c a, b)
  end.

(** [sub in value] *)
Fixpoint contains (sub s : string) : bool :=
  prefix sub s ||
  match s with
  | EmptyString => false
  | String _ rest => contains sub rest
  end.

(** [value.endswith(c)] for a one-character suffix. *)
Fixpoint endswith (c : ascii) (s : string) : bool :=
  match s with
  | EmptyString => false
  | String a EmptyString => Ascii.eqb a c
  | String _ rest => endswith c rest
  end.

(** [value[:-1]] *)
Fixpoint drop_last (s : string) : string :=
  match s with
  | EmptyString => EmptyString
  | String _ EmptyString => EmptyString
  | String a rest => String a (drop_last rest)
  end.

(** [value[:n]] *)
Fixpoint take (n : nat) (s : string) : string :=
  match n, s with
  | O, _ => EmptyString
  | _, EmptyString => EmptyString
  | S n', String a rest => String a (take n' rest)
  end.

Definition lower_char (c : ascii) : ascii :=
  let n := nat_of_ascii c in
  if ((65 <=? n) && (n <=? 90)
      || (192 <=? n) && (n <=? 222) && negb (n =? 215))%nat
  then ascii_of_nat (n + 32) else c.

(** [value.lower()] *)
Fixpoint lower (s : string) : string :=
  match s with
  | EmptyString => EmptyString
  | String c rest => String (lower_char c) (lower rest)
  end.

(** [value.replace("'", "''")] *)
Fixpoint double_quotes (s : string) : string :=
  match s with
  | EmptyString => EmptyString
  | String c rest =>
      if Ascii.eqb c "'"%char
      then String "'"%char (String "'"%char (double_quotes rest))
      else String c (double_quotes rest)
  end.

(** [sep.join(parts)] *)
Fixpoint join (sep : string) (parts : list string) : string :=
  match parts with
  | [] => EmptyString
  | [p] => p
  | p :: rest => (p ++ sep ++ join sep rest)%string
  end.

Definition is_empty (s : string) : bool :=
  match s with EmptyString => true | _ => false end.

End PyStr.

(** ** JSON values as Python objects *)

#[local] Set Warnings "-register-all".

Inductive json : Type :=
| JNull
| JBool (b : bool)
| JInt (z : Z)
| JStr (s : string)
| JArr (items : list json)
| JObj (fields : list (string * json)).

Definition dict : Type := list (string * json).

(** Python truthiness: [if value:] *)
Definition truthy (v : json) : bool :=
  match v with
  | JNull => false
  | JBool b => b
  | JInt z => negb (z =? 0)%Z
  | JStr s => negb (PyStr.is_empty s)
  | JArr l => match l with [] => false | _ => true end
  | JObj d => match d with [] => false | _ => true end
  end.

Fixpoint lookup (key : string) (d : dict) : option json :=
  match d with
  | [] => None
  | (k, v) :: rest => if String.eqb k key then Some v else lookup key rest
  end.

(** [data.get(key)] *)
Definition dict_get (d : dict) (key : string) : json :=
  match lookup key d with Some v => v | None => JNull end.

(** [data.get(key, default)] *)
Definition dict_get_default (d : dict) (key : string) (default : json) : json :=
  match lookup key d with Some v => v | None => default end.

(** [data.values()] *)
Definition dict_values (d : dict) : list json := map snd d.

(** [obj.get(key)] on an arbitrary object: only dicts have [get]. *)
Definition obj_get (v : json) (key : string) : result json :=
  match v with
  | JObj d => Ret (dict_get d key)
  | _ => Raise AttributeError
  end.

Definition obj_get_default (v : json) (key : string) (default : json)
  : result json :=
  match v with
  | JObj d => Ret (dict_get_default d key default)
  | _ => Raise AttributeError
  end.

(** [a or b] *)
Definition py_or (a b : json) : json := if truthy a then a else b.

(** [value == "literal"] *)
Definition eq_str (v : json) (lit : string) : bool :=
  match v with
  | JStr s => String.eqb s lit
  | _ => false
  end.

(** ** Session token extractor *)

Definition looks_like_jwt (value : string) : bool :=
  let parts := PyStr.split "."%char value in
  if negb (Nat.eqb (List.length parts) 3) then false
  else forallb (fun part => Nat.ltb 10 (String.length part)) parts.

(** The first loop of [extract_token_from_object]: the named fields, in the
    order of the tuple. *)
Fixpoint token_by_name (data : dict) (keys : list string) : option string :=
  match keys with
  | [] => None
  | key :: rest =>
      match dict_get data key with
      | JStr value =>
          if looks_like_jwt value then Some value else token_by_name data rest
      | _ => token_by_name data rest
      end
  end.

Definition token_keys : list string := ["secret"; "accessToken"; "access_token"].

(** [extract_token_from_object], as a function of any value so that the
    recursion through nested dicts is structural; the script only calls
    it on dicts. *)
Fixpoint extract_token_from_value (v : json) : option string :=
  match v with
  | JObj data =>
      match token_by_name data token_keys with
      | Some value => Some value
      | None =>
          (fix values (kvs : list (string * json)) : option string :=
             match kvs with
             | [] => None
             | (_, value) :: rest =>
                 match value with
                 | JObj _ =>
                     match extract_token_from_value value with
                     | Some token => Some token
                     | None => values rest
                     end
                 | _ => values rest
                 end
             end) data
      end
  | _ => None
  end.

Definition extract_token_from_object (data : dict) : option string :=
  extract_token_from_value (JObj data).

(** The second loop of [extract_token_from_object], named. *)
Fixpoint token_in_values (values : list json) : option string :=
  match values with
  | [] => None
  | JObj d :: rest =>
      match extract_token_from_object d with
      | Some token => Some token
      | None => token_in_values rest
      end
  | _ :: rest => token_in_values rest
  end.

(** A browser session, as far as the extractor sees it: the storage
    entries the script reads, or a WebDriver failure. *)
Record driver : Type := {
  storage_entries : option (list (string * string))
}.

Definition is_access_token (d : dict) : bool :=
  eq_str (dict_get d "credentialType") "AccessToken".

(** [tokens.append(value)] for the tagged values one level down. *)
Fixpoint tagged_children (values : list json) : list dict :=
  match values with
  | [] => []
  | JObj d :: rest =>
      if is_access_token d then d :: tagged_children rest
      else tagged_children rest
  | _ :: rest => tagged_children rest
  end.

(** The storage loop.  [inl v] is an early [return v]; [inr tokens] is the
    list [tokens] when the loop runs to its end. *)
Fixpoint scan_entries (json_loads : string -> option json)
    (entries : list (string * string)) (tokens : list dict)
  : string + list dict :=
  match entries with
  | [] => inr tokens
  | (_key, raw) :: rest =>
      if PyStr.is_empty raw then scan_entries json_loads rest tokens
      else
        match json_loads raw with
        | None =>
            if looks_like_jwt raw then inl raw
            else scan_entries json_loads rest tokens
        | Some (JObj data) =>
            let tokens' :=
              if is_access_token data then tokens ++ [data]
              else tokens ++ tagged_children (dict_values data) in
            match extract_token_from_object data with
            | Some token => inl token
            | None => scan_entries json_loads rest tokens'
            end
        | Some _ => scan_entries json_loads rest tokens
        end
  end.

Definition GRAPH_HOST : string := "graph.microsoft.com".

(** [(token.get("target") or "").lower()] *)
Definition target_lower (token : dict) : result string :=
  match py_or (dict_get token "target") (JStr EmptyString) with
  | JStr s => Ret (PyStr.lower s)
  | _ => Raise AttributeError
  end.

(** The loop that prefers a tagged entry whose target names the host. *)
Fixpoint prefer_graph (tokens : list dict) : result (option json) :=
  match tokens with
  | [] => Ret None
  | token :: rest =>
      target <- target_lower token ;;
      if PyStr.contains GRAPH_HOST target then
        let secret := dict_get token "secret" in
        if truthy secret then Ret (Some secret) else prefer_graph rest
      else prefer_graph rest
  end.

(** The last loop: any tagged entry with a secret. *)
Fixpoint any_secret (tokens : list dict) : option json :=
  match tokens with
  | [] => None
  | token :: rest =>
      let secret := dict_get token "secret" in
      if truthy secret then Some secret else any_secret rest
  end.

Definition extract_access_token (json_loads : string -> option json)
    (drv : driver) : result (option json) :=
  match storage_entries drv with
  | None => Ret None
  | Some entries =>
      match scan_entries json_loads entries [] with
      | inl token => Ret (Some (JStr token))
      | inr tokens =>
          found <- prefer_graph tokens ;;
          match found with
          | Some secret => Ret (Some secret)
          | None => Ret (any_secret tokens)
          end
      end
  end.

(** ** A reader and a writer for plain JSON text

    [json.loads] is a parameter of the extractor.  To run the extractor on
    concrete storage, [json_loads_lite] reads the part of JSON that has no
    fractions, no exponents and no [\u] escapes, and reads it as
    [json.loads] does (a repeated key keeps its first position and its
    last value).  [json_dumps] writes a value of that part. *)

Module JsonText.

Definition dq : ascii := ascii_of_nat 34.
Definition backslash : ascii := ascii_of_nat 92.

Definition is_ws (c : ascii) : bool :=
  let n := nat_of_ascii c in
  ((n =? 32) || (n =? 9) || (n =? 10) || (n =? 13))%nat.

Fixpoint skip_ws (s : string) : string :=
  match s with
  | String c rest => if is_ws c then skip_ws rest else s
  | EmptyString => s
  end.

Definition is_digit (c : ascii) : bool :=
  let n := nat_of_ascii c in ((48 <=? n) && (n <=? 57))%nat.

Definition digit_val (c : ascii) : Z := Z.of_nat (nat_of_ascii c) - 48.

Definition unescape (c : ascii) : option ascii :=
  let n := nat_of_ascii c in
  if (n =? 34)%nat then Some dq
  else if (n =? 92)%nat then Some backslash
  else if (n =? 47)%nat then Some "/"%char
  else if (n =? 98)%nat then Some (ascii_of_nat 8)
  else if (n =? 102)%nat then Some (ascii_of_nat 12)
  else if (n =? 110)%nat then Some (ascii_of_nat 10)
  else if (n =? 114)%nat then Some (ascii_of_nat 13)
  else if (n =? 116)%nat then Some (ascii_of_nat 9)
  else None.

(** The text of a string after its opening quote: its content and what
    follows the closing quote. *)
Fixpoint read_string (s : string) : option (string * string) :=
  match s with
  | EmptyString => None
  | String c rest =>
      if Ascii.eqb c dq then Some (EmptyString, rest)
      else if Ascii.eqb c backslash then
        match rest with
        | String e rest' =>
            match unescape e, read_string rest' with
            | Some a, Some (body, after) => Some (String a body, after)
            | _, _ => None
            end
        | EmptyString => None
        end
      else if (nat_of_ascii c <? 32)%nat then None
      else match read_string rest with
           | Some (body, after) => Some (String c body, after)
           | None => None
           end
  end.

Fixpoint read_digits (acc : Z) (s : string) : Z * string :=
  match s with
  | String c rest =>
      if is_digit c then read_digits (10 * acc + digit_val c) rest
      else (acc, s)
  | EmptyString => (acc, s)
  end.

Definition starts_fraction (s : string) : bool :=
  match s with
  | String c _ =>
      Ascii.eqb c "."%char || Ascii.eqb c "e"%char || Ascii.eqb c "E"%char
  | EmptyString => false
  end.

(** An integer without a sign: [0], or digits that do not start with 0. *)
Definition read_natural (s : string) : option (Z * string) :=
  match s with
  | String c rest =>
      if negb (is_digit c) then None
      else
        let (n, after) :=
          if Ascii.eqb c "0"%char then (0%Z, rest)
          else read_digits (digit_val c) rest in
        if starts_fraction after then None else Some (n, after)
  | EmptyString => None
  end.

Definition read_literal (word : string) (v : json) (s : string)
  : option (json * string) :=
  if prefix word s
  then Some (v, substring (String.length word)
                          (String.length s - String.length word) s)
  else None.

(** [d[key] = value] *)
Fixpoint dict_set (key : string) (value : json) (d : dict) : dict :=
  match d with
  | [] => [(key, value)]
  | (k, v) :: rest =>
      if String.eqb k key then (k, value) :: rest
      else (k, v) :: dict_set key value rest
  end.

Fixpoint read_value (fuel : nat) (s : string) : option (json * string) :=
  match fuel with
  | O => None
  | S fuel' =>
      match skip_ws s with
      | EmptyString => None
      | String c rest =>
          if Ascii.eqb c "{"%char then
            match skip_ws rest with
            | String c' rest' =>
                if Ascii.eqb c' "}"%char then Some (JObj [], rest')
                else read_members fuel' rest []
            | EmptyString => None
            end
          else if Ascii.eqb c "["%char then
            match skip_ws rest with
            | String c' rest' =>
                if Ascii.eqb c' "]"%char then Some (JArr [], rest')
                else read_elements fuel' rest []
            | EmptyString => None
            end
          else if Ascii.eqb c dq then
            match read_string rest with
            | Some (body, after) => Some (JStr body, after)
            | None => None
            end
          else if Ascii.eqb c "-"%char then
            match read_natural rest with
            | Some (n, after) => Some (JInt (- n), after)
            | None => None
            end
          else if is_digit c then
            match read_natural (String c rest) with
            | Some (n, after) => Some (JInt n, after)
            | None => None
            end
          else if Ascii.eqb c "t"%char then
            read_literal "true" (JBool true) (String c rest)
          else if Ascii.eqb c "f"%char then
            read_literal "false" (JBool false) (String c rest)
          else if Ascii.eqb c "n"%char then
            read_literal "null" JNull (String c rest)
          else None
      end
  end
with read_members (fuel : nat) (s : string) (acc : dict)
  : option (json * string) :=
  match fuel with
  | O => None
  | S fuel' =>
      match skip_ws s with
      | String c rest =>
          if negb (Ascii.eqb c dq) then None
          else
            match read_string rest with
            | None => None
            | Some (key, after_key) =>
                match skip_ws after_key with
                | String colon after_colon =>
                    if negb (Ascii.eqb colon ":"%char) then None
                    else
                      match read_value fuel' after_colon with
                      | None => None
                      | Some (value, after_value) =>
                          let acc' := dict_set key value acc in
                          match skip_ws after_value with
                          | String sep after_sep =>
                              if Ascii.eqb sep ","%char
                              then read_members fuel' after_sep acc'
                              else if Ascii.eqb sep "}"%char
                              then Some (JObj acc', after_sep)
                              else None
                          | EmptyString => None
                          end
                      end
                | EmptyString => None
                end
            end
      | EmptyString => None
      end
  end
with read_elements (fuel : nat) (s : string) (acc : list json)
  : option (json * string) :=
  match fuel with
  | O => None
  | S fuel' =>
      match read_value fuel' s with
      | None => None
      | Some (value, after_value) =>
          match skip_ws after_value with
          | String sep after_sep =>
              if Ascii.eqb sep ","%char
              then read_elements fuel' after_sep (acc ++ [value])
              else if Ascii.eqb sep "]"%char
              then Some (JArr (acc ++ [value]), after_sep)
              else None
          | EmptyString => None
          end
      end
  end.

Definition json_loads_lite (raw : string) : option json :=
  match read_value (S (String.length raw)) raw with
  | Some (v, after) =>
      match skip_ws after with
      | EmptyString => Some v
      | _ => None
      end
  | None => None
  end.

Definition quoted (s : string) : string :=
  (String dq s ++ String dq EmptyString)%string.

Definition decimal (z : Z) : string :=
  DecimalString.NilZero.string_of_int (Z.to_int z).

Fixpoint json_dumps (v : json) : string :=
  match v with
  | JNull => "null"
  | JBool true => "true"
  | JBool false => "false"
  | JInt z => decimal z
  | JStr s => quoted s
  | JArr items =>
      ("[" ++ PyStr.join ", " (map json_dumps items) ++ "]")%string
  | JObj fields =>
      ("{" ++ PyStr.join ", "
                (map (fun kv =>
                        quoted (fst kv) ++ ": " ++ json_dumps (snd kv))
                     fields) ++ "}")%string
  end.

End JsonText.

(** ** [int(text)] *)

Module PyInt.

(** The whitespace of [str.strip] among the code points below 256. *)
Definition is_space (c : ascii) : bool :=
  let n := nat_of_ascii c in
  ((9 <=? n) && (n <=? 13) || (28 <=? n) && (n <=? 32)
   || (n =? 133) || (n =? 160))%nat.

Fixpoint lstrip (s : string) : string :=
  match s with
  | String c rest => if is_space c then lstrip rest else s
  | EmptyString => s
  end.

Fixpoint rstrip (s : string) : string :=
  match s with
  | EmptyString => EmptyString
  | String c rest =>
      let rest' := rstrip rest in
      if is_space c && PyStr.is_empty rest' then EmptyString
      else String c rest'
  end.

Definition strip (s : string) : string := rstrip (lstrip s).

(** The whitespace that [int] skips around a literal, among the code points
    below 256: the six ASCII characters of C's [isspace], and the two
    spaces outside ASCII (U+0085 and U+00A0), which CPython replaces by an
    ASCII space before it reads the number.  The separators U+001C..U+001F,
    which [str.strip] removes, are not skipped: [int] rejects them. *)
Definition is_int_space (c : ascii) : bool :=
  let n := nat_of_ascii c in
  ((9 <=? n) && (n <=? 13) || (n =? 32) || (n =? 133) || (n =? 160))%nat.

Fixpoint skip_leading (s : string) : string :=
  match s with
  | String c rest => if is_int_space c then skip_leading rest else s
  | EmptyString => s
  end.

Fixpoint skip_trailing (s : string) : string :=
  match s with
  | EmptyString => EmptyString
  | String c rest =>
      let rest' := skip_trailing rest in
      if is_int_space c && PyStr.is_empty rest' then EmptyString
      else String c rest'
  end.

(** Digits with single underscores between them.  [after_digit] tells
    whether the previous character was a digit; [count] is the number of
    digits read. *)
Fixpoint digits (acc : Z) (count : nat) (after_digit : bool) (s : string)
  : option (Z * nat) :=
  match s with
  | EmptyString => if after_digit then Some (acc, count) else None
  | String c rest =>
      if JsonText.is_digit c
      then digits (10 * acc + JsonText.digit_val c) (S count) true rest
      else if Ascii.eqb c "_"%char && after_digit
      then digits acc count false rest
      else None
  end.

(** CPython's default limit on the digits of a decimal literal. *)
Definition int_max_str_digits : nat := 4300.

(** [int(text)]; [None] stands for [ValueError]. *)
Definition py_int (text : string) : option Z :=
  let body := skip_trailing (skip_leading text) in
  let (sign, unsigned) :=
    match body with
    | String c rest =>
        if Ascii.eqb c "-"%char then ((-1)%Z, rest)
        else if Ascii.eqb c "+"%char then (1%Z, rest)
        else (1%Z, body)
    | EmptyString => (1%Z, body)
    end in
  match digits 0 0 false unsigned with
  | Some (n, count) =>
      if (int_max_str_digits <? count)%nat then None else Some (sign * n)%Z
  | None => None
  end.

End PyInt.

(** ** Dates and times

    A [datetime] holds the fields of Python's [datetime] and its offset from
    UTC in microseconds ([None] when the value is naive).  The ordinal
    conversions are those of the standard library. *)

Module PyTime.

Local Open Scope Z_scope.

Record datetime : Type := {
  year : Z; month : Z; day : Z;
  hour : Z; minute : Z; second : Z; microsecond : Z;
  utcoffset : option Z
}.

Definition MINYEAR : Z := 1.
Definition MAXYEAR : Z := 9999.
Definition MAXORDINAL : Z := 3652059.

Definition is_leap (y : Z) : bool :=
  (y mod 4 =? 0) && (negb (y mod 100 =? 0) || (y mod 400 =? 0)).

Definition DAYS_IN_MONTH (m : Z) : Z :=
  nth (Z.to_nat m) [-1; 31; 28; 31; 30; 31; 30; 31; 31; 30; 31; 30; 31] 0.

Definition DAYS_BEFORE_MONTH (m : Z) : Z :=
  nth (Z.to_nat m) [-1; 0; 31; 59; 90; 120; 151; 181; 212; 243; 273; 304; 334] 0.

Definition days_before_year (y : Z) : Z :=
  let y' := y - 1 in y' * 365 + y' / 4 - y' / 100 + y' / 400.

Definition days_in_month (y m : Z) : Z :=
  if (m =? 2) && is_leap y then 29 else DAYS_IN_MONTH m.

Definition days_before_month (y m : Z) : Z :=
  DAYS_BEFORE_MONTH m + (if (2 <? m) && is_leap y then 1 else 0).

Definition ymd2ord (y m d : Z) : Z :=
  days_before_year y + days_before_month y m + d.

Definition DI400Y : Z := 146097.
Definition DI100Y : Z := 36524.
Definition DI4Y : Z := 1461.

Definition ord2ymd (ordinal : Z) : Z * Z * Z :=
  let n := ordinal - 1 in
  let n400 := n / DI400Y in
  let n := n mod DI400Y in
  let n100 := n / DI100Y in
  let n := n mod DI100Y in
  let n4 := n / DI4Y in
  let n := n mod DI4Y in
  let n1 := n / 365 in
  let n := n mod 365 in
  let y := n400 * 400 + 1 + n100 * 100 + n4 * 4 + n1 in
  if (n1 =? 4) || (n100 =? 4) then (y - 1, 12, 31)
  else
    let leapyear := (n1 =? 3) && (negb (n4 =? 24) || (n100 =? 3)) in
    let m := Z.shiftr (n + 50) 5 in
    let preceding :=
      DAYS_BEFORE_MONTH m + (if (2 <? m) && leapyear then 1 else 0) in
    if n <? preceding then
      let m' := m - 1 in
      let preceding' :=
        preceding
        - (DAYS_IN_MONTH m' + (if (m' =? 2) && leapyear then 1 else 0)) in
      (y, m', n - preceding' + 1)
    else (y, m, n - preceding + 1).

Definition C_INT_MIN : Z := - 2 ^ 31.
Definition C_INT_MAX : Z := 2 ^ 31 - 1.

Definition fits_c_int (z : Z) : bool := (C_INT_MIN <=? z) && (z <=? C_INT_MAX).

(** [datetime(y, m, d, tzinfo=timezone.utc)] *)
Definition utc_date (y m d : Z) : result datetime :=
  if negb (fits_c_int y && fits_c_int m && fits_c_int d)
  then Raise OverflowError
  else if negb ((MINYEAR <=? y) && (y <=? MAXYEAR))
  then Raise (ValueError ("year " ++ JsonText.decimal y ++ " is out of range"))
  else if negb ((1 <=? m) && (m <=? 12))
  then Raise (ValueError "month must be in 1..12")
  else if negb ((1 <=? d) && (d <=? days_in_month y m))
  then Raise (ValueError "day is out of range for month")
  else Ret {| year := y; month := m; day := d;
              hour := 0; minute := 0; second := 0; microsecond := 0;
              utcoffset := Some 0 |}.

Definition US_PER_SECOND : Z := 1000000.
Definition US_PER_DAY : Z := 86400 * US_PER_SECOND.

(** Microseconds of the wall-clock fields since the start of day 0. *)
Definition wall_micros (dt : datetime) : Z :=
  (ymd2ord (year dt) (month dt) (day dt) * 86400
   + hour dt * 3600 + minute dt * 60 + second dt) * US_PER_SECOND
  + microsecond dt.

(** The instant of an aware value, in microseconds of UTC. *)
Definition instant (dt : datetime) : Z :=
  wall_micros dt - match utcoffset dt with Some off => off | None => 0 end.

(** The wall-clock fields for a count of microseconds. *)
Definition of_wall_micros (t : Z) (off : option Z) : result datetime :=
  let days := t / US_PER_DAY in
  let rest := t mod US_PER_DAY in
  let secs := rest / US_PER_SECOND in
  if (0 <? days) && (days <=? MAXORDINAL) then
    let '(y, m, d) := ord2ymd days in
    Ret {| year := y; month := m; day := d;
           hour := secs / 3600; minute := (secs mod 3600) / 60;
           second := secs mod 60; microsecond := rest mod US_PER_SECOND;
           utcoffset := off |}
  else Raise OverflowError.

(** [dt + timedelta(microseconds=delta)] *)
Definition add_micros (dt : datetime) (delta : Z) : result datetime :=
  of_wall_micros (wall_micros dt + delta) (utcoffset dt).

(** [dt - timedelta(seconds=n)] *)
Definition sub_seconds (dt : datetime) (n : Z) : result datetime :=
  add_micros dt (- (n * US_PER_SECOND)).

(** [min(a, b)] on aware values: [b] only when [b < a]. *)
Definition dt_min (a b : datetime) : datetime :=
  if instant b <? instant a then b else a.

Definition digit (n : Z) : ascii := ascii_of_nat (48 + Z.to_nat (n mod 10)).

Definition pad2 (n : Z) : string :=
  String (digit (n / 10)) (String (digit n) EmptyString).

Definition pad3 (n : Z) : string :=
  String (digit (n / 100)) (pad2 n).

Definition pad4 (n : Z) : string :=
  String (digit (n / 1000)) (pad3 n).

(** [%Y] for the years of a [datetime], 1 to 9999.  [strftime] hands the
    directive to the C library, and glibc writes the year in decimal
    without padding: 999 and not 0999. *)
Definition year_text (y : Z) : string :=
  if y <? 10 then String (digit y) EmptyString
  else if y <? 100 then pad2 y
  else if y <? 1000 then pad3 y
  else pad4 y.

(** [dt.strftime("%Y-%m-%dT%H:%M:%SZ")] *)
Definition strftime_iso_z (dt : datetime) : string :=
  year_text (year dt) ++ "-" ++ pad2 (month dt) ++ "-" ++ pad2 (day dt)
  ++ "T"
  ++ pad2 (hour dt) ++ ":" ++ pad2 (minute dt) ++ ":" ++ pad2 (second dt)
  ++ "Z".

(** [dt.strftime("%Y-%m")] *)
Definition strftime_month (dt : datetime) : string :=
  year_text (year dt) ++ "-" ++ pad2 (month dt).

(** [dt.strftime("%Y-%m-%d %H:%M:%S")] *)
Definition strftime_local (dt : datetime) : string :=
  year_text (year dt) ++ "-" ++ pad2 (month dt) ++ "-" ++ pad2 (day dt)
  ++ " "
  ++ pad2 (hour dt) ++ ":" ++ pad2 (minute dt) ++ ":" ++ pad2 (second dt).

(** A value that [datetime.now(timezone.utc)] can return. *)
Definition valid_utc (dt : datetime) : Prop :=
  MINYEAR <= year dt <= MAXYEAR /\ 1 <= month dt <= 12
  /\ 1 <= day dt <= days_in_month (year dt) (month dt)
  /\ 0 <= hour dt < 24 /\ 0 <= minute dt < 60 /\ 0 <= second dt < 60
  /\ 0 <= microsecond dt < US_PER_SECOND
  /\ utcoffset dt = Some 0.

End PyTime.

(** ** Time window resolver *)

Import PyTime.

Definition INVALID_MONTH : exn :=
  ValueError "Invalid --month format. Use YYYY-MM.".

(** The body of the [try] in [month_range]. *)
Definition parse_month (month_value : string) : result datetime :=
  match PyStr.split "-"%char month_value with
  | [y; m] =>
      match PyInt.py_int y with
      | None => Raise (ValueError "invalid literal for int()")
      | Some yv =>
          match PyInt.py_int m with
          | None => Raise (ValueError "invalid literal for int()")
          | Some mv => utc_date yv mv 1
          end
      end
  | _ => Raise (ValueError "wrong number of values to unpack")
  end.

(** [except ValueError: raise ValueError(...)] *)
Definition reraise_invalid_month (e : exn) : result datetime :=
  match e with
  | ValueError _ => Raise INVALID_MONTH
  | _ => Raise e
  end.

Definition month_start (now : datetime) (month_value : option string)
  : result datetime :=
  match month_value with
  | Some text =>
      if PyStr.is_empty text
      then utc_date (year now) (month now) 1
      else try_except (parse_month text) reraise_invalid_month
  | None => utc_date (year now) (month now) 1
  end.

Definition next_month_of (start : datetime) : result datetime :=
  if (month start =? 12)%Z then utc_date (year start + 1) 1 1
  else utc_date (year start) (month start + 1) 1.

(** The window as values: [start] and [end] before they are formatted. *)
Definition month_window (now : datetime) (month_value : option string)
  : result (datetime * datetime) :=
  start <- month_start now month_value ;;
  next_month <- next_month_of start ;;
  last <- sub_seconds next_month 1 ;;
  Ret (start, dt_min now last).

Definition month_range (now : datetime) (month_value : option string)
  : result (string * string * string) :=
  window <- month_window now month_value ;;
  let (start, end_) := window in
  Ret (strftime_iso_z start, strftime_iso_z end_, strftime_month start).

(** ** Python comparisons on JSON values *)

Module PyCmp.

(** The number a [bool] or an [int] stands for. *)
Definition as_number (v : json) : option Z :=
  match v with
  | JInt z => Some z
  | JBool true => Some 1%Z
  | JBool false => Some 0%Z
  | _ => None
  end.

(** [a == b] *)
Fixpoint py_eq (a b : json) {struct a} : bool :=
  match a, b with
  | JNull, JNull => true
  | JStr s, JStr t => String.eqb s t
  | JArr la, JArr lb =>
      (fix all2 (xs : list json) (ys : list json) : bool :=
         match xs, ys with
         | [], [] => true
         | x :: xs', y :: ys' => py_eq x y && all2 xs' ys'
         | _, _ => false
         end) la lb
  | JObj da, JObj db =>
      Nat.eqb (List.length da) (List.length db)
      && (fix sub (kvs : list (string * json)) : bool :=
            match kvs with
            | [] => true
            | (k, v) :: rest =>
                match lookup k db with
                | Some v' => py_eq v v' && sub rest
                | None => false
                end
            end) da
  | _, _ =>
      match as_number a, as_number b with
      | Some x, Some y => (x =? y)%Z
      | _, _ => false
      end
  end.

(** [a < b] on strings: code points, then length. *)
Fixpoint str_lt (a b : string) : bool :=
  match a, b with
  | _, EmptyString => false
  | EmptyString, String _ _ => true
  | String x a', String y b' =>
      (nat_of_ascii x <? nat_of_ascii y)%nat
      || (Ascii.eqb x y && str_lt a' b')
  end.

(** [a < b]; [TypeError] when Python does not order the two values. *)
Fixpoint py_lt (a b : json) {struct a} : result bool :=
  match a, b with
  | JStr s, JStr t => Ret (str_lt s t)
  | JArr la, JArr lb =>
      (fix lex (xs : list json) (ys : list json) : result bool :=
         match xs, ys with
         | _, [] => Ret false
         | [], _ :: _ => Ret true
         | x :: xs', y :: ys' =>
             if py_eq x y then lex xs' ys' else py_lt x y
         end) la lb
  | _, _ =>
      match as_number a, as_number b with
      | Some x, Some y => Ret (x <? y)%Z
      | _, _ => Raise TypeError
      end
  end.

(** Insertion of [x] (with key [kx]) behind the keyed items that are
    smaller: the step of a stable sort. *)
Fixpoint insert_keyed {A : Type} (kx : json) (x : A)
    (sorted : list (json * A)) : result (list (json * A)) :=
  match sorted with
  | [] => Ret [(kx, x)]
  | (ky, y) :: rest =>
      less <- py_lt ky kx ;;
      if less then
        rest' <- insert_keyed kx x rest ;;
        Ret ((ky, y) :: rest')
      else Ret ((kx, x) :: (ky, y) :: rest)
  end.

(** A stable sort by key.  Items are inserted from the right so that
    equal keys keep their order. *)
Fixpoint sort_keyed {A : Type} (items : list (json * A))
  : result (list (json * A)) :=
  match items with
  | [] => Ret []
  | (k, x) :: rest =>
      sorted <- sort_keyed rest ;;
      insert_keyed k x sorted
  end.

(** [sorted(values)] *)
Definition py_sorted (values : list json) : result (list json) :=
  sorted <- sort_keyed (map (fun v => (v, v)) values) ;;
  Ret (map snd sorted).

(** What [for x in value] visits. *)
Fixpoint chars (s : string) : list json :=
  match s with
  | EmptyString => []
  | String c rest => JStr (String c EmptyString) :: chars rest
  end.

Definition py_iter (v : json) : result (list json) :=
  match v with
  | JArr items => Ret items
  | JStr s => Ret (chars s)
  | JObj d => Ret (map (fun kv => JStr (fst kv)) d)
  | _ => Raise TypeError
  end.

(** [hash(value)] succeeds. *)
Definition hashable (v : json) : bool :=
  match v with
  | JArr _ | JObj _ => false
  | _ => true
  end.

(** [value in members] for a set kept as a list. *)
Fixpoint set_mem (v : json) (members : list json) : bool :=
  match members with
  | [] => false
  | m :: rest => py_eq m v || set_mem v rest
  end.

(** [members.add(value)] *)
Definition set_add (members : list json) (v : json) : result (list json) :=
  if negb (hashable v) then Raise TypeError
  else if set_mem v members then Ret members
  else Ret (members ++ [v]).

End PyCmp.

(** ** Event times *)

(** [normalize_iso_datetime] *)
Definition normalize_iso_datetime (value : string) : string :=
  let value :=
    if PyStr.endswith "Z"%char value
    then (PyStr.drop_last value ++ "+00:00")%string else value in
  if negb (PyStr.mem "."%char value) then value
  else
    let (base, rest) := PyStr.split1 "."%char value in
    let (frac, offset) :=
      if PyStr.mem "+"%char rest then
        let (frac, offset) := PyStr.split1 "+"%char rest in
        (frac, String "+"%char offset)
      else if PyStr.mem "-"%char rest then
        let (frac, offset) := PyStr.split1 "-"%char rest in
        (frac, String "-"%char offset)
      else (rest, EmptyString) in
    let frac := PyStr.take 6 (frac ++ "000000") in
    (base ++ "." ++ frac ++ offset)%string.

(** A [pytz] zone, as far as the script uses one: [zone.localize(naive)]
    and [aware.astimezone(zone)].  Either can raise. *)
Record tzinfo : Type := {
  tz_key : string;
  tz_localize : datetime -> result datetime;
  tz_convert : datetime -> result datetime
}.

(** [pytz.utc].  The script converts aware values only. *)
Definition utc_zone : tzinfo := {|
  tz_key := "UTC";
  tz_localize := fun naive =>
    Ret {| year := year naive; month := month naive; day := day naive;
           hour := hour naive; minute := minute naive;
           second := second naive; microsecond := microsecond naive;
           utcoffset := Some 0%Z |};
  tz_convert := fun aware => of_wall_micros (instant aware) (Some 0%Z)
|}.

Definition WINDOWS_TZ_MAP : list (string * string) :=
  [ ("Israel Standard Time", "Asia/Jerusalem");
    ("UTC", "UTC");
    ("GMT Standard Time", "Europe/London");
    ("E. Europe Standard Time", "Europe/Bucharest");
    ("Eastern Standard Time", "America/New_York");
    ("Central Europe Standard Time", "Europe/Budapest");
    ("W. Europe Standard Time", "Europe/Berlin");
    ("Pacific Standard Time", "America/Los_Angeles") ].

Fixpoint assoc (key : string) (table : list (string * string)) : option string :=
  match table with
  | [] => None
  | (k, v) :: rest => if String.eqb k key then Some v else assoc key rest
  end.

Section Zones.

(** [pytz.timezone(name)]; [None] when it raises. *)
Variable pytz_timezone : string -> option tzinfo.

(** [datetime.fromisoformat(text)]; [None] when it raises. *)
Variable fromisoformat : string -> option datetime.

(** [resolve_timezone] on a label that is a string. *)
Definition resolve_label (label : string) (default_tz : tzinfo) : tzinfo :=
  let direct :=
    if PyStr.mem "/"%char label then pytz_timezone label else None in
  match direct with
  | Some zone => zone
  | None =>
      match assoc label WINDOWS_TZ_MAP with
      | Some mapped =>
          if PyStr.is_empty mapped then default_tz
          else match pytz_timezone mapped with
               | Some zone => zone
               | None => default_tz
               end
      | None => default_tz
      end
  end.

(** [resolve_timezone]: a label that is neither empty nor a string makes
    the membership test or the table lookup raise [TypeError]. *)
Definition resolve_timezone (label : json) (default_tz : tzinfo)
  : result tzinfo :=
  if negb (truthy label) then Ret default_tz
  else match label with
       | JStr text => Ret (resolve_label text default_tz)
       | _ => Raise TypeError
       end.

Definition parse_event_time (part : json) (output_tz : tzinfo)
  : result (option datetime) :=
  if negb (truthy part) then Ret None
  else
    raw <- obj_get part "dateTime" ;;
    if negb (truthy raw) then Ret None
    else
      match raw with
      | JStr text =>
          match fromisoformat (normalize_iso_datetime text) with
          | None => Ret None
          | Some parsed =>
              aware <-
                match utcoffset parsed with
                | None =>
                    label <- obj_get part "timeZone" ;;
                    source_tz <- resolve_timezone label output_tz ;;
                    tz_localize source_tz parsed
                | Some _ => Ret parsed
                end ;;
              local <- tz_convert output_tz aware ;;
              Ret (Some local)
          end
      | _ => Raise AttributeError
      end.

End Zones.

(** ** A reader for canonical ISO texts

    [datetime.fromisoformat] is a parameter of [parse_event_time].  To run
    the script on concrete events, [fromisoformat_basic] reads the texts
    [YYYY-MM-DD], [YYYY-MM-DDTHH:MM:SS], with an optional fraction of three
    or six digits and an optional offset [+HH:MM] or [-HH:MM], as every
    version of [fromisoformat] does. *)

Module IsoText.

Local Open Scope Z_scope.

Fixpoint read_number (width : nat) (acc : Z) (s : string)
  : option (Z * string) :=
  match width with
  | O => Some (acc, s)
  | S width' =>
      match s with
      | String c rest =>
          if JsonText.is_digit c
          then read_number width' (10 * acc + JsonText.digit_val c) rest
          else None
      | EmptyString => None
      end
  end.

Definition expect (c : ascii) (s : string) : option string :=
  match s with
  | String a rest => if Ascii.eqb a c then Some rest else None
  | EmptyString => None
  end.

Definition read_date (s : string) : option (Z * Z * Z * string) :=
  match read_number 4 0 s with
  | None => None
  | Some (y, s) =>
  match expect "-"%char s with
  | None => None
  | Some s =>
  match read_number 2 0 s with
  | None => None
  | Some (m, s) =>
  match expect "-"%char s with
  | None => None
  | Some s =>
  match read_number 2 0 s with
  | None => None
  | Some (d, s) =>
      if (1 <=? y) && (1 <=? m) && (m <=? 12)
         && (1 <=? d) && (d <=? days_in_month y m)
      then Some (y, m, d, s) else None
  end end end end end.

Definition read_clock (s : string) : option (Z * Z * Z * string) :=
  match read_number 2 0 s with
  | None => None
  | Some (h, s) =>
  match expect ":"%char s with
  | None => None
  | Some s =>
  match read_number 2 0 s with
  | None => None
  | Some (mi, s) =>
  match expect ":"%char s with
  | None => None
  | Some s =>
  match read_number 2 0 s with
  | None => None
  | Some (sec, s) =>
      if (h <? 24) && (mi <? 60) && (sec <? 60)
      then Some (h, mi, sec, s) else None
  end end end end end.

(** The fraction, in microseconds. *)
Definition read_fraction (s : string) : option (Z * string) :=
  match s with
  | String c rest =>
      if Ascii.eqb c "."%char then
        match read_number 6 0 rest with
        | Some (us, after) => Some (us, after)
        | None =>
            match read_number 3 0 rest with
            | Some (ms, after) => Some (ms * 1000, after)
            | None => None
            end
        end
      else Some (0, s)
  | EmptyString => Some (0, s)
  end.

(** The offset, in microseconds; [None] inside for a naive text. *)
Definition read_offset (s : string) : option (option Z) :=
  match s with
  | EmptyString => Some None
  | String c rest =>
      let sign :=
        if Ascii.eqb c "+"%char then Some 1
        else if Ascii.eqb c "-"%char then Some (-1)
        else None in
      match sign with
      | None => None
      | Some sg =>
          match read_number 2 0 rest with
          | None => None
          | Some (h, s) =>
          match expect ":"%char s with
          | None => None
          | Some s =>
          match read_number 2 0 s with
          | Some (mi, EmptyString) =>
              if (h <? 24) && (mi <? 60)
              then Some (Some (sg * (h * 3600 + mi * 60) * US_PER_SECOND))
              else None
          | _ => None
          end end end
      end
  end.

Definition fromisoformat_basic (text : string) : option datetime :=
  match read_date text with
  | None => None
  | Some (y, m, d, EmptyString) =>
      Some {| year := y; month := m; day := d;
              hour := 0; minute := 0; second := 0; microsecond := 0;
              utcoffset := None |}
  | Some (y, m, d, String sep rest) =>
      if negb (Ascii.eqb sep "T"%char) then None
      else
        match read_clock rest with
        | None => None
        | Some (h, mi, sec, rest) =>
            match read_fraction rest with
            | None => None
            | Some (us, rest) =>
                match read_offset rest with
                | None => None
                | Some off =>
                    Some {| year := y; month := m; day := d;
                            hour := h; minute := mi; second := sec;
                            microsecond := us; utcoffset := off |}
                end
            end
        end
  end.

End IsoText.

(** ** HTTP *)

Record response : Type := {
  status_code : Z;
  text : string
}.

(** [requests.get(url, headers=headers, params=params)]: the parameters
    are the value of [$filter] when the call passes one. *)
Record request : Type := {
  req_url : string;
  req_headers : list (string * string);
  req_filter : option string
}.

Record meeting : Type := {
  subject : json;
  startTime : string;
  endTime : string;
  participants : string;
  attendanceCount : option Z;
  attendanceEmails : list json;
  attendeeEmails : list json
}.

Record report : Type := {
  report_month : string;
  report_count : Z;
  report_meetings : list meeting
}.

Definition escape_odata_string (value : string) : string :=
  PyStr.double_quotes value.

Section Transport.

Variable json_loads : string -> option json.

(** The transport can raise. *)
Variable http_get : request -> result response.

(** [str(value)] inside an f-string, for a value that is not a string. *)
Variable py_str : json -> string.

Variable headers : list (string * string).

(** [response.json()] *)
Definition response_json (r : response) : result json :=
  match json_loads (text r) with
  | Some v => Ret v
  | None => Raise JSONDecodeError
  end.

(** [requests.get(url, headers=headers)] where [url] is any object: only
    a string is a URL. *)
Definition get_url (url : json) : result response :=
  match url with
  | JStr u =>
      http_get {| req_url := u; req_headers := headers; req_filter := None |}
  | _ => Raise TransportError
  end.

(** The loop of [fetch_events]; [None] when [fuel] pages were not enough
    to reach the end of the chain. *)
Fixpoint fetch_events_loop (fuel : nat) (url : json) (events : list json)
  : option (result (list json)) :=
  if negb (truthy url) then Some (Ret events)
  else
    match fuel with
    | O => None
    | S fuel' =>
        match get_url url with
        | Raise e => Some (Raise e)
        | Ret resp =>
            if (status_code resp =? 200)%Z then
              match response_json resp with
              | Raise e => Some (Raise e)
              | Ret body =>
                  match obj_get_default body "value" (JArr []) with
                  | Raise e => Some (Raise e)
                  | Ret value =>
                      match PyCmp.py_iter value with
                      | Raise e => Some (Raise e)
                      | Ret items =>
                          match obj_get body "@odata.nextLink" with
                          | Raise e => Some (Raise e)
                          | Ret next =>
                              fetch_events_loop fuel' next (events ++ items)
                          end
                      end
                  end
              end
            else Some (Ret events)
        end
    end.

Definition fetch_events (fuel : nat) (url : string)
  : option (result (list json)) :=
  fetch_events_loop fuel (JStr url) [].

(** ** Attendance enricher *)

Definition MEETINGS_URL : string :=
  "https://graph.microsoft.com/v1.0/me/onlineMeetings".

(** [f"{value}"] *)
Definition format_value (v : json) : string :=
  match v with
  | JStr s => s
  | _ => py_str v
  end.

Definition reports_url (meeting_id : json) : string :=
  MEETINGS_URL ++ "/" ++ format_value meeting_id ++ "/attendanceReports".

Definition records_url (meeting_id report_id : json) : string :=
  reports_url meeting_id ++ "/" ++ format_value report_id
  ++ "/attendanceRecords".

Definition join_filter (join_url : string) : string :=
  "joinWebUrl eq '" ++ escape_odata_string join_url ++ "'".

(** [items[0]] on a value that is not empty. *)
Definition first_item (v : json) : result json :=
  match v with
  | JArr (x :: _) => Ret x
  | JArr [] => Raise IndexError
  | JStr (String c _) => Ret (JStr (String c EmptyString))
  | JStr EmptyString => Raise IndexError
  | JObj _ => Raise KeyError
  | _ => Raise TypeError
  end.

(** The key function of [reports.sort]: every key is computed before
    any two are compared. *)
Fixpoint created_keys (reports : list json) : result (list (json * json)) :=
  match reports with
  | [] => Ret []
  | r :: rest =>
      key <- obj_get_default r "createdDateTime" (JStr EmptyString) ;;
      keyed <- created_keys rest ;;
      Ret ((key, r) :: keyed)
  end.

(** [reports.sort(key=...)]: only a list has [sort]. *)
Definition sort_reports (reports : json) : result (list json) :=
  match reports with
  | JArr items =>
      keyed <- created_keys items ;;
      sorted <- PyCmp.sort_keyed keyed ;;
      Ret (map snd sorted)
  | _ => Raise AttributeError
  end.

(** The email of one attendance record: [None] stands in for an identity
    or a user that is missing. *)
Definition record_email (record : json) : result json :=
  identity_raw <- obj_get record "identity" ;;
  let identity := py_or identity_raw (JObj []) in
  user_raw <- obj_get identity "user" ;;
  let user := py_or user_raw (JObj []) in
  obj_get user "email".

(** The loop over the attendance records. *)
Fixpoint collect_emails (records : list json) (emails : list json)
  : result (list json) :=
  match records with
  | [] => Ret emails
  | record :: rest =>
      email <- record_email record ;;
      if truthy email then
        emails' <- PyCmp.set_add emails email ;;
        collect_emails rest emails'
      else collect_emails rest emails
  end.

(** The third request of [fetch_attendance] and what follows it. *)
Definition attendance_records (meeting_id report_id : json)
  : result (option (Z * list json)) :=
  records_resp <- get_url (JStr (records_url meeting_id report_id)) ;;
  if negb (status_code records_resp =? 200)%Z then Ret None
  else
    records_body <- response_json records_resp ;;
    records <- obj_get_default records_body "value" (JArr []) ;;
    items <- PyCmp.py_iter records ;;
    emails <- collect_emails items [] ;;
    sorted_emails <- PyCmp.py_sorted emails ;;
    Ret (Some (Z.of_nat (List.length items), sorted_emails)).

(** The second request of [fetch_attendance] and what follows it. *)
Definition attendance_reports (meeting_id : json)
  : result (option (Z * list json)) :=
  reports_resp <- get_url (JStr (reports_url meeting_id)) ;;
  if negb (status_code reports_resp =? 200)%Z then Ret None
  else
    reports_body <- response_json reports_resp ;;
    reports <- obj_get_default reports_body "value" (JArr []) ;;
    if negb (truthy reports) then Ret None
    else
      sorted <- sort_reports reports ;;
      latest <- match rev sorted with
                | r :: _ => Ret r
                | [] => Raise IndexError
                end ;;
      report_id <- obj_get latest "id" ;;
      if negb (truthy report_id) then Ret None
      else attendance_records meeting_id report_id.

(** The body of the [try] in [fetch_attendance]. *)
Definition attendance_lookup (join_url : json)
  : result (option (Z * list json)) :=
  match join_url with
  | JStr join =>
      resp <- http_get {| req_url := MEETINGS_URL; req_headers := headers;
                          req_filter := Some (join_filter join) |} ;;
      if negb (status_code resp =? 200)%Z then Ret None
      else
        body <- response_json resp ;;
        meetings <- obj_get_default body "value" (JArr []) ;;
        if negb (truthy meetings) then Ret None
        else
          first <- first_item meetings ;;
          meeting_id <- obj_get first "id" ;;
          if negb (truthy meeting_id) then Ret None
          else attendance_reports meeting_id
  | _ => Raise AttributeError
  end.

(** [fetch_attendance]: every exception of the lookup is logged and
    turned into [None]. *)
Definition fetch_attendance (join_url : json)
  : result (option (Z * list json)) :=
  if negb (truthy join_url) then Ret None
  else try_except (attendance_lookup join_url) (fun _ => Ret None).

End Transport.

(** ** Report assembler *)

Section Assembler.

Variable json_loads : string -> option json.
Variable http_get : request -> result response.
Variable py_str : json -> string.
Variable pytz_timezone : string -> option tzinfo.
Variable fromisoformat : string -> option datetime.
Variable headers : list (string * string).

(** The loop over [attendees_raw]: the names and the addresses. *)
Fixpoint collect_attendees (attendees : list json)
    (names : list json) (emails : list json)
  : result (list json * list json) :=
  match attendees with
  | [] => Ret (names, emails)
  | attendee :: rest =>
      info_raw <- obj_get attendee "emailAddress" ;;
      let email_info := py_or info_raw (JObj []) in
      name <- obj_get email_info "name" ;;
      address <- obj_get email_info "address" ;;
      let names' := if truthy name then names ++ [name] else names in
      let emails' := if truthy address then emails ++ [address] else emails in
      collect_attendees rest names' emails'
  end.

(** [", ".join(names)]: every item has to be a string. *)
Fixpoint as_strings (values : list json) : result (list string) :=
  match values with
  | [] => Ret []
  | JStr s :: rest =>
      strings <- as_strings rest ;;
      Ret (s :: strings)
  | _ :: rest => Raise TypeError
  end.

Definition join_names (names : list json) : result string :=
  strings <- as_strings names ;;
  Ret (PyStr.join ", " strings).

(** [event.get("onlineMeetingUrl") or (event.get("onlineMeeting") or {}).get("joinUrl")] *)
Definition event_join_url (event : dict) : result json :=
  let direct := dict_get event "onlineMeetingUrl" in
  if truthy direct then Ret direct
  else obj_get (py_or (dict_get event "onlineMeeting") (JObj [])) "joinUrl".

(** The body of the loop over [all_events]: [None] for [continue]. *)
Definition process_event (attendance : bool) (tz : tzinfo) (event : json)
  : result (option meeting) :=
  match event with
  | JObj ev =>
      let subject := dict_get_default ev "subject" (JStr "No Subject") in
      let start_part := dict_get_default ev "start" (JObj []) in
      let end_part := dict_get_default ev "end" (JObj []) in
      let attendees_raw := dict_get_default ev "attendees" (JArr []) in
      attendee_list <- PyCmp.py_iter attendees_raw ;;
      collected <- collect_attendees attendee_list [] [] ;;
      let (attendee_names, attendee_emails) := collected in
      attendees <- join_names attendee_names ;;
      join_url <- event_join_url ev ;;
      start_local <- parse_event_time pytz_timezone fromisoformat
                       start_part tz ;;
      end_local <- parse_event_time pytz_timezone fromisoformat
                     end_part tz ;;
      match start_local, end_local with
      | Some start_dt, Some end_dt =>
          attendance_info <-
            (if attendance
             then fetch_attendance json_loads http_get py_str headers join_url
             else Ret None) ;;
          Ret (Some {|
            subject := subject;
            startTime := strftime_local start_dt;
            endTime := strftime_local end_dt;
            participants := attendees;
            attendanceCount := option_map fst attendance_info;
            attendanceEmails :=
              match attendance_info with
              | Some info => snd info
              | None => []
              end;
            attendeeEmails := attendee_emails |})
      | _, _ => Ret None
      end
  | _ => Raise AttributeError
  end.

(** The loop over [all_events]. *)
Fixpoint collect_meetings (attendance : bool) (tz : tzinfo)
    (events : list json) (meetings : list meeting)
  : result (list meeting) :=
  match events with
  | [] => Ret meetings
  | event :: rest =>
      outcome <- process_event attendance tz event ;;
      match outcome with
      | Some m => collect_meetings attendance tz rest (meetings ++ [m])
      | None => collect_meetings attendance tz rest meetings
      end
  end.

(** The report that [main] prints. *)
Definition assemble_report (attendance : bool) (tz : tzinfo)
    (month_key : string) (all_events : list json) : result report :=
  meetings <- collect_meetings attendance tz all_events [] ;;
  Ret {| report_month := month_key;
         report_count := Z.of_nat (List.length meetings);
         report_meetings := meetings |}.

End Assembler.

(** * Properties *)

(** ** Induction on JSON values *)

Section JsonInduction.

Variable P : json -> Prop.
Hypothesis Pnull : P JNull.
Hypothesis Pbool : forall b, P (JBool b).
Hypothesis Pint : forall z, P (JInt z).
Hypothesis Pstr : forall s, P (JStr s).
Hypothesis Parr : forall l, Forall P l -> P (JArr l).
Hypothesis Pobj : forall d, Forall (fun kv => P (snd kv)) d -> P (JObj d).

Fixpoint json_nested_ind (v : json) : P v :=
  match v with
  | JNull => Pnull
  | JBool b => Pbool b
  | JInt z => Pint z
  | JStr s => Pstr s
  | JArr l =>
      Parr l ((fix items (l : list json) : Forall P l :=
                 match l with
                 | [] => Forall_nil _
                 | x :: rest =>
                     Forall_cons x (json_nested_ind x) (items rest)
                 end) l)
  | JObj d =>
      Pobj d ((fix fields (d : list (string * json))
                 : Forall (fun kv => P (snd kv)) d :=
                 match d with
                 | [] => Forall_nil _
                 | kv :: rest =>
                     Forall_cons kv (json_nested_ind (snd kv)) (fields rest)
                 end) d)
  end.

End JsonInduction.

(** ** The token extractor *)

(** All the strings held anywhere inside a value. *)
Fixpoint strings_of (v : json) : list string :=
  match v with
  | JStr s => [s]
  | JArr l => flat_map strings_of l
  | JObj d =>
      (fix fields (d : list (string * json)) : list string :=
         match d with
         | [] => []
         | (_, x) :: rest => strings_of x ++ fields rest
         end) d
  | _ => []
  end.

(** What the storage loop returns early for one entry, if anything. *)
Definition entry_token (json_loads : string -> option json) (raw : string)
  : option string :=
  if PyStr.is_empty raw then None
  else match json_loads raw with
       | None => if looks_like_jwt raw then Some raw else None
       | Some (JObj data) => extract_token_from_object data
       | Some _ => None
       end.

(** What the storage loop appends to [tokens] for one entry. *)
Definition entry_tagged (json_loads : string -> option json) (raw : string)
  : list dict :=
  if PyStr.is_empty raw then []
  else match json_loads raw with
       | Some (JObj data) =>
           if is_access_token data then [data]
           else tagged_children (dict_values data)
       | _ => []
       end.

Definition tagged_in_storage (json_loads : string -> option json)
    (entries : list (string * string)) : list dict :=
  flat_map (fun e => entry_tagged json_loads (snd e)) entries.

Definition storage (entries : list (string * string)) : driver :=
  {| storage_entries := Some entries |}.

Lemma extract_token_from_object_eq (data : dict) :
  extract_token_from_object data =
  match token_by_name data token_keys with
  | Some value => Some value
  | None => token_in_values (dict_values data)
  end.
Proof.
  unfold extract_token_from_object at 1. cbn [extract_token_from_value].
  destruct (token_by_name data token_keys) as [value|]; [reflexivity|].
  unfold dict_values.
  induction data as [|[k v] rest IH]; [reflexivity|].
  simpl. destruct v; try exact IH.
  fold (extract_token_from_object fields).
  destruct (extract_token_from_object fields); [reflexivity | exact IH].
Qed.

Lemma lookup_in_strings (key : string) (d : dict) (s : string) :
  lookup key d = Some (JStr s) -> In s (strings_of (JObj d)).
Proof.
  induction d as [|[k v] rest IH]; simpl; [discriminate|].
  destruct (String.eqb k key).
  - intros [= ->]. simpl. now left.
  - intros H. apply in_or_app. right. exact (IH H).
Qed.

Lemma token_by_name_sound (data : dict) (keys : list string) (t : string) :
  token_by_name data keys = Some t ->
  looks_like_jwt t = true /\ In t (strings_of (JObj data)).
Proof.
  induction keys as [|key rest IH]; simpl; [discriminate|].
  unfold dict_get.
  destruct (lookup key data) as [v|] eqn:Hl; [|exact IH].
  destruct v; try exact IH.
  destruct (looks_like_jwt s) eqn:Hj; [|exact IH].
  intros [= <-]. split; [exact Hj|].
  eapply lookup_in_strings; eassumption.
Qed.

Lemma extract_token_from_value_sound (v : json) (t : string) :
  extract_token_from_value v = Some t ->
  looks_like_jwt t = true /\ In t (strings_of v).
Proof.
  revert t. induction v using json_nested_ind; intros t; try discriminate.
  change (extract_token_from_value (JObj d))
    with (extract_token_from_object d).
  rewrite extract_token_from_object_eq.
  destruct (token_by_name d token_keys) as [value|] eqn:Hn.
  - intros [= <-]. eapply token_by_name_sound; eassumption.
  - clear Hn. unfold dict_values.
    induction d as [|[k x] rest IH]; simpl; [discriminate|].
    inversion H as [|? ? Hx Hrest]; subst. simpl in Hx.
    assert (Hstep : token_in_values (map snd rest) = Some t ->
                    looks_like_jwt t = true
                    /\ In t (strings_of x ++ strings_of (JObj rest))).
    { intros Ht. destruct (IH Hrest Ht) as [Hj Hin].
      split; [exact Hj|]. apply in_or_app. now right. }
    destruct x; try exact Hstep.
    unfold extract_token_from_object.
    destruct (extract_token_from_value (JObj fields)) as [tok|] eqn:He;
      [|exact Hstep].
    intros [= <-]. destruct (Hx _ eq_refl) as [Hj Hin].
    split; [exact Hj|]. apply in_or_app. now left.
Qed.

(** The first value the storage loop would return early. *)
Fixpoint first_entry_token (json_loads : string -> option json)
    (entries : list (string * string)) : option string :=
  match entries with
  | [] => None
  | e :: rest =>
      match entry_token json_loads (snd e) with
      | Some v => Some v
      | None => first_entry_token json_loads rest
      end
  end.

Lemma scan_entries_eq json_loads entries tokens :
  scan_entries json_loads entries tokens =
  match first_entry_token json_loads entries with
  | Some v => inl v
  | None => inr (tokens ++ tagged_in_storage json_loads entries)
  end.
Proof.
  revert tokens. induction entries as [|[k raw] rest IH]; intros tokens.
  - simpl. now rewrite app_nil_r.
  - simpl. unfold entry_token, entry_tagged, tagged_in_storage. simpl.
    fold (tagged_in_storage json_loads rest).
    destruct (PyStr.is_empty raw); [exact (IH tokens)|].
    destruct (json_loads raw) as [j|].
    + destruct j; try exact (IH tokens).
      destruct (extract_token_from_object fields); [reflexivity|].
      destruct (is_access_token fields); rewrite IH, app_assoc; reflexivity.
    + destruct (looks_like_jwt raw); [reflexivity | exact (IH tokens)].
Qed.

Lemma first_entry_token_silent json_loads entries :
  (forall e, In e entries -> entry_token json_loads (snd e) = None) ->
  first_entry_token json_loads entries = None.
Proof.
  induction entries as [|e rest IH]; intros H; [reflexivity|].
  simpl. rewrite (H e (or_introl eq_refl)).
  apply IH. intros e' He'. apply H. now right.
Qed.


Lemma first_entry_token_in json_loads entries v :
  first_entry_token json_loads entries = Some v ->
  exists e, In e entries /\ entry_token json_loads (snd e) = Some v.
Proof.
  induction entries as [|e rest IH]; simpl; [discriminate|].
  destruct (entry_token json_loads (snd e)) as [w|] eqn:He.
  - intros [= <-]. exists e. split; [now left | exact He].
  - intros H. destruct (IH H) as (e' & Hin & He').
    exists e'. split; [now right | exact He'].
Qed.

(** A tagged entry that the host loop passes over: its target is text (or
    empty) that does not name the host, or it has no secret. *)
Definition passed_over (token : dict) : Prop :=
  exists target, target_lower token = Ret target
    /\ (PyStr.contains GRAPH_HOST target = false
        \/ truthy (dict_get token "secret") = false).


Lemma prefer_graph_sound tokens v :
  prefer_graph tokens = Ret (Some v) ->
  exists t, In t tokens /\ v = dict_get t "secret" /\ truthy v = true.
Proof.
  induction tokens as [|t rest IH]; simpl; [discriminate|].
  destruct (target_lower t) as [target|e]; simpl; [|discriminate].
  assert (Hrest : prefer_graph rest = Ret (Some v) ->
                  exists t0, In t0 (t :: rest)
                             /\ v = dict_get t0 "secret" /\ truthy v = true).
  { intros H. destruct (IH H) as (t0 & Hin & Hv).
    exists t0. split; [now right | exact Hv]. }
  destruct (PyStr.contains GRAPH_HOST target); [|exact Hrest].
  destruct (truthy (dict_get t "secret")) eqn:Hs; [|exact Hrest].
  intros [= <-]. exists t. split; [now left|]. now split.
Qed.

Lemma any_secret_sound tokens v :
  any_secret tokens = Some v ->
  exists t, In t tokens /\ v = dict_get t "secret" /\ truthy v = true.
Proof.
  induction tokens as [|t rest IH]; simpl; [discriminate|].
  destruct (truthy (dict_get t "secret")) eqn:Hs.
  - intros [= <-]. exists t. split; [now left|]. now split.
  - intros H. destruct (IH H) as (t0 & Hin & Hv).
    exists t0. split; [now right | exact Hv].
Qed.

(** A tagged entry without a secret whose target is text or empty. *)
Definition no_secret (token : dict) : Prop :=
  truthy (dict_get token "secret") = false
  /\ exists target, target_lower token = Ret target.

Lemma prefer_graph_none tokens :
  (forall t, In t tokens -> no_secret t) -> prefer_graph tokens = Ret None.
Proof.
  induction tokens as [|t rest IH]; intros H; [reflexivity|].
  simpl. destruct (H t (or_introl eq_refl)) as (Hs & target & Ht).
  rewrite Ht, Hs. simpl.
  assert (prefer_graph rest = Ret None) as ->.
  { apply IH. intros q Hq. apply H. now right. }
  now destruct (PyStr.contains GRAPH_HOST target).
Qed.

Lemma any_secret_none tokens :
  (forall t, In t tokens -> no_secret t) -> any_secret tokens = None.
Proof.
  induction tokens as [|t rest IH]; intros H; [reflexivity|].
  simpl. destruct (H t (or_introl eq_refl)) as (Hs & _). rewrite Hs.
  apply IH. intros q Hq. apply H. now right.
Qed.

Lemma entry_token_sound json_loads raw v :
  entry_token json_loads raw = Some v ->
  looks_like_jwt v = true
  /\ (v = raw \/ exists j, json_loads raw = Some j /\ In v (strings_of j)).
Proof.
  unfold entry_token.
  destruct (PyStr.is_empty raw); [discriminate|].
  destruct (json_loads raw) as [j|].
  - destruct j; try discriminate.
    intros H. destruct (extract_token_from_value_sound _ _ H) as [Hj Hin].
    split; [exact Hj|]. right. eexists. split; [reflexivity | exact Hin].
  - destruct (looks_like_jwt raw) eqn:Hj; [|discriminate].
    intros [= <-]. split; [exact Hj | now left].
Qed.

Module TokenExamples.

Import JsonText.


Definition graph_entry (secret : string) : json :=
  JObj [ ("credentialType", JStr "AccessToken");
         ("target", JStr "https://GRAPH.microsoft.com/.default");
         ("secret", JStr secret) ].




(** One tagged entry with an opaque secret. *)
Definition opaque_only : list (string * string) :=
  [ ("msal.graph", json_dumps (graph_entry "graph-opaque-secret")) ].

End TokenExamples.





(** No string of the storage is shaped like a three-part token: neither a
    raw value nor a string anywhere inside a parsed value. *)
Definition no_token_shape (json_loads : string -> option json)
    (entries : list (string * string)) : Prop :=
  forall e, In e entries ->
    looks_like_jwt (snd e) = false
    /\ forall j s, json_loads (snd e) = Some j -> In s (strings_of j) ->
                   looks_like_jwt s = false.

(** C2 as the specification words it. *)
Definition absent_without_token_shape : Prop :=
  forall json_loads entries,
    no_token_shape json_loads entries ->
    extract_access_token json_loads (storage entries) = Ret None.

(** C2, counterexample: a tagged entry with an opaque secret is returned
    although nothing in the storage is shaped like a three-part token. *)
Lemma C2_opaque_secret_returned : ~ absent_without_token_shape.
Proof.
  intros claim.
  specialize (claim JsonText.json_loads_lite TokenExamples.opaque_only).
  assert (Hshape : no_token_shape JsonText.json_loads_lite
                     TokenExamples.opaque_only).
  { intros e [<-|[]]. split; [vm_compute; reflexivity|].
    intros j s Hj. vm_compute in Hj. injection Hj as <-.
    simpl. intros [<-|[<-|[<-|[]]]]; vm_compute; reflexivity. }
  specialize (claim Hshape). vm_compute in claim. discriminate claim.
Qed.

(** C2, amended: every value the extractor returns is either a string of
    the storage shaped like a three-part token, or the non-empty secret of
    a tagged entry; and when the storage holds no string of that shape and
    every tagged entry has no secret (and a target that is text or empty),
    the extractor returns absent. *)
Theorem C2_returned_value_origin :
  (forall json_loads entries v,
      extract_access_token json_loads (storage entries) = Ret (Some v) ->
      (exists s e, v = JStr s /\ looks_like_jwt s = true /\ In e entries
                   /\ (s = snd e
                       \/ exists j, json_loads (snd e) = Some j
                                    /\ In s (strings_of j)))
      \/ (exists t, In t (tagged_in_storage json_loads entries)
                    /\ v = dict_get t "secret" /\ truthy v = true))
  /\
  (forall json_loads entries,
      no_token_shape json_loads entries ->
      (forall t, In t (tagged_in_storage json_loads entries) -> no_secret t) ->
      extract_access_token json_loads (storage entries) = Ret None).
Proof.
  split.
  - intros json_loads entries v.
    unfold extract_access_token, storage. simpl.
    rewrite scan_entries_eq.
    destruct (first_entry_token json_loads entries) as [w|] eqn:Hf.
    + intros [= <-].
      destruct (first_entry_token_in _ _ _ Hf) as (e & Hin & He).
      destruct (entry_token_sound _ _ _ He) as [Hj Hfrom].
      left. exists w, e. repeat split; assumption.
    + simpl.
      destruct (prefer_graph (tagged_in_storage json_loads entries))
        as [[s|]|err] eqn:Hp; simpl; try discriminate.
      * intros [= <-]. right. exact (prefer_graph_sound _ _ Hp).
      * intros [= H]. right. exact (any_secret_sound _ _ H).
  - intros json_loads entries Hshape Htag.
    unfold extract_access_token, storage. simpl.
    rewrite scan_entries_eq.
    destruct (first_entry_token json_loads entries) as [w|] eqn:Hf.
    + destruct (first_entry_token_in _ _ _ Hf) as (e & Hin & He).
      destruct (entry_token_sound _ _ _ He) as [Hj Hfrom].
      destruct (Hshape e Hin) as [Hraw Hdeep].
      destruct Hfrom as [->|(j & Hload & Hs)].
      * congruence.
      * rewrite (Hdeep j w Hload Hs) in Hj. discriminate.
    + simpl. rewrite (prefer_graph_none _ Htag). simpl.
      now rewrite (any_secret_none _ Htag).
Qed.

Lemma C2_returned_value_origin_witness :
  extract_access_token JsonText.json_loads_lite
    (storage [("theme", "dark"); ("count", "12")]) = Ret None.
Proof.
  apply (proj2 C2_returned_value_origin JsonText.json_loads_lite
           [("theme", "dark"); ("count", "12")]).
  - intros e [<-|[<-|[]]]; (split; [vm_compute; reflexivity|]).
    + intros j s Hj. vm_compute in Hj. discriminate.
    + intros j s Hj. vm_compute in Hj. injection Hj as <-. intros [].
  - intros t Ht. vm_compute in Ht. destruct Ht.
Defined.

(** ** Calendar arithmetic *)

Local Open Scope Z_scope.

Lemma days_before_year_next y :
  1 <= y ->
  days_before_year (y + 1)
  = days_before_year y + 365 + (if is_leap y then 1 else 0).
Proof.
  intros Hy. unfold days_before_year, is_leap.
  replace (y + 1 - 1) with y by lia.
  destruct (y mod 4 =? 0) eqn:H4; destruct (y mod 100 =? 0) eqn:H100;
    destruct (y mod 400 =? 0) eqn:H400; simpl;
    rewrite ?Z.eqb_eq, ?Z.eqb_neq in *; Z.div_mod_to_equations; lia.
Qed.

Lemma days_before_year_mono y1 y2 :
  1 <= y1 -> y1 < y2 -> days_before_year y1 + 365 <= days_before_year y2.
Proof.
  intros H1 H2. unfold days_before_year. Z.div_mod_to_equations. lia.
Qed.

(** The month and the day of the [n]-th day (from 0) of a year. *)
Definition month_day (leapyear : bool) (n : Z) : Z * Z :=
  let m := Z.shiftr (n + 50) 5 in
  let preceding := DAYS_BEFORE_MONTH m + (if (2 <? m) && leapyear then 1 else 0) in
  if n <? preceding then
    let m' := m - 1 in
    let preceding' := preceding - (DAYS_IN_MONTH m' + (if (m' =? 2) && leapyear then 1 else 0)) in
    (m', n - preceding' + 1)
  else (m, n - preceding + 1).

Lemma year_split y :
  1 <= y ->
  exists a b c e,
    y - 1 = 400 * a + 100 * b + 4 * c + e
    /\ 0 <= a /\ 0 <= b < 4 /\ 0 <= c < 25 /\ 0 <= e < 4
    /\ days_before_year y = 146097 * a + 36524 * b + 1461 * c + 365 * e
    /\ is_leap y = (e =? 3) && (negb (c =? 24) || (b =? 3)).
Proof.
  intros Hy.
  exists ((y - 1) / 400), ((y - 1) mod 400 / 100), ((y - 1) mod 100 / 4), ((y - 1) mod 4).
  unfold days_before_year, is_leap.
  repeat split; try (Z.div_mod_to_equations; lia).
Qed.


Fixpoint zrange (lo : Z) (n : nat) : list Z :=
  match n with
  | O => []
  | S n' => lo :: zrange (lo + 1) n'
  end.

Lemma zrange_In lo n z : lo <= z < lo + Z.of_nat n -> In z (zrange lo n).
Proof.
  revert lo. induction n as [|n IH]; intros lo H; [lia|].
  simpl. destruct (Z.eq_dec lo z) as [->|Hne]; [now left|].
  right. apply IH. lia.
Qed.

Definition month_day_ok (leap : bool) (m d : Z) : bool :=
  negb (d <=? (if (m =? 2) && leap then 29 else DAYS_IN_MONTH m))
  || (let (m', d') := month_day leap
        (DAYS_BEFORE_MONTH m + (if (2 <? m) && leap then 1 else 0) + d - 1) in
      (m' =? m) && (d' =? d)).

Definition month_day_table : bool :=
  forallb (fun leap =>
    forallb (fun m =>
      forallb (fun d => month_day_ok leap m d) (zrange 1 31)) (zrange 1 12))
    [true; false].

Lemma month_day_table_ok : month_day_table = true.
Proof. vm_compute. reflexivity. Qed.

Lemma DAYS_IN_MONTH_le m : 1 <= m <= 12 -> 28 <= DAYS_IN_MONTH m <= 31.
Proof.
  intros Hm.
  assert (Hc : m = 1 \/ m = 2 \/ m = 3 \/ m = 4 \/ m = 5 \/ m = 6 \/ m = 7
               \/ m = 8 \/ m = 9 \/ m = 10 \/ m = 11 \/ m = 12) by lia.
  repeat (destruct Hc as [->|Hc]); try subst m; vm_compute; split; discriminate.
Qed.

Lemma month_day_roundtrip (leap : bool) m d :
  1 <= m <= 12 -> 1 <= d <= (if (m =? 2) && leap then 29 else DAYS_IN_MONTH m) ->
  month_day leap (DAYS_BEFORE_MONTH m + (if (2 <? m) && leap then 1 else 0) + d - 1) = (m, d).
Proof.
  intros Hm Hd.
  assert (Hd31 : 1 <= d <= 31).
  { pose proof (DAYS_IN_MONTH_le m Hm). destruct ((m =? 2) && leap); lia. }
  pose proof month_day_table_ok as Ht. unfold month_day_table in Ht.
  rewrite forallb_forall in Ht.
  assert (Hl : In leap [true; false]) by (destruct leap; simpl; auto).
  specialize (Ht leap Hl). rewrite forallb_forall in Ht.
  specialize (Ht m (zrange_In 1 12 m ltac:(lia))). rewrite forallb_forall in Ht.
  specialize (Ht d (zrange_In 1 31 d ltac:(lia))).
  unfold month_day_ok in Ht.
  destruct (month_day leap _) as [m' d'].
  apply orb_true_iff in Ht. destruct Ht as [Ht|Ht].
  - apply negb_true_iff, Z.leb_gt in Ht. lia.
  - apply andb_true_iff in Ht. destruct Ht as [H1 H2].
    apply Z.eqb_eq in H1, H2. now subst.
Qed.

Lemma ord2ymd_of_year_day y k :
  1 <= y -> 0 <= k < 365 + (if is_leap y then 1 else 0) ->
  ord2ymd (days_before_year y + k + 1) =
  if k =? 365 then (y, 12, 31)
  else let (m, d) := month_day (is_leap y) k in (y, m, d).
Proof.
  intros Hy Hk.
  destruct (year_split y Hy) as (a & b & c & e & Hsplit & Ha & Hb & Hc & He & Hdby & Hleap).
  rewrite Hdby, Hleap in *. clear Hdby Hleap.
  unfold ord2ymd, DI400Y, DI100Y, DI4Y.
  replace (146097 * a + 36524 * b + 1461 * c + 365 * e + k + 1 - 1)
    with (146097 * a + 36524 * b + 1461 * c + 365 * e + k) by lia.
  set (N := 146097 * a + 36524 * b + 1461 * c + 365 * e + k).
  assert (E1 : N / 146097 = a) by (subst N; destruct ((e =? 3) && (negb (c =? 24) || (b =? 3))) eqn:Hl; Z.div_mod_to_equations; lia).
  assert (E2 : N mod 146097 = 36524 * b + 1461 * c + 365 * e + k) by (subst N; destruct ((e =? 3) && (negb (c =? 24) || (b =? 3))) eqn:Hl; Z.div_mod_to_equations; lia).
  rewrite E1, E2. clear E1 E2 N.
  destruct (Z.eq_dec k 365) as [->|Hk365].
  - (* the last day of a leap year *)
    assert (Hl : (e =? 3) && (negb (c =? 24) || (b =? 3)) = true).
    { destruct ((e =? 3) && (negb (c =? 24) || (b =? 3))); [reflexivity | lia]. }
    clear Hk. change (365 =? 365) with true. cbv iota.
    assert (He3 : e = 3) by lia. subst e.
    destruct (Z.eq_dec c 24) as [->|Hc24].
    + assert (b = 3) by lia. subst b.
      change ((36524 * 3 + 1461 * 24 + 365 * 3 + 365) / 36524) with 4.
      change ((36524 * 3 + 1461 * 24 + 365 * 3 + 365) mod 36524) with 0.
      change (0 mod 1461 / 365 =? 4) with false.
      change (4 =? 4) with true. cbv iota. simpl orb. cbv iota.
      change (0 / 1461) with 0. change (0 mod 1461 / 365) with 0.
      f_equal. f_equal. lia.
    + set (M := 36524 * b + 1461 * c + 365 * 3 + 365).
      assert (E3 : M / 36524 = b) by (subst M; Z.div_mod_to_equations; lia).
      assert (E4 : M mod 36524 = 1461 * c + 1460) by (subst M; Z.div_mod_to_equations; lia).
      rewrite E3, E4. clear E3 E4 M.
      assert (E5 : (1461 * c + 1460) / 1461 = c) by (Z.div_mod_to_equations; lia).
      assert (E6 : (1461 * c + 1460) mod 1461 = 1460) by (Z.div_mod_to_equations; lia).
      rewrite E5, E6. change (1460 / 365) with 4. change (4 =? 4) with true.
      simpl orb. cbv iota. f_equal. f_equal. lia.
  - assert (Hk' : 0 <= k < 365).
    { destruct ((e =? 3) && (negb (c =? 24) || (b =? 3))); lia. }
    apply Z.eqb_neq in Hk365. rewrite Hk365.
    set (M := 36524 * b + 1461 * c + 365 * e + k).
    assert (E3 : M / 36524 = b) by (subst M; Z.div_mod_to_equations; lia).
    assert (E4 : M mod 36524 = 1461 * c + 365 * e + k) by (subst M; Z.div_mod_to_equations; lia).
    rewrite E3, E4. clear E3 E4 M.
    set (M := 1461 * c + 365 * e + k).
    assert (E5 : M / 1461 = c) by (subst M; Z.div_mod_to_equations; lia).
    assert (E6 : M mod 1461 = 365 * e + k) by (subst M; Z.div_mod_to_equations; lia).
    rewrite E5, E6. clear E5 E6 M.
    assert (E7 : (365 * e + k) / 365 = e) by (Z.div_mod_to_equations; lia).
    assert (E8 : (365 * e + k) mod 365 = k) by (Z.div_mod_to_equations; lia).
    rewrite E7, E8. clear E7 E8.
    assert (F1 : (e =? 4) = false) by lia.
    assert (F2 : (b =? 4) = false) by lia.
    rewrite F1, F2. simpl orb. cbv iota.
    unfold month_day.
    replace (a * 400 + 1 + b * 100 + c * 4 + e) with y by lia.
    set (lp := (e =? 3) && (negb (c =? 24) || (b =? 3))).
    destruct (k <? _); reflexivity.
Qed.

Lemma days_before_month_range (leap : bool) m :
  1 <= m <= 12 ->
  0 <= DAYS_BEFORE_MONTH m + (if (2 <? m) && leap then 1 else 0)
  /\ DAYS_BEFORE_MONTH m + (if (2 <? m) && leap then 1 else 0)
     + (if (m =? 2) && leap then 29 else DAYS_IN_MONTH m)
     <= 365 + (if leap then 1 else 0).
Proof.
  intros Hm.
  assert (Hc : m = 1 \/ m = 2 \/ m = 3 \/ m = 4 \/ m = 5 \/ m = 6 \/ m = 7
               \/ m = 8 \/ m = 9 \/ m = 10 \/ m = 11 \/ m = 12) by lia.
  destruct leap;
    repeat (destruct Hc as [->|Hc]); try subst m; vm_compute; split; discriminate.
Qed.

Lemma ord2ymd_ymd2ord y m d :
  1 <= y -> 1 <= m <= 12 -> 1 <= d <= days_in_month y m ->
  ord2ymd (ymd2ord y m d) = (y, m, d).
Proof.
  intros Hy Hm Hd. unfold ymd2ord, days_before_month, days_in_month in *.
  pose proof (month_day_roundtrip (is_leap y) m d Hm Hd) as Hmd.
  pose proof (days_before_month_range (is_leap y) m Hm) as Hr.
  set (k := DAYS_BEFORE_MONTH m + (if (2 <? m) && is_leap y then 1 else 0) + d - 1) in *.
  replace (days_before_year y + (DAYS_BEFORE_MONTH m + (if (2 <? m) && is_leap y then 1 else 0)) + d)
    with (days_before_year y + k + 1) by (subst k; lia).
  assert (Hk : 0 <= k < 365 + (if is_leap y then 1 else 0)) by (subst k; lia).
  rewrite (ord2ymd_of_year_day y k Hy Hk).
  destruct (Z.eqb_spec k 365) as [Hk365|Hk365].
  - (* day 366 of a leap year is the 31st of December *)
    rewrite Hk365 in Hmd. destruct (is_leap y); [|lia].
    vm_compute in Hmd. now injection Hmd as <- <-.
  - now rewrite Hmd.
Qed.

Lemma ymd2ord_month_mono y m1 m2 :
  1 <= m1 -> m1 <= m2 -> m2 <= 12 ->
  days_before_month y m1 <= days_before_month y m2.
Proof.
  intros H1 H2 H3. unfold days_before_month.
  assert (Hc1 : m1 = 1 \/ m1 = 2 \/ m1 = 3 \/ m1 = 4 \/ m1 = 5 \/ m1 = 6 \/ m1 = 7
               \/ m1 = 8 \/ m1 = 9 \/ m1 = 10 \/ m1 = 11 \/ m1 = 12) by lia.
  assert (Hc2 : m2 = 1 \/ m2 = 2 \/ m2 = 3 \/ m2 = 4 \/ m2 = 5 \/ m2 = 6 \/ m2 = 7
               \/ m2 = 8 \/ m2 = 9 \/ m2 = 10 \/ m2 = 11 \/ m2 = 12) by lia.
  destruct (is_leap y);
    repeat (destruct Hc1 as [->|Hc1]); try subst m1;
    repeat (destruct Hc2 as [->|Hc2]); try subst m2;
    try lia; vm_compute; discriminate.
Qed.

Lemma days_before_month_next y m :
  1 <= m < 12 ->
  days_before_month y (m + 1) = days_before_month y m + days_in_month y m.
Proof.
  intros Hm. unfold days_before_month, days_in_month.
  assert (Hc : m = 1 \/ m = 2 \/ m = 3 \/ m = 4 \/ m = 5 \/ m = 6 \/ m = 7
               \/ m = 8 \/ m = 9 \/ m = 10 \/ m = 11) by lia.
  destruct (is_leap y);
    repeat (destruct Hc as [->|Hc]); try subst m; vm_compute; reflexivity.
Qed.

Lemma days_in_december y :
  days_before_month y 12 + days_in_month y 12
  = 365 + (if is_leap y then 1 else 0).
Proof. unfold days_before_month, days_in_month. destruct (is_leap y); reflexivity. Qed.

Lemma days_in_month_range y m : 1 <= m <= 12 -> 28 <= days_in_month y m <= 31.
Proof.
  intros Hm. unfold days_in_month. pose proof (DAYS_IN_MONTH_le m Hm).
  destruct ((m =? 2) && is_leap y); lia.
Qed.

Lemma days_before_month_bounds y m :
  1 <= m <= 12 ->
  0 <= days_before_month y m
  /\ days_before_month y m + days_in_month y m
     <= 365 + (if is_leap y then 1 else 0).
Proof.
  intros Hm. exact (days_before_month_range (is_leap y) m Hm).
Qed.

(** The first day of the month after [(y, m)]. *)
Definition following (y m : Z) : Z * Z :=
  if m =? 12 then (y + 1, 1) else (y, m + 1).

Lemma ymd2ord_following y m :
  1 <= y -> 1 <= m <= 12 ->
  ymd2ord (fst (following y m)) (snd (following y m)) 1
  = ymd2ord y m (days_in_month y m) + 1.
Proof.
  intros Hy Hm. unfold following, ymd2ord.
  destruct (Z.eqb_spec m 12) as [->|Hne]; simpl fst; simpl snd.
  - rewrite (days_before_year_next y Hy). pose proof (days_in_december y).
    change (days_before_month (y + 1) 1) with 0. lia.
  - rewrite (days_before_month_next y m) by lia. lia.
Qed.

Lemma ymd2ord_lex_mono y1 m1 y2 m2 :
  1 <= y1 -> 1 <= m1 <= 12 -> 1 <= m2 <= 12 ->
  y1 < y2 \/ (y1 = y2 /\ m1 <= m2) ->
  ymd2ord y1 m1 1 <= ymd2ord y2 m2 1.
Proof.
  intros Hy Hm1 Hm2 [Hlt|[-> Hle]]; unfold ymd2ord.
  - pose proof (days_before_year_mono y1 y2 Hy Hlt).
    pose proof (days_before_month_bounds y1 m1 Hm1).
    pose proof (days_before_month_bounds y2 m2 Hm2).
    pose proof (days_in_month_range y1 m1 Hm1).
    destruct (is_leap y1); lia.
  - pose proof (ymd2ord_month_mono y2 m1 m2). lia.
Qed.

Lemma ymd2ord_bounds y m d :
  1 <= y <= 9999 -> 1 <= m <= 12 -> 1 <= d <= days_in_month y m ->
  1 <= ymd2ord y m d <= MAXORDINAL.
Proof.
  intros Hy Hm Hd. unfold ymd2ord, MAXORDINAL.
  pose proof (days_before_month_bounds y m Hm).
  assert (0 <= days_before_year y /\ days_before_year y + 366 <= 3652060).
  { unfold days_before_year. Z.div_mod_to_equations. lia. }
  destruct (is_leap y) eqn:Hl; try lia.
  assert (days_before_year y + 366 <= 3652059); [|lia].
  destruct (Z.eq_dec y 9999) as [->|]; [discriminate Hl|].
  unfold days_before_year. Z.div_mod_to_equations. lia.
Qed.

(** ** The month window *)

Definition first_of (y m : Z) : datetime :=
  {| year := y; month := m; day := 1;
     hour := 0; minute := 0; second := 0; microsecond := 0;
     utcoffset := Some 0 |}.

Definition last_second (y m : Z) : datetime :=
  {| year := y; month := m; day := days_in_month y m;
     hour := 23; minute := 59; second := 59; microsecond := 0;
     utcoffset := Some 0 |}.

Lemma utc_date_first y m :
  1 <= y <= 9999 -> 1 <= m <= 12 -> utc_date y m 1 = Ret (first_of y m).
Proof.
  intros Hy Hm. unfold utc_date.
  pose proof (days_in_month_range y m Hm).
  assert (H1 : fits_c_int y && fits_c_int m && fits_c_int 1 = true).
  { unfold fits_c_int, C_INT_MIN, C_INT_MAX. change (2 ^ 31) with 2147483648. lia. }
  assert (H2 : (MINYEAR <=? y) && (y <=? MAXYEAR) = true)
    by (unfold MINYEAR, MAXYEAR; lia).
  assert (H3 : (1 <=? m) && (m <=? 12) = true) by lia.
  assert (H4 : (1 <=? 1) && (1 <=? days_in_month y m) = true) by lia.
  rewrite H1, H2, H3, H4. reflexivity.
Qed.

Lemma utc_date_inv y m dt :
  utc_date y m 1 = Ret dt ->
  1 <= y <= 9999 /\ 1 <= m <= 12 /\ dt = first_of y m.
Proof.
  unfold utc_date, MINYEAR, MAXYEAR.
  destruct (negb (fits_c_int y && fits_c_int m && fits_c_int 1)); [discriminate|].
  destruct ((1 <=? y) && (y <=? 9999)) eqn:Hy; [|discriminate].
  destruct ((1 <=? m) && (m <=? 12)) eqn:Hm; [|discriminate].
  destruct ((1 <=? 1) && (1 <=? days_in_month y m)) eqn:Hd; [|discriminate].
  simpl. intros [= <-]. repeat split; lia.
Qed.

Lemma month_start_inv now mv start :
  valid_utc now -> month_start now mv = Ret start ->
  exists y m, 1 <= y <= 9999 /\ 1 <= m <= 12 /\ start = first_of y m.
Proof.
  intros Hnow. unfold month_start.
  assert (Hdefault : utc_date (year now) (month now) 1 = Ret start ->
                     exists y m, 1 <= y <= 9999 /\ 1 <= m <= 12
                                 /\ start = first_of y m).
  { intros H. exists (year now), (month now). exact (utc_date_inv _ _ _ H). }
  destruct mv as [text|]; [|exact Hdefault].
  destruct (PyStr.is_empty text); [exact Hdefault|].
  unfold parse_month.
  destruct (PyStr.split "-" text) as [|y [|m [|? ?]]]; try discriminate.
  destruct (PyInt.py_int y) as [yv|]; [|discriminate].
  destruct (PyInt.py_int m) as [mv|]; [|discriminate].
  destruct (utc_date yv mv 1) as [dt|e] eqn:Hd; simpl.
  - intros [= <-]. exists yv, mv. exact (utc_date_inv _ _ _ Hd).
  - destruct e; discriminate.
Qed.

Lemma next_month_of_first y m :
  1 <= y <= 9999 -> 1 <= m <= 12 -> (y < 9999 \/ m < 12) ->
  next_month_of (first_of y m)
  = Ret (first_of (fst (following y m)) (snd (following y m))).
Proof.
  intros Hy Hm Hlast. unfold next_month_of, following. simpl.
  destruct (Z.eqb_spec m 12) as [->|Hne]; simpl.
  - apply utc_date_first; lia.
  - apply utc_date_first; lia.
Qed.

Lemma next_month_of_last_december :
  next_month_of (first_of 9999 12)
  = Raise (ValueError "year 10000 is out of range").
Proof. reflexivity. Qed.

Lemma following_range y m :
  1 <= y -> 1 <= m <= 12 ->
  1 <= fst (following y m) /\ 1 <= snd (following y m) <= 12.
Proof.
  intros Hy Hm. unfold following. destruct (Z.eqb_spec m 12); simpl; lia.
Qed.

Lemma wall_micros_first y m :
  wall_micros (first_of y m) = ymd2ord y m 1 * US_PER_DAY.
Proof.
  unfold wall_micros, US_PER_DAY, US_PER_SECOND.
  cbn [year month day hour minute second microsecond first_of last_second].
  lia.
Qed.

Lemma wall_micros_last y m :
  wall_micros (last_second y m)
  = ymd2ord y m (days_in_month y m) * US_PER_DAY + 86399 * US_PER_SECOND.
Proof.
  unfold wall_micros, US_PER_DAY, US_PER_SECOND.
  cbn [year month day hour minute second microsecond first_of last_second].
  lia.
Qed.

Lemma last_second_before_following y m :
  1 <= y <= 9999 -> 1 <= m <= 12 ->
  sub_seconds (first_of (fst (following y m)) (snd (following y m))) 1
  = Ret (last_second y m).
Proof.
  intros Hy Hm. unfold sub_seconds, add_micros.
  rewrite wall_micros_first, ymd2ord_following by lia.
  pose proof (days_in_month_range y m Hm) as Hdim.
  pose proof (ymd2ord_bounds y m (days_in_month y m) Hy Hm ltac:(lia)) as Hord.
  set (L := ymd2ord y m (days_in_month y m)) in *.
  unfold of_wall_micros, US_PER_DAY, US_PER_SECOND in *.
  set (t := (L + 1) * (86400 * 1000000) + - (1 * 1000000)).
  assert (E1 : t / (86400 * 1000000) = L) by (subst t; Z.div_mod_to_equations; lia).
  assert (E2 : t mod (86400 * 1000000) = 86399 * 1000000)
    by (subst t; Z.div_mod_to_equations; lia).
  rewrite E1, E2.
  assert (Hr : (0 <? L) && (L <=? MAXORDINAL) = true) by lia.
  rewrite Hr. subst L. rewrite ord2ymd_ymd2ord by lia.
  reflexivity.
Qed.

Lemma month_window_of_start now mv y m :
  1 <= y <= 9999 -> 1 <= m <= 12 -> (y < 9999 \/ m < 12) ->
  month_start now mv = Ret (first_of y m) ->
  month_window now mv = Ret (first_of y m, dt_min now (last_second y m)).
Proof.
  intros Hy Hm Hlast Hs. unfold month_window. rewrite Hs. simpl.
  rewrite (next_month_of_first y m Hy Hm Hlast). simpl.
  rewrite (last_second_before_following y m Hy Hm). reflexivity.
Qed.

Lemma month_window_inv now mv start end_ :
  valid_utc now -> month_window now mv = Ret (start, end_) ->
  exists y m, 1 <= y <= 9999 /\ 1 <= m <= 12 /\ (y < 9999 \/ m < 12)
              /\ start = first_of y m
              /\ end_ = dt_min now (last_second y m).
Proof.
  intros Hnow Hw.
  destruct (month_start now mv) as [s|e] eqn:Hs;
    [|unfold month_window in Hw; rewrite Hs in Hw; discriminate].
  destruct (month_start_inv now mv s Hnow Hs) as (y & m & Hy & Hm & ->).
  exists y, m.
  assert (Hlast : y < 9999 \/ m < 12).
  { destruct (Z.eq_dec y 9999) as [->|]; [|lia].
    destruct (Z.eq_dec m 12) as [->|]; [|lia].
    unfold month_window in Hw. rewrite Hs in Hw. cbn [bind] in Hw.
    rewrite next_month_of_last_december in Hw. discriminate. }
  rewrite (month_window_of_start now mv y m Hy Hm Hlast Hs) in Hw.
  injection Hw as <- <-. repeat split; try lia; assumption.
Qed.

(** ** Month specifiers written with digits *)

Lemma digit_facts n :
  JsonText.is_digit (digit n) = true
  /\ JsonText.digit_val (digit n) = n mod 10
  /\ PyInt.is_int_space (digit n) = false
  /\ Ascii.eqb (digit n) "-"%char = false
  /\ Ascii.eqb (digit n) "+"%char = false.
Proof.
  unfold digit.
  assert (H : 0 <= n mod 10 < 10) by (apply Z.mod_pos_bound; lia).
  assert (Hc : n mod 10 = 0 \/ n mod 10 = 1 \/ n mod 10 = 2 \/ n mod 10 = 3
               \/ n mod 10 = 4 \/ n mod 10 = 5 \/ n mod 10 = 6
               \/ n mod 10 = 7 \/ n mod 10 = 8 \/ n mod 10 = 9) by lia.
  repeat (destruct Hc as [Hc|Hc]); rewrite Hc; vm_compute; repeat split.
Qed.

Lemma split_at_separator sep before after :
  PyStr.mem sep before = false ->
  PyStr.split sep (before ++ String sep after)
  = before :: PyStr.split sep after.
Proof.
  induction before as [|c rest IH]; simpl; intros H.
  - now rewrite Ascii.eqb_refl.
  - apply orb_false_iff in H. destruct H as [Hc Hrest].
    rewrite Hc, (IH Hrest). reflexivity.
Qed.

Lemma split_without_separator sep s :
  PyStr.mem sep s = false -> PyStr.split sep s = [s].
Proof.
  induction s as [|c rest IH]; simpl; intros H; [reflexivity|].
  apply orb_false_iff in H. destruct H as [Hc Hrest].
  now rewrite Hc, (IH Hrest).
Qed.

Lemma four_digits y :
  0 <= y <= 9999 ->
  10 * (10 * (10 * (10 * 0 + (y / 1000) mod 10) + (y / 100) mod 10)
        + (y / 10) mod 10) + y mod 10 = y.
Proof.
  intros Hy.
  replace (y / 100) with (y / 10 / 10) by (rewrite Z.div_div by lia; reflexivity).
  replace (y / 1000) with (y / 10 / 10 / 10)
    by (rewrite !Z.div_div by lia; reflexivity).
  pose proof (Z.div_mod y 10 ltac:(lia)) as E1.
  pose proof (Z.mod_pos_bound y 10 ltac:(lia)) as B1.
  set (q1 := y / 10) in *.
  pose proof (Z.div_mod q1 10 ltac:(lia)) as E2.
  pose proof (Z.mod_pos_bound q1 10 ltac:(lia)) as B2.
  set (q2 := q1 / 10) in *.
  pose proof (Z.div_mod q2 10 ltac:(lia)) as E3.
  pose proof (Z.mod_pos_bound q2 10 ltac:(lia)) as B3.
  set (q3 := q2 / 10) in *.
  assert (H3 : 0 <= q3 < 10) by lia.
  rewrite (Z.mod_small q3 10 H3). lia.
Qed.

Lemma py_int_pad4 y : 0 <= y <= 9999 -> PyInt.py_int (pad4 y) = Some y.
Proof.
  intros Hy. unfold PyInt.py_int, pad4, pad3, pad2.
  destruct (digit_facts (y / 1000)) as (D1 & V1 & S1 & M1 & P1).
  destruct (digit_facts (y / 100)) as (D2 & V2 & S2 & M2 & P2).
  destruct (digit_facts (y / 10)) as (D3 & V3 & S3 & M3 & P3).
  destruct (digit_facts y) as (D4 & V4 & S4 & M4 & P4).
  cbn [PyInt.skip_leading PyInt.skip_trailing]. rewrite S1.
  cbn [PyInt.skip_trailing]. rewrite S1, S2, S3, S4. cbn [andb].
  rewrite M1, P1. cbn [PyInt.digits].
  rewrite D1, D2, D3, D4, V1, V2, V3, V4.
  assert (Hlimit : (PyInt.int_max_str_digits <? 4)%nat = false)
    by (vm_compute; reflexivity).
  rewrite Hlimit, Z.mul_1_l, four_digits by lia. reflexivity.
Qed.

Lemma two_digits m :
  0 <= m <= 99 -> 10 * (10 * 0 + (m / 10) mod 10) + m mod 10 = m.
Proof.
  intros Hm.
  pose proof (Z.div_mod m 10 ltac:(lia)) as E1.
  pose proof (Z.mod_pos_bound m 10 ltac:(lia)) as B1.
  set (q1 := m / 10) in *.
  assert (H1 : 0 <= q1 < 10) by lia.
  rewrite (Z.mod_small q1 10 H1). lia.
Qed.

Lemma py_int_pad2 m : 0 <= m <= 99 -> PyInt.py_int (pad2 m) = Some m.
Proof.
  intros Hm. unfold PyInt.py_int, pad2.
  destruct (digit_facts (m / 10)) as (D3 & V3 & S3 & M3 & P3).
  destruct (digit_facts m) as (D4 & V4 & S4 & M4 & P4).
  cbn [PyInt.skip_leading PyInt.skip_trailing]. rewrite S3.
  cbn [PyInt.skip_trailing]. rewrite S3, S4. cbn [andb].
  rewrite M3, P3. cbn [PyInt.digits].
  rewrite D3, D4, V3, V4.
  assert (Hlimit : (PyInt.int_max_str_digits <? 2)%nat = false)
    by (vm_compute; reflexivity).
  rewrite Hlimit, Z.mul_1_l, two_digits by lia. reflexivity.
Qed.

(** [int] skips a no-break space and rejects a separator that [str.strip]
    would remove. *)
Lemma py_int_spaces :
  PyInt.py_int (String (ascii_of_nat 160) "3") = Some 3
  /\ PyInt.py_int (String (ascii_of_nat 28) "3") = None
  /\ PyInt.strip (String (ascii_of_nat 28) "3") = "3"%string.
Proof. repeat split; reflexivity. Qed.

(** The text [YYYY-MM] of a year and a month. *)
Definition month_text (y m : Z) : string :=
  (pad4 y ++ "-" ++ pad2 m)%string.

Lemma split_month_text y m :
  PyStr.split "-" (month_text y m) = [pad4 y; pad2 m].
Proof.
  unfold month_text.
  destruct (digit_facts (y / 1000)) as (_ & _ & _ & M1 & _).
  destruct (digit_facts (y / 100)) as (_ & _ & _ & M2 & _).
  destruct (digit_facts (y / 10)) as (_ & _ & _ & M3 & _).
  destruct (digit_facts y) as (_ & _ & _ & M4 & _).
  destruct (digit_facts (m / 10)) as (_ & _ & _ & M5 & _).
  destruct (digit_facts m) as (_ & _ & _ & M6 & _).
  change ("-" ++ pad2 m)%string with (String "-"%char (pad2 m)).
  rewrite split_at_separator.
  - rewrite split_without_separator; [reflexivity|].
    unfold pad2. cbn [PyStr.mem]. now rewrite M5, M6.
  - unfold pad4, pad3, pad2. cbn [PyStr.mem]. now rewrite M1, M2, M3, M4.
Qed.

Lemma month_start_of_text now y m :
  1 <= y <= 9999 -> 1 <= m <= 12 ->
  month_start now (Some (month_text y m)) = Ret (first_of y m).
Proof.
  intros Hy Hm. unfold month_start.
  change (PyStr.is_empty (month_text y m)) with false. cbv iota.
  unfold parse_month. rewrite split_month_text.
  rewrite py_int_pad4, py_int_pad2 by lia.
  rewrite utc_date_first by lia. reflexivity.
Qed.

(** ** The window resolver *)

Module WindowExamples.

(** 15 March 2024, 12:30:45.000123 UTC. *)
Definition mid_march : datetime :=
  {| year := 2024; month := 3; day := 15;
     hour := 12; minute := 30; second := 45; microsecond := 123;
     utcoffset := Some 0 |}.

Lemma mid_march_valid : valid_utc mid_march.
Proof. unfold valid_utc. vm_compute. repeat split; discriminate. Qed.

End WindowExamples.




(** The two integers of a month specifier, as the script reads them. *)
Definition month_fields (text : string) : option (Z * Z) :=
  match PyStr.split "-" text with
  | [y; m] =>
      match PyInt.py_int y, PyInt.py_int m with
      | Some yv, Some mv => Some (yv, mv)
      | _, _ => None
      end
  | _ => None
  end.

Lemma parse_month_fields text :
  parse_month text =
  match month_fields text with
  | Some (y, m) => utc_date y m 1
  | None =>
      match PyStr.split "-" text with
      | [y; m] => Raise (ValueError "invalid literal for int()")
      | _ => Raise (ValueError "wrong number of values to unpack")
      end
  end.
Proof.
  unfold parse_month, month_fields.
  destruct (PyStr.split "-" text) as [|y [|m [|? ?]]]; try reflexivity.
  destruct (PyInt.py_int y); [|reflexivity].
  destruct (PyInt.py_int m); reflexivity.
Qed.






Lemma month_fields_not_empty text fields :
  month_fields text = Some fields -> PyStr.is_empty text = false.
Proof. destruct text; [discriminate|reflexivity]. Qed.

Lemma month_start_fields now text y m :
  month_fields text = Some (y, m) ->
  month_start now (Some text) =
  try_except (utc_date y m 1) reraise_invalid_month.
Proof.
  intros Hf. unfold month_start.
  rewrite (month_fields_not_empty _ _ Hf).
  now rewrite parse_month_fields, Hf.
Qed.


(** The window of a month that is read from two integers. *)
Lemma month_range_of_month now text y m :
  month_fields text = Some (y, m) ->
  1 <= y <= 9999 -> 1 <= m <= 12 -> y < 9999 \/ m < 12 ->
  month_range now (Some text)
  = Ret (strftime_iso_z (first_of y m),
         strftime_iso_z (dt_min now (last_second y m)),
         strftime_month (first_of y m)).
Proof.
  intros Hf Hy Hm Hlast. unfold month_range.
  rewrite (month_window_of_start now (Some text) y m Hy Hm Hlast);
    [reflexivity|].
  rewrite (month_start_fields now text y m Hf), (utc_date_first _ _ Hy Hm).
  reflexivity.
Qed.



Lemma instant_first y m : instant (first_of y m) = ymd2ord y m 1 * US_PER_DAY.
Proof. unfold instant. rewrite wall_micros_first. simpl. lia. Qed.

Lemma instant_last y m :
  instant (last_second y m)
  = ymd2ord y m (days_in_month y m) * US_PER_DAY + 86399 * US_PER_SECOND.
Proof. unfold instant. rewrite wall_micros_last. simpl. lia. Qed.

Lemma instant_valid now :
  valid_utc now ->
  exists secs,
    instant now
    = (ymd2ord (year now) (month now) (day now) * 86400 + secs) * 1000000
      + microsecond now
    /\ secs = hour now * 3600 + minute now * 60 + second now
    /\ 0 <= secs < 86400 /\ 0 <= microsecond now < 1000000.
Proof.
  intros (Hy & Hm & Hd & Hh & Hmi & Hs & Hus & Hoff).
  exists (hour now * 3600 + minute now * 60 + second now).
  unfold instant, wall_micros, US_PER_SECOND in *. rewrite Hoff.
  repeat split; lia.
Qed.

Lemma first_before_last y m :
  1 <= m <= 12 -> instant (first_of y m) <= instant (last_second y m).
Proof.
  intros Hm. rewrite instant_first, instant_last.
  pose proof (days_in_month_range y m Hm).
  unfold ymd2ord, US_PER_DAY, US_PER_SECOND. lia.
Qed.

(** While the month after [(y, m)] has not begun, the end of the window
    reads as [now] does. *)
Lemma clamped_end_text now y m :
  valid_utc now -> 1 <= y <= 9999 -> 1 <= m <= 12 ->
  instant now < (ymd2ord y m (days_in_month y m) + 1) * US_PER_DAY ->
  strftime_iso_z (dt_min now (last_second y m)) = strftime_iso_z now.
Proof.
  intros Hnow Hy Hm Hbefore. unfold dt_min.
  destruct (Z.ltb_spec (instant (last_second y m)) (instant now)) as [Hlt|Hge];
    [|reflexivity].
  rewrite instant_last in Hlt.
  destruct (instant_valid now Hnow) as (secs & Hi & Hsecs & Hrange & Hus).
  destruct Hnow as (Hny & Hnm & Hnd & Hh & Hmi & Hs & _ & _).
  unfold MINYEAR, MAXYEAR in Hny.
  pose proof (days_in_month_range y m Hm) as Hdim.
  unfold US_PER_DAY, US_PER_SECOND in *.
  set (L := ymd2ord y m (days_in_month y m)) in *.
  set (N := ymd2ord (year now) (month now) (day now)) in *.
  assert (HN : N = L) by lia.
  assert (Hsec : secs = 86399) by lia.
  assert (Hdate : (year now, month now, day now) = (y, m, days_in_month y m)).
  { rewrite <- (ord2ymd_ymd2ord (year now) (month now) (day now)) by lia.
    rewrite <- (ord2ymd_ymd2ord y m (days_in_month y m)) by lia.
    fold N L. now rewrite HN. }
  injection Hdate as Ey Em Ed.
  assert (hour now = 23 /\ minute now = 59 /\ second now = 59)
    as (Eh & Emi & Es) by lia.
  unfold strftime_iso_z, last_second.
  cbn [year month day hour minute second].
  now rewrite Ey, Em, Ed, Eh, Emi, Es.
Qed.

(** C4 as the specification words it. *)
Definition window_always_ordered : Prop :=
  forall now month_value start end_,
    valid_utc now ->
    month_window now month_value = Ret (start, end_) ->
    instant start <= instant end_.

(** C4, counterexample: for a month after the current one the window ends
    at [now], before it starts. *)
Lemma C4_future_month_unordered : ~ window_always_ordered.
Proof.
  intros claim.
  specialize (claim WindowExamples.mid_march (Some "2025-01"%string)
                (first_of 2025 1) WindowExamples.mid_march
                WindowExamples.mid_march_valid eq_refl).
  vm_compute in claim. apply claim. reflexivity.
Qed.

(** C4, amended: every resolved window starts at the first instant of a
    month, and its end is the earlier of [now] and the last second of that
    month: the last second when it is before [now], and [now] otherwise.
    The start is not after the end when the month has begun; for a month
    that has not begun the end is [now], before the start.  While the
    following month has not begun, the end reads as [now] does. *)
Theorem C4_window_end_clamped :
  forall now month_value start end_,
    valid_utc now ->
    month_window now month_value = Ret (start, end_) ->
    exists y m,
      1 <= y <= 9999 /\ 1 <= m <= 12
      /\ start = first_of y m
      /\ (instant (last_second y m) < instant now -> end_ = last_second y m)
      /\ (instant now <= instant (last_second y m) -> end_ = now)
      /\ instant end_ = Z.min (instant now) (instant (last_second y m))
      /\ (instant start <= instant now ->
          instant start <= instant end_ /\ instant end_ <= instant now)
      /\ (instant now < instant start ->
          end_ = now /\ instant end_ < instant start)
      /\ (forall next,
             next_month_of start = Ret next ->
             instant now < instant next ->
             strftime_iso_z end_ = strftime_iso_z now).
Proof.
  intros now mv start end_ Hnow Hw.
  destruct (month_window_inv now mv start end_ Hnow Hw)
    as (y & m & Hy & Hm & Hlast & -> & ->).
  pose proof (first_before_last y m Hm) as Hfl.
  exists y, m.
  split; [exact Hy|]. split; [exact Hm|]. split; [reflexivity|].
  unfold dt_min.
  destruct (Z.ltb_spec (instant (last_second y m)) (instant now))
    as [Hlt|Hge].
  - split; [reflexivity|]. split; [lia|]. split; [lia|].
    split; [lia|]. split; [lia|].
    intros next Hnext Hbefore.
    rewrite (next_month_of_first y m Hy Hm Hlast) in Hnext.
    injection Hnext as <-.
    rewrite instant_first, ymd2ord_following in Hbefore by lia.
    pose proof (clamped_end_text now y m Hnow Hy Hm Hbefore) as Hc.
    unfold dt_min in Hc. apply Z.ltb_lt in Hlt. now rewrite Hlt in Hc.
  - split; [lia|]. split; [reflexivity|]. split; [lia|].
    split; [lia|]. split; [intros Hfuture; split; [reflexivity|lia]|].
    reflexivity.
Qed.

Lemma C4_window_end_clamped_witness :
  exists y m,
    1 <= y <= 9999 /\ 1 <= m <= 12
    /\ first_of 2024 2 = first_of y m
    /\ (instant (last_second y m) < instant WindowExamples.mid_march ->
        last_second 2024 2 = last_second y m)
    /\ (instant WindowExamples.mid_march <= instant (last_second y m) ->
        last_second 2024 2 = WindowExamples.mid_march)
    /\ instant (last_second 2024 2)
       = Z.min (instant WindowExamples.mid_march) (instant (last_second y m))
    /\ (instant (first_of 2024 2) <= instant WindowExamples.mid_march ->
        instant (first_of 2024 2) <= instant (last_second 2024 2)
        /\ instant (last_second 2024 2) <= instant WindowExamples.mid_march)
    /\ (instant WindowExamples.mid_march < instant (first_of 2024 2) ->
        last_second 2024 2 = WindowExamples.mid_march
        /\ instant (last_second 2024 2) < instant (first_of 2024 2))
    /\ (forall next,
           next_month_of (first_of 2024 2) = Ret next ->
           instant WindowExamples.mid_march < instant next ->
           strftime_iso_z (last_second 2024 2)
           = strftime_iso_z WindowExamples.mid_march).
Proof.
  apply (C4_window_end_clamped WindowExamples.mid_march
           (Some "2024-02"%string) (first_of 2024 2) (last_second 2024 2)
           WindowExamples.mid_march_valid).
  vm_compute. reflexivity.
Defined.

(** The month as the window prints it. *)
Definition printed_month (y m : Z) : string :=
  (year_text y ++ "-" ++ pad2 m)%string.

(** The first instant of a month, as the window prints it. *)
Definition first_instant_text (y m : Z) : string :=
  (year_text y ++ "-" ++ pad2 m ++ "-01T00:00:00Z")%string.

(** The last second of a month, as the window prints it. *)
Definition last_instant_text (y m : Z) : string :=
  (year_text y ++ "-" ++ pad2 m ++ "-" ++ pad2 (days_in_month y m)
   ++ "T23:59:59Z")%string.

Lemma strftime_first y m :
  strftime_iso_z (first_of y m) = first_instant_text y m.
Proof. reflexivity. Qed.

Lemma strftime_last y m :
  strftime_iso_z (last_second y m) = last_instant_text y m.
Proof. reflexivity. Qed.

Lemma strftime_month_first y m :
  strftime_month (first_of y m) = printed_month y m.
Proof. reflexivity. Qed.

(** From the year 1000 on the year is printed with its four digits, and a
    month is printed as its specifier is written. *)
Lemma year_text_four_digits y : 1000 <= y -> year_text y = pad4 y.
Proof.
  intros Hy. unfold year_text.
  destruct (Z.ltb_spec y 10); [lia|].
  destruct (Z.ltb_spec y 100); [lia|].
  destruct (Z.ltb_spec y 1000); [lia|reflexivity].
Qed.

Lemma printed_month_text y m :
  1000 <= y ->
  printed_month y m = month_text y m
  /\ first_instant_text y m = (month_text y m ++ "-01T00:00:00Z")%string
  /\ last_instant_text y m
     = (month_text y m ++ "-" ++ pad2 (days_in_month y m)
        ++ "T23:59:59Z")%string.
Proof.
  intros Hy.
  unfold printed_month, first_instant_text, last_instant_text, month_text.
  rewrite (year_text_four_digits y Hy). repeat split; reflexivity.
Qed.

Lemma month_range_of_text now y m :
  1 <= y <= 9999 -> 1 <= m <= 12 -> (y < 9999 \/ m < 12) ->
  month_range now (Some (month_text y m))
  = Ret (first_instant_text y m,
         strftime_iso_z (dt_min now (last_second y m)),
         printed_month y m).
Proof.
  intros Hy Hm Hlast. unfold month_range.
  rewrite (month_window_of_start now _ y m Hy Hm Hlast
             (month_start_of_text now y m Hy Hm)).
  reflexivity.
Qed.

(** The last second of a month that is over is before [now]. *)
Lemma past_month_over now y m :
  valid_utc now -> 1 <= y <= 9999 -> 1 <= m <= 12 ->
  y < year now \/ (y = year now /\ m < month now) ->
  instant (last_second y m) < instant now.
Proof.
  intros Hnow Hy Hm Hpast.
  destruct (instant_valid now Hnow) as (secs & Hi & Hsecs & Hrange & Hus).
  pose proof Hnow as (Hny & Hnm & Hnd & _).
  unfold MINYEAR, MAXYEAR in Hny.
  rewrite instant_last.
  pose proof (ymd2ord_following y m ltac:(lia) Hm) as Hf.
  pose proof (following_range y m ltac:(lia) Hm) as (Hfy & Hfm).
  assert (Hlex : fst (following y m) < year now
                 \/ (fst (following y m) = year now
                     /\ snd (following y m) <= month now)).
  { unfold following. destruct (Z.eqb_spec m 12); simpl; lia. }
  pose proof (ymd2ord_lex_mono _ _ _ _ Hfy Hfm Hnm Hlex) as Hmono.
  assert (ymd2ord (year now) (month now) 1
          <= ymd2ord (year now) (month now) (day now))
    by (unfold ymd2ord; lia).
  unfold US_PER_DAY, US_PER_SECOND. lia.
Qed.

(** In the current month [now] is before the first instant of the
    following month. *)
Lemma current_month_running now :
  valid_utc now ->
  instant now
  < (ymd2ord (year now) (month now)
       (days_in_month (year now) (month now)) + 1) * US_PER_DAY.
Proof.
  intros Hnow.
  destruct (instant_valid now Hnow) as (secs & Hi & Hsecs & Hrange & Hus).
  pose proof Hnow as (Hny & Hnm & Hnd & _).
  unfold US_PER_DAY, US_PER_SECOND.
  assert (ymd2ord (year now) (month now) (day now)
          <= ymd2ord (year now) (month now)
               (days_in_month (year now) (month now)))
    by (unfold ymd2ord; lia).
  lia.
Qed.

(** C5: for a month specifier YYYY-MM, year 0001 to 9999 and month 01 to
    12, and a clock before December 9999.  When the month is before the
    current month, the window starts at the first instant of the month and
    ends at its last second, 23:59:59 of its last day.  When the month is
    the current month, the window starts at the first instant of the month
    and its end is [now]: it is printed as [now] is, and is [now] itself
    but in the last second of the month, where it is the start of that
    second.  From the year 1000 on, the texts returned carry the month as
    the specifier writes it. *)
Theorem C5_month_window :
  forall now y m,
    valid_utc now -> year now < 9999 \/ month now < 12 ->
    1 <= y <= 9999 -> 1 <= m <= 12 ->
    (y < year now \/ (y = year now /\ m < month now) ->
     month_window now (Some (month_text y m))
     = Ret (first_of y m, last_second y m)
     /\ month_range now (Some (month_text y m))
        = Ret (first_instant_text y m, last_instant_text y m,
               printed_month y m))
    /\ (y = year now /\ m = month now ->
        exists end_,
          month_window now (Some (month_text y m)) = Ret (first_of y m, end_)
          /\ (instant now <= instant (last_second y m) -> end_ = now)
          /\ instant end_ <= instant now < instant end_ + US_PER_SECOND
          /\ month_range now (Some (month_text y m))
             = Ret (first_instant_text y m, strftime_iso_z now,
                    printed_month y m))
    /\ (1000 <= y ->
        printed_month y m = month_text y m
        /\ first_instant_text y m
           = (month_text y m ++ "-01T00:00:00Z")%string
        /\ last_instant_text y m
           = (month_text y m ++ "-" ++ pad2 (days_in_month y m)
              ++ "T23:59:59Z")%string).
Proof.
  intros now y m Hnow Hclock Hy Hm.
  pose proof Hnow as (Hny & Hnm & Hnd & _).
  unfold MINYEAR, MAXYEAR in Hny.
  split; [|split; [|exact (printed_month_text y m)]].
  - intros Hpast.
    assert (Hlast : y < 9999 \/ m < 12) by lia.
    pose proof (past_month_over now y m Hnow Hy Hm Hpast) as Hlt.
    assert (Hmin : dt_min now (last_second y m) = last_second y m).
    { unfold dt_min. apply Z.ltb_lt in Hlt. now rewrite Hlt. }
    split.
    + rewrite (month_window_of_start now _ y m Hy Hm Hlast
                 (month_start_of_text now y m Hy Hm)).
      now rewrite Hmin.
    + rewrite (month_range_of_text now y m Hy Hm Hlast), Hmin.
      now rewrite strftime_last.
  - intros [-> ->].
    pose proof (current_month_running now Hnow) as Hrun.
    exists (dt_min now (last_second (year now) (month now))).
    split; [exact (month_window_of_start now _ _ _ Hy Hm Hclock
                     (month_start_of_text now _ _ Hy Hm))|].
    split; [|split].
    + intros Hle. unfold dt_min.
      destruct (Z.ltb_spec (instant (last_second (year now) (month now)))
                  (instant now)); [lia|reflexivity].
    + unfold dt_min.
      destruct (Z.ltb_spec (instant (last_second (year now) (month now)))
                  (instant now)) as [Hlt|Hge].
      * rewrite instant_last in *. unfold US_PER_DAY, US_PER_SECOND in *. lia.
      * unfold US_PER_SECOND. lia.
    + rewrite (month_range_of_text now _ _ Hy Hm Hclock).
      now rewrite (clamped_end_text now _ _ Hnow Hy Hm Hrun).
Qed.

Lemma C5_month_window_witness :
  (month_window WindowExamples.mid_march (Some "2024-02"%string)
   = Ret (first_of 2024 2, last_second 2024 2)
   /\ month_range WindowExamples.mid_march (Some "2024-02"%string)
      = Ret ("2024-02-01T00:00:00Z", "2024-02-29T23:59:59Z",
             "2024-02")%string)
  /\ exists end_,
       month_window WindowExamples.mid_march (Some "2024-03"%string)
       = Ret (first_of 2024 3, end_)
       /\ (instant WindowExamples.mid_march <= instant (last_second 2024 3) ->
           end_ = WindowExamples.mid_march)
       /\ instant end_ <= instant WindowExamples.mid_march
          < instant end_ + US_PER_SECOND
       /\ month_range WindowExamples.mid_march (Some "2024-03"%string)
          = Ret ("2024-03-01T00:00:00Z", "2024-03-15T12:30:45Z",
                 "2024-03")%string.
Proof.
  split.
  - apply (proj1 (C5_month_window WindowExamples.mid_march 2024 2
                    WindowExamples.mid_march_valid
                    ltac:(left; vm_compute; reflexivity)
                    ltac:(lia) ltac:(lia))).
    right. split; [reflexivity | vm_compute; reflexivity].
  - apply (proj1 (proj2 (C5_month_window WindowExamples.mid_march 2024 3
                           WindowExamples.mid_march_valid
                           ltac:(left; vm_compute; reflexivity)
                           ltac:(lia) ltac:(lia)))).
    split; reflexivity.
Defined.

(** ** Event times *)

Lemma endswith_append c s :
  PyStr.endswith c (s ++ String c EmptyString) = true.
Proof.
  induction s as [|a rest IH]; simpl.
  - apply Ascii.eqb_refl.
  - destruct (rest ++ String c EmptyString)%string eqn:E; [|exact IH].
    destruct rest; discriminate.
Qed.

Lemma drop_last_append c s :
  PyStr.drop_last (s ++ String c EmptyString) = s.
Proof.
  induction s as [|a rest IH]; simpl; [reflexivity|].
  destruct (rest ++ String c EmptyString)%string eqn:E.
  - destruct rest; discriminate.
  - now rewrite IH.
Qed.

Lemma mem_append c s t :
  PyStr.mem c (s ++ t) = PyStr.mem c s || PyStr.mem c t.
Proof.
  induction s as [|a rest IH]; simpl; [reflexivity|].
  now rewrite IH, orb_assoc.
Qed.

Lemma split1_at_separator c s t :
  PyStr.mem c s = false -> PyStr.split1 c (s ++ String c t) = (s, t).
Proof.
  induction s as [|a rest IH]; simpl; intros H.
  - now rewrite Ascii.eqb_refl.
  - apply orb_false_iff in H. destruct H as [Ha Hrest].
    now rewrite Ha, (IH Hrest).
Qed.

Lemma take_length n s :
  String.length (PyStr.take n s) = Nat.min n (String.length s).
Proof.
  revert s. induction n as [|n IH]; intros s; [reflexivity|].
  destruct s as [|a rest]; simpl; [reflexivity|]. now rewrite IH.
Qed.

Lemma append_length s t :
  String.length (s ++ t) = (String.length s + String.length t)%nat.
Proof. induction s as [|a rest IH]; simpl; [reflexivity|]. now rewrite IH. Qed.

Lemma append_assoc (s t u : string) :
  ((s ++ t) ++ u = s ++ (t ++ u))%string.
Proof. induction s as [|a rest IH]; simpl; [reflexivity|]. now rewrite IH. Qed.

Lemma take_append_long n s t :
  (n <= String.length s)%nat -> PyStr.take n (s ++ t) = PyStr.take n s.
Proof.
  revert s. induction n as [|n IH]; intros s H; [reflexivity|].
  destruct s as [|a rest]; simpl in *; [lia|].
  rewrite IH by lia. reflexivity.
Qed.

Lemma take_append_short n s t :
  (String.length s <= n)%nat ->
  PyStr.take n (s ++ t) = (s ++ PyStr.take (n - String.length s) t)%string.
Proof.
  revert n. induction s as [|a rest IH]; intros n H; simpl.
  - now rewrite Nat.sub_0_r.
  - destruct n as [|n]; simpl in *; [lia|]. rewrite IH by lia. reflexivity.
Qed.

(** The fraction after normalisation: six characters. *)
Definition six_digits (frac : string) : string :=
  PyStr.take 6 (frac ++ "000000").

Lemma six_digits_length frac : String.length (six_digits frac) = 6%nat.
Proof.
  unfold six_digits. rewrite take_length, append_length.
  change (String.length "000000") with 6%nat. lia.
Qed.

Lemma normalize_zulu_fraction base frac :
  PyStr.mem "." base = false ->
  PyStr.mem "+" frac = false ->
  normalize_iso_datetime (base ++ "." ++ frac ++ "Z")
  = (base ++ "." ++ six_digits frac ++ "+00:00")%string.
Proof.
  intros Hbase Hfrac. unfold normalize_iso_datetime.
  replace (base ++ "." ++ frac ++ "Z")%string
    with ((base ++ "." ++ frac) ++ String "Z" EmptyString)%string.
  2:{ rewrite !append_assoc. reflexivity. }
  rewrite endswith_append, drop_last_append.
  replace ((base ++ "." ++ frac) ++ "+00:00")%string
    with (base ++ String "." (frac ++ String "+" "00:00"))%string.
  2:{ rewrite !append_assoc. reflexivity. }
  rewrite mem_append. simpl PyStr.mem at 2. rewrite orb_true_r. cbn [negb].
  rewrite (split1_at_separator "." base _ Hbase).
  rewrite mem_append. simpl PyStr.mem at 2. rewrite orb_true_r.
  rewrite (split1_at_separator "+" frac _ Hfrac).
  reflexivity.
Qed.

Module EventExamples.

(** The time part [{dateTime: 2024-03-01T10:00:00.1234567Z}]. *)
Definition zulu_part : json :=
  JObj [("dateTime", JStr "2024-03-01T10:00:00.1234567Z")].

(** The instant 2024-03-01T10:00:00.123456Z. *)
Definition zulu_instant : datetime :=
  {| year := 2024; month := 3; day := 1;
     hour := 10; minute := 0; second := 0; microsecond := 123456;
     utcoffset := Some 0 |}.

(** A zone database that knows no zone. *)
Definition no_zones (name : string) : option tzinfo := None.

End EventExamples.

(** C6: the time part with seven fraction digits and a Z suffix is read as
    the instant 2024-03-01T10:00:00.123456Z in the output zone UTC, given
    that the library reads the canonical text so; and in general a text
    [base.fracZ] is handed to the parser as [base.FFFFFF+00:00], where the
    six characters [FFFFFF] are the fraction cut after six characters or
    filled up with zeros. *)
Theorem C6_fraction_and_suffix_normalised :
  (forall (pytz_timezone : string -> option tzinfo)
          (fromisoformat : string -> option datetime),
      fromisoformat "2024-03-01T10:00:00.123456+00:00"
      = Some EventExamples.zulu_instant ->
      parse_event_time pytz_timezone fromisoformat
        EventExamples.zulu_part utc_zone
      = Ret (Some EventExamples.zulu_instant))
  /\
  (forall base frac,
      PyStr.mem "." base = false ->
      PyStr.mem "+" frac = false ->
      normalize_iso_datetime (base ++ "." ++ frac ++ "Z")
      = (base ++ "." ++ six_digits frac ++ "+00:00")%string
      /\ String.length (six_digits frac) = 6%nat
      /\ ((6 <= String.length frac)%nat -> six_digits frac = PyStr.take 6 frac)
      /\ ((String.length frac <= 6)%nat ->
          six_digits frac
          = (frac ++ PyStr.take (6 - String.length frac) "000000")%string)).
Proof.
  split.
  - intros pytz_timezone fromisoformat Hlib.
    assert (Hn : normalize_iso_datetime "2024-03-01T10:00:00.1234567Z"
                 = "2024-03-01T10:00:00.123456+00:00"%string)
      by (vm_compute; reflexivity).
    unfold parse_event_time, EventExamples.zulu_part.
    cbn [truthy negb obj_get bind dict_get lookup String.eqb Ascii.eqb
         Bool.eqb PyStr.is_empty].
    rewrite Hn, Hlib. reflexivity.
  - intros base frac Hbase Hfrac. repeat split.
    + exact (normalize_zulu_fraction base frac Hbase Hfrac).
    + exact (six_digits_length frac).
    + intros H. unfold six_digits. now apply take_append_long.
    + intros H. unfold six_digits. now apply take_append_short.
Qed.

Lemma C6_fraction_and_suffix_normalised_witness :
  parse_event_time EventExamples.no_zones IsoText.fromisoformat_basic
    EventExamples.zulu_part utc_zone
  = Ret (Some EventExamples.zulu_instant)
  /\ normalize_iso_datetime "2024-03-01T10:00:00.5Z"
     = "2024-03-01T10:00:00.500000+00:00"%string.
Proof.
  split.
  - apply (proj1 C6_fraction_and_suffix_normalised).
    vm_compute. reflexivity.
  - apply (proj2 C6_fraction_and_suffix_normalised
             "2024-03-01T10:00:00"%string "5"%string);
      vm_compute; reflexivity.
Defined.

(** ** Pagination *)

Definition page_request (headers : list (string * string)) (url : string)
  : request :=
  {| req_url := url; req_headers := headers; req_filter := None |}.

Module PageExamples.

Definition first_url : string := "https://graph.microsoft.com/v1.0/me/events".
Definition second_url : string := "https://graph.microsoft.com/v1.0/me/events?page=2".

Definition first_items : list json :=
  [ JObj [("subject", JStr "Standup")]; JObj [("subject", JStr "Review")] ].

Definition first_body : json :=
  JObj [ ("value", JArr first_items); ("@odata.nextLink", JStr second_url) ].

(** Page 1 answers 200 with a continuation link; every other request is
    answered 503. *)
Definition second_page_down (req : request) : result response :=
  if String.eqb (req_url req) first_url
  then Ret {| status_code := 200; text := JsonText.json_dumps first_body |}
  else Ret {| status_code := 503; text := "Service Unavailable" |}.

End PageExamples.

(** C7: when page 1 answers 200 with items and a continuation link and
    page 2 answers with another status, [fetch_events] returns exactly the
    items of page 1, and does not raise. *)
Theorem C7_failed_page_keeps_earlier_pages :
  forall json_loads http_get headers fuel url1 url2 page1 page2 fields items,
    PyStr.is_empty url1 = false ->
    http_get (page_request headers url1) = Ret page1 ->
    status_code page1 = 200 ->
    json_loads (text page1) = Some (JObj fields) ->
    dict_get_default fields "value" (JArr []) = JArr items ->
    dict_get fields "@odata.nextLink" = JStr url2 ->
    PyStr.is_empty url2 = false ->
    http_get (page_request headers url2) = Ret page2 ->
    status_code page2 <> 200 ->
    fetch_events json_loads http_get headers (2 + fuel) url1
    = Some (Ret items).
Proof.
  intros json_loads http_get headers fuel url1 url2 page1 page2 fields items
         Hurl1 Hget1 Hok Hjson Hvalue Hnext Hurl2 Hget2 Hfail.
  unfold fetch_events, page_request in *.
  change (2 + fuel)%nat with (S (S fuel)).
  cbn [fetch_events_loop truthy negb get_url]. rewrite Hurl1. cbn [negb].
  rewrite Hget1, Hok. cbn [Z.eqb Pos.eqb].
  unfold response_json. rewrite Hjson.
  cbn [obj_get_default obj_get]. rewrite Hvalue, Hnext.
  cbn [PyCmp.py_iter app fetch_events_loop truthy get_url].
  rewrite Hurl2. cbn [negb]. rewrite Hget2.
  apply Z.eqb_neq in Hfail. rewrite Hfail. reflexivity.
Qed.

Lemma C7_failed_page_keeps_earlier_pages_witness :
  fetch_events JsonText.json_loads_lite PageExamples.second_page_down []
    2 PageExamples.first_url
  = Some (Ret PageExamples.first_items).
Proof.
  apply (C7_failed_page_keeps_earlier_pages
           JsonText.json_loads_lite PageExamples.second_page_down [] 0%nat
           PageExamples.first_url PageExamples.second_url
           {| status_code := 200;
              text := JsonText.json_dumps PageExamples.first_body |}
           {| status_code := 503; text := "Service Unavailable" |}
           [ ("value", JArr PageExamples.first_items);
             ("@odata.nextLink", JStr PageExamples.second_url) ]
           PageExamples.first_items);
    try (vm_compute; reflexivity).
  vm_compute. discriminate.
Defined.

(** ** The attendance chain *)

Definition meetings_request (headers : list (string * string)) (join : string)
  : request :=
  {| req_url := MEETINGS_URL; req_headers := headers;
     req_filter := Some (join_filter join) |}.

Section AttendanceChain.

Variable json_loads : string -> option json.
Variable http_get : request -> result response.
Variable py_str : json -> string.
Variable headers : list (string * string).

(** The request is answered with a status other than 200. *)
Definition answered_failure (req : request) : Prop :=
  exists resp, http_get req = Ret resp /\ status_code resp <> 200.

(** The request is answered 200 with a JSON object whose [value] (or the
    default, an empty list) is [value]. *)
Definition answered_value (req : request) (value : json) : Prop :=
  exists resp fields,
    http_get req = Ret resp /\ status_code resp = 200
    /\ json_loads (text resp) = Some (JObj fields)
    /\ dict_get_default fields "value" (JArr []) = value.

(** The first request finds a meeting with the identifier [meeting_id]. *)
Definition meeting_found (join : string) (meeting_id : json) : Prop :=
  exists first rest,
    answered_value (meetings_request headers join) (JArr (JObj first :: rest))
    /\ dict_get first "id" = meeting_id /\ truthy meeting_id = true.

(** The second request lists reports, and the one sorted last has the
    identifier [report_id]. *)
Definition report_found (meeting_id report_id : json) : Prop :=
  exists reports earlier latest,
    answered_value (page_request headers (reports_url py_str meeting_id))
                   (JArr reports)
    /\ reports <> []
    /\ sort_reports (JArr reports) = Ret (earlier ++ [JObj latest])
    /\ dict_get latest "id" = report_id /\ truthy report_id = true.

Let lookup := attendance_lookup json_loads http_get py_str headers.
Let reports_stage := attendance_reports json_loads http_get py_str headers.
Let records_stage := attendance_records json_loads http_get py_str headers.
Let fetch := fetch_attendance json_loads http_get py_str headers.

Lemma lookup_after_value join value :
  answered_value (meetings_request headers join) value ->
  lookup (JStr join) =
  if negb (truthy value) then Ret None
  else (first <- first_item value ;;
        meeting_id <- obj_get first "id" ;;
        if negb (truthy meeting_id) then Ret None
        else reports_stage meeting_id)%py.
Proof.
  intros (resp & fields & Hget & Hok & Hjson & Hvalue).
  unfold lookup, attendance_lookup, meetings_request in *.
  rewrite Hget. cbn [bind]. rewrite Hok. cbn [Z.eqb Pos.eqb negb].
  unfold response_json. rewrite Hjson. cbn [bind obj_get_default].
  rewrite Hvalue. reflexivity.
Qed.

Lemma lookup_meeting_found join meeting_id :
  meeting_found join meeting_id ->
  lookup (JStr join) = reports_stage meeting_id.
Proof.
  intros (first & rest & Hvalue & Hid & Htruthy).
  rewrite (lookup_after_value _ _ Hvalue).
  cbn [truthy negb first_item bind obj_get]. rewrite Hid, Htruthy.
  reflexivity.
Qed.

Lemma reports_after_value meeting_id value :
  answered_value (page_request headers (reports_url py_str meeting_id)) value ->
  reports_stage meeting_id =
  if negb (truthy value) then Ret None
  else (sorted <- sort_reports value ;;
        latest <- match rev sorted with
                  | r :: _ => Ret r
                  | [] => Raise IndexError
                  end ;;
        report_id <- obj_get latest "id" ;;
        if negb (truthy report_id) then Ret None
        else records_stage meeting_id report_id)%py.
Proof.
  intros (resp & fields & Hget & Hok & Hjson & Hvalue).
  unfold reports_stage, attendance_reports, page_request, get_url in *.
  rewrite Hget. cbn [bind]. rewrite Hok. cbn [Z.eqb Pos.eqb negb].
  unfold response_json. rewrite Hjson. cbn [bind obj_get_default].
  rewrite Hvalue. reflexivity.
Qed.

Lemma reports_report_found meeting_id report_id :
  report_found meeting_id report_id ->
  reports_stage meeting_id = records_stage meeting_id report_id.
Proof.
  intros (reports & earlier & latest & Hvalue & Hne & Hsort & Hid & Htruthy).
  rewrite (reports_after_value _ _ Hvalue).
  assert (Ht : truthy (JArr reports) = true)
    by (destruct reports; [contradiction | reflexivity]).
  rewrite Ht, Hsort. cbn [negb bind]. rewrite rev_app_distr.
  cbn [rev app bind obj_get]. rewrite Hid, Htruthy. reflexivity.
Qed.

Lemma fetch_none_of_lookup join :
  lookup (JStr join) = Ret None -> fetch (JStr join) = Ret None.
Proof.
  intros H. unfold fetch, fetch_attendance. fold lookup.
  destruct (negb (truthy (JStr join))); [reflexivity|].
  now rewrite H.
Qed.

Lemma fetch_never_raises join_url : exists r, fetch join_url = Ret r.
Proof.
  unfold fetch, fetch_attendance.
  destruct (negb (truthy join_url)); [now exists None|].
  destruct (attendance_lookup _ _ _ _ _) as [r|e]; simpl; eauto.
Qed.

End AttendanceChain.

Arguments answered_failure http_get req : assert.
Arguments answered_value json_loads http_get req value : assert.
Arguments meeting_found json_loads http_get headers join meeting_id : assert.
Arguments report_found json_loads http_get py_str headers meeting_id report_id
  : assert.

Module AttendanceExamples.

Definition join_link : string := "https://teams.example/l/meetup-join/1".

Definition text_only (v : json) : string := EmptyString.

Definition meetings_body : json :=
  JObj [("value", JArr [JObj [("id", JStr "m1")]])].

Definition early_report : dict :=
  [("id", JStr "r1"); ("createdDateTime", JStr "2024-03-01T09:00:00Z")].

Definition late_report : dict :=
  [("id", JStr "r2"); ("createdDateTime", JStr "2024-03-08T09:00:00Z")].

(** The later report is listed first. *)
Definition reports_body : json :=
  JObj [("value", JArr [JObj late_report; JObj early_report])].

Definition attendee (email : string) : json :=
  JObj [("identity", JObj [("user", JObj [("email", JStr email)])])].

(** Three records: one address twice and a record with no identity. *)
Definition records_body : json :=
  JObj [("value", JArr [ attendee "zoe@example.com";
                         JObj [("role", JStr "Presenter")];
                         attendee "adam@example.com";
                         attendee "zoe@example.com" ])].

Definition ok (body : json) : response :=
  {| status_code := 200; text := JsonText.json_dumps body |}.

Definition unavailable : response :=
  {| status_code := 503; text := "Service Unavailable" |}.

(** A service that knows one meeting with two reports; [records] is its
    answer for the records of the later report. *)
Definition service (records : response) (req : request) : result response :=
  if String.eqb (req_url req) MEETINGS_URL then Ret (ok meetings_body)
  else if String.eqb (req_url req)
            (MEETINGS_URL ++ "/m1/attendanceReports")
  then Ret (ok reports_body)
  else if String.eqb (req_url req)
            (MEETINGS_URL ++ "/m1/attendanceReports/r2/attendanceRecords")
  then Ret records
  else Ret {| status_code := 404; text := "Not Found" |}.

Lemma service_meeting_found records :
  meeting_found JsonText.json_loads_lite (service records) []
    join_link (JStr "m1").
Proof.
  exists [("id", JStr "m1")], [].
  split; [|split; reflexivity].
  exists (ok meetings_body), [("value", JArr [JObj [("id", JStr "m1")]])].
  repeat split; vm_compute; reflexivity.
Qed.

Lemma service_report_found records :
  report_found JsonText.json_loads_lite (service records) text_only []
    (JStr "m1") (JStr "r2").
Proof.
  exists [JObj late_report; JObj early_report], [JObj early_report], late_report.
  split; [|split; [discriminate|split; [|split]]]; try reflexivity.
  exists (ok reports_body),
         [("value", JArr [JObj late_report; JObj early_report])].
  repeat split; vm_compute; reflexivity.
Qed.

End AttendanceExamples.

(** C8: [fetch_attendance] returns absent when the join URL is absent, when
    the meeting lookup has no result or no identifier, when the list of
    reports is empty, and when any of the three requests is answered with a
    status other than 200; and it never raises. *)
Theorem C8_attendance_absent_on_failure :
  forall json_loads http_get py_str headers,
    (forall join_url,
        truthy join_url = false ->
        fetch_attendance json_loads http_get py_str headers join_url
        = Ret None)
    /\ (forall join_url,
           exists r,
             fetch_attendance json_loads http_get py_str headers join_url
             = Ret r)
    /\ (forall join,
           answered_failure http_get (meetings_request headers join) ->
           fetch_attendance json_loads http_get py_str headers (JStr join)
           = Ret None)
    /\ (forall join value,
           answered_value json_loads http_get
             (meetings_request headers join) value ->
           truthy value = false ->
           fetch_attendance json_loads http_get py_str headers (JStr join)
           = Ret None)
    /\ (forall join first rest,
           answered_value json_loads http_get
             (meetings_request headers join) (JArr (JObj first :: rest)) ->
           truthy (dict_get first "id") = false ->
           fetch_attendance json_loads http_get py_str headers (JStr join)
           = Ret None)
    /\ (forall join meeting_id,
           meeting_found json_loads http_get headers join meeting_id ->
           answered_failure http_get
             (page_request headers (reports_url py_str meeting_id)) ->
           fetch_attendance json_loads http_get py_str headers (JStr join)
           = Ret None)
    /\ (forall join meeting_id value,
           meeting_found json_loads http_get headers join meeting_id ->
           answered_value json_loads http_get
             (page_request headers (reports_url py_str meeting_id)) value ->
           truthy value = false ->
           fetch_attendance json_loads http_get py_str headers (JStr join)
           = Ret None)
    /\ (forall join meeting_id report_id,
           meeting_found json_loads http_get headers join meeting_id ->
           report_found json_loads http_get py_str headers
             meeting_id report_id ->
           answered_failure http_get
             (page_request headers
                (records_url py_str meeting_id report_id)) ->
           fetch_attendance json_loads http_get py_str headers (JStr join)
           = Ret None).
Proof.
  intros json_loads http_get py_str headers.
  split; [|split; [|split; [|split; [|split; [|split; [|split]]]]]].
  - intros join_url H. unfold fetch_attendance. now rewrite H.
  - apply fetch_never_raises.
  - intros join (resp & Hget & Hfail). apply fetch_none_of_lookup.
    unfold attendance_lookup, meetings_request in *. rewrite Hget.
    apply Z.eqb_neq in Hfail. cbn [bind]. now rewrite Hfail.
  - intros join value Hvalue Hfalsy. apply fetch_none_of_lookup.
    rewrite (lookup_after_value _ _ _ _ _ _ Hvalue). now rewrite Hfalsy.
  - intros join first rest Hvalue Hfalsy. apply fetch_none_of_lookup.
    rewrite (lookup_after_value _ _ _ _ _ _ Hvalue).
    cbn [truthy negb first_item bind obj_get]. now rewrite Hfalsy.
  - intros join meeting_id Hfound (resp & Hget & Hfail).
    apply fetch_none_of_lookup.
    rewrite (lookup_meeting_found _ _ _ _ _ _ Hfound).
    unfold attendance_reports, get_url, page_request in *. rewrite Hget.
    apply Z.eqb_neq in Hfail. cbn [bind]. now rewrite Hfail.
  - intros join meeting_id value Hfound Hvalue Hfalsy.
    apply fetch_none_of_lookup.
    rewrite (lookup_meeting_found _ _ _ _ _ _ Hfound).
    rewrite (reports_after_value _ _ _ _ _ _ Hvalue). now rewrite Hfalsy.
  - intros join meeting_id report_id Hfound Hreport (resp & Hget & Hfail).
    apply fetch_none_of_lookup.
    rewrite (lookup_meeting_found _ _ _ _ _ _ Hfound).
    rewrite (reports_report_found _ _ _ _ _ _ Hreport).
    unfold attendance_records, get_url, page_request in *. rewrite Hget.
    apply Z.eqb_neq in Hfail. cbn [bind]. now rewrite Hfail.
Qed.

Lemma C8_attendance_absent_on_failure_witness :
  fetch_attendance JsonText.json_loads_lite
    (AttendanceExamples.service AttendanceExamples.unavailable)
    AttendanceExamples.text_only [] (JStr AttendanceExamples.join_link)
  = Ret None.
Proof.
  apply (proj2 (proj2 (proj2 (proj2 (proj2 (proj2 (proj2
           (C8_attendance_absent_on_failure JsonText.json_loads_lite
              (AttendanceExamples.service AttendanceExamples.unavailable)
              AttendanceExamples.text_only []))))))))
    with (meeting_id := JStr "m1") (report_id := JStr "r2").
  - apply AttendanceExamples.service_meeting_found.
  - apply AttendanceExamples.service_report_found.
  - exists AttendanceExamples.unavailable.
    split; [reflexivity | vm_compute; discriminate].
Defined.

(** ** Sorting by text keys *)

Import PyCmp.

Lemma str_lt_irrefl s : str_lt s s = false.
Proof.
  induction s as [|c rest IH]; [reflexivity|].
  simpl. rewrite Nat.ltb_irrefl, Ascii.eqb_refl. exact IH.
Qed.

Lemma nat_of_ascii_inj a b : nat_of_ascii a = nat_of_ascii b -> a = b.
Proof.
  intros H. rewrite <- (ascii_nat_embedding a), <- (ascii_nat_embedding b).
  now rewrite H.
Qed.

Lemma str_lt_trans a b c :
  str_lt a b = true -> str_lt b c = true -> str_lt a c = true.
Proof.
  revert b c. induction a as [|x a IH]; intros [|y b] [|z c]; simpl;
    try discriminate; try reflexivity.
  intros H1 H2.
  apply orb_true_iff in H1, H2. apply orb_true_iff.
  destruct H1 as [H1|H1], H2 as [H2|H2].
  - left. apply Nat.ltb_lt in H1, H2. apply Nat.ltb_lt. lia.
  - apply andb_true_iff in H2. destruct H2 as [E _].
    apply Ascii.eqb_eq in E. subst. now left.
  - apply andb_true_iff in H1. destruct H1 as [E _].
    apply Ascii.eqb_eq in E. subst. now left.
  - apply andb_true_iff in H1, H2.
    destruct H1 as [E1 H1], H2 as [E2 H2].
    apply Ascii.eqb_eq in E1, E2. subst. right.
    rewrite Ascii.eqb_refl. simpl. exact (IH _ _ H1 H2).
Qed.

Lemma str_lt_total a b : str_lt a b = false -> a = b \/ str_lt b a = true.
Proof.
  revert b. induction a as [|x a IH]; intros [|y b]; simpl;
    try discriminate; auto.
  intros H. apply orb_false_iff in H. destruct H as [Hlt Hrest].
  apply Nat.ltb_ge in Hlt.
  destruct (Nat.eq_dec (nat_of_ascii x) (nat_of_ascii y)) as [E|NE].
  - apply nat_of_ascii_inj in E. subst y.
    rewrite Ascii.eqb_refl in Hrest |- *. simpl in Hrest.
    destruct (IH b Hrest) as [->|Hb]; [now left|].
    right. rewrite Hb. apply orb_true_r.
  - right. apply orb_true_iff. left. apply Nat.ltb_lt. lia.
Qed.

(** The stable insertion sort of [sort_keyed], on keys that are texts. *)
Fixpoint insert_text {A : Type} (k : string) (x : A) (l : list (string * A))
  : list (string * A) :=
  match l with
  | [] => [(k, x)]
  | (ky, y) :: rest =>
      if str_lt ky k then (ky, y) :: insert_text k x rest
      else (k, x) :: (ky, y) :: rest
  end.

Fixpoint sort_text {A : Type} (l : list (string * A)) : list (string * A) :=
  match l with
  | [] => []
  | (k, x) :: rest => insert_text k x (sort_text rest)
  end.

Definition text_key {A : Type} (kx : string * A) : json * A :=
  (JStr (fst kx), snd kx).

Lemma insert_keyed_text {A : Type} k (x : A) l :
  insert_keyed (JStr k) x (map text_key l)
  = Ret (map text_key (insert_text k x l)).
Proof.
  induction l as [|[ky y] rest IH]; [reflexivity|].
  simpl. destruct (str_lt ky k); [|reflexivity].
  rewrite IH. reflexivity.
Qed.

Lemma sort_keyed_text {A : Type} (l : list (string * A)) :
  sort_keyed (map text_key l) = Ret (map text_key (sort_text l)).
Proof.
  induction l as [|[k x] rest IH]; [reflexivity|].
  simpl. rewrite IH. simpl. apply insert_keyed_text.
Qed.

Lemma insert_text_perm {A : Type} k (x : A) l :
  Permutation ((k, x) :: l) (insert_text k x l).
Proof.
  induction l as [|[ky y] rest IH]; simpl; [reflexivity|].
  destruct (str_lt ky k); [|reflexivity].
  rewrite perm_swap. now apply perm_skip.
Qed.

Lemma sort_text_perm {A : Type} (l : list (string * A)) :
  Permutation l (sort_text l).
Proof.
  induction l as [|[k x] rest IH]; simpl; [reflexivity|].
  rewrite <- insert_text_perm. now apply perm_skip.
Qed.

(** No item is followed by one with a smaller key. *)
Definition ascending {A : Type} : list (string * A) -> Prop :=
  StronglySorted (fun a b => str_lt (fst b) (fst a) = false).

Lemma insert_text_ascending {A : Type} k (x : A) l :
  ascending l -> ascending (insert_text k x l).
Proof.
  unfold ascending. induction l as [|[ky y] rest IH]; intros Hs; simpl.
  - constructor; constructor.
  - inversion Hs as [|? ? Hrest Hall]; subst.
    destruct (str_lt ky k) eqn:Hlt.
    + constructor; [exact (IH Hrest)|].
      apply Forall_forall. intros [kz z] Hin.
      apply (Permutation_in _ (Permutation_sym (insert_text_perm k x rest)))
        in Hin.
      destruct Hin as [[= <- <-]|Hin]; simpl.
      * destruct (str_lt k ky) eqn:Hkk; [|reflexivity].
        pose proof (str_lt_trans _ _ _ Hkk Hlt) as Hc.
        rewrite str_lt_irrefl in Hc. discriminate.
      * rewrite Forall_forall in Hall. exact (Hall _ Hin).
    + constructor; [exact Hs|].
      constructor; [exact Hlt|].
      apply Forall_forall. intros [kz z] Hin. simpl.
      rewrite Forall_forall in Hall. specialize (Hall _ Hin). simpl in Hall.
      destruct (str_lt kz k) eqn:Hz; [|reflexivity].
      destruct (str_lt_total _ _ Hlt) as [->|Hk]; [congruence|].
      rewrite (str_lt_trans _ _ _ Hz Hk) in Hall. discriminate.
Qed.

Lemma sort_text_ascending {A : Type} (l : list (string * A)) :
  ascending (sort_text l).
Proof.
  induction l as [|[k x] rest IH]; simpl; [constructor|].
  now apply insert_text_ascending.
Qed.

(** ** Sorted sets of texts *)

(** Strictly increasing texts. *)
Definition increasing : list string -> Prop :=
  StronglySorted (fun a b => str_lt a b = true).

Definition sorted_texts (texts : list string) : list string :=
  map fst (sort_text (map (fun t => (t, JStr t)) texts)).

Lemma sorted_texts_perm texts : Permutation texts (sorted_texts texts).
Proof.
  unfold sorted_texts.
  rewrite <- (sort_text_perm (map (fun t => (t, JStr t)) texts)).
  rewrite map_map. simpl. now rewrite map_id.
Qed.

Lemma ascending_keys {A : Type} (l : list (string * A)) :
  ascending l ->
  StronglySorted (fun a b => str_lt b a = false) (map fst l).
Proof.
  unfold ascending. induction 1 as [|kx rest Hrest IH Hall]; simpl.
  - constructor.
  - constructor; [exact IH|].
    apply Forall_forall. intros k Hin. apply in_map_iff in Hin.
    destruct Hin as (ky & <- & Hin).
    rewrite Forall_forall in Hall. exact (Hall _ Hin).
Qed.

Lemma nodup_ascending_increasing texts :
  NoDup texts ->
  StronglySorted (fun a b => str_lt b a = false) texts ->
  increasing texts.
Proof.
  unfold increasing. intros Hnd Hs.
  induction Hs as [|t rest Hrest IH Hall]; [constructor|].
  inversion Hnd as [|? ? Hnotin Hnd']; subst.
  constructor; [exact (IH Hnd')|].
  apply Forall_forall. intros u Hin.
  rewrite Forall_forall in Hall. specialize (Hall _ Hin).
  destruct (str_lt_total _ _ Hall) as [->|Hlt]; [contradiction | exact Hlt].
Qed.

Lemma sorted_texts_increasing texts :
  NoDup texts -> increasing (sorted_texts texts).
Proof.
  intros Hnd. apply nodup_ascending_increasing.
  - exact (Permutation_NoDup (sorted_texts_perm texts) Hnd).
  - apply ascending_keys, sort_text_ascending.
Qed.

Lemma increasing_unique l1 l2 :
  increasing l1 -> increasing l2 ->
  (forall t, In t l1 <-> In t l2) -> l1 = l2.
Proof.
  unfold increasing. intros H1. revert l2.
  induction H1 as [|a l1 Hs1 IH Hall1]; intros l2 H2 Hsame.
  - destruct l2 as [|b l2]; [reflexivity|].
    exfalso. apply (proj2 (Hsame b)). now left.
  - destruct H2 as [|b l2 Hs2 Hall2].
    + exfalso. apply (proj1 (Hsame a)). now left.
    + rewrite Forall_forall in Hall1, Hall2.
      assert (Hab : a = b).
      { destruct (proj1 (Hsame a) (or_introl eq_refl)) as [Hba|Hin2];
          [now symmetry|].
        destruct (proj2 (Hsame b) (or_introl eq_refl)) as [Hba|Hin1];
          [exact Hba|].
        pose proof (Hall2 _ Hin2) as Hlt1.
        pose proof (Hall1 _ Hin1) as Hlt2.
        pose proof (str_lt_trans _ _ _ Hlt1 Hlt2) as Hc.
        rewrite str_lt_irrefl in Hc. discriminate. }
      subst b. f_equal. apply IH; [exact Hs2|].
      intros t. split; intros Hin.
      * destruct (proj1 (Hsame t) (or_intror Hin)) as [<-|Hin2]; [|exact Hin2].
        pose proof (Hall1 _ Hin) as Hc.
        rewrite str_lt_irrefl in Hc. discriminate.
      * destruct (proj2 (Hsame t) (or_intror Hin)) as [<-|Hin1]; [|exact Hin1].
        pose proof (Hall2 _ Hin) as Hc.
        rewrite str_lt_irrefl in Hc. discriminate.
Qed.

Lemma py_sorted_texts texts :
  py_sorted (map JStr texts) = Ret (map JStr (sorted_texts texts)).
Proof.
  unfold py_sorted, sorted_texts.
  replace (map (fun v => (v, v)) (map JStr texts))
    with (map text_key (map (fun t => (t, JStr t)) texts))
    by (rewrite !map_map; reflexivity).
  rewrite sort_keyed_text. cbn [bind]. f_equal.
  rewrite !map_map.
  assert (Hinv : Forall (fun kx : string * json => snd kx = JStr (fst kx))
                   (sort_text (map (fun t => (t, JStr t)) texts))).
  { apply Forall_forall. intros kx Hin.
    apply (Permutation_in _ (Permutation_sym (sort_text_perm _))) in Hin.
    apply in_map_iff in Hin. destruct Hin as (t & <- & _). reflexivity. }
  apply map_ext_Forall. revert Hinv. apply Forall_impl.
  intros kx Hkx. exact Hkx.
Qed.

(** ** The emails of attendance records *)

Lemma set_mem_texts t texts :
  set_mem (JStr t) (map JStr texts) = true <-> In t texts.
Proof.
  induction texts as [|u rest IH]; simpl; [split; [discriminate | tauto]|].
  rewrite orb_true_iff, IH, String.eqb_eq. tauto.
Qed.

(** Every email found in the records is a text. *)
Definition text_emails (records : list json) : Prop :=
  forall record email,
    In record records -> record_email record = Ret email ->
    truthy email = true -> exists t, email = JStr t.

(** [t] is the non-empty email of one of the records. *)
Definition email_of (records : list json) (t : string) : Prop :=
  exists record,
    In record records /\ record_email record = Ret (JStr t)
    /\ PyStr.is_empty t = false.

Lemma email_of_cons record rest t :
  email_of (record :: rest) t
  <-> (record_email record = Ret (JStr t) /\ PyStr.is_empty t = false)
      \/ email_of rest t.
Proof.
  unfold email_of. split.
  - intros (r & [<-|Hin] & He & Hne); [now left|].
    right. exists r. now split.
  - intros [[He Hne]|(r & Hin & He)].
    + exists record. split; [now left | now split].
    + exists r. split; [now right | exact He].
Qed.

Lemma collect_emails_texts records :
  text_emails records ->
  forall acc out,
    NoDup acc ->
    collect_emails records (map JStr acc) = Ret out ->
    exists texts,
      out = map JStr texts /\ NoDup texts
      /\ forall t, In t texts <-> In t acc \/ email_of records t.
Proof.
  induction records as [|record rest IH]; intros Htext acc out Hnd.
  - simpl. intros [= <-]. exists acc. split; [reflexivity|]. split; [exact Hnd|].
    intros t. split; [now left|]. intros [H|(r & [] & _)]. exact H.
  - assert (Hrest : text_emails rest).
    { intros r e Hin. apply Htext. now right. }
    cbn [collect_emails].
    destruct (record_email record) as [email|e] eqn:Hrec; [|discriminate].
    cbn [bind]. destruct (truthy email) eqn:Htruthy.
    + destruct (Htext record email (or_introl eq_refl) Hrec Htruthy)
        as [u ->].
      assert (Hne : PyStr.is_empty u = false)
        by (simpl in Htruthy; now destruct (PyStr.is_empty u)).
      unfold set_add. cbn [hashable negb].
      destruct (set_mem (JStr u) (map JStr acc)) eqn:Hmem; cbn [bind].
      * apply set_mem_texts in Hmem. intros Hout.
        destruct (IH Hrest acc out Hnd Hout) as (texts & -> & Hnd' & Hchar).
        exists texts. split; [reflexivity|]. split; [exact Hnd'|].
        intros t. rewrite Hchar, email_of_cons. split.
        -- tauto.
        -- intros [H|[[He _]|H]]; try tauto.
           rewrite Hrec in He. injection He as ->. now left.
      * assert (Hnotin : ~ In u acc).
        { intros Hin. apply set_mem_texts in Hin. congruence. }
        replace (map JStr acc ++ [JStr u]) with (map JStr (acc ++ [u]))
          by (rewrite map_app; reflexivity).
        intros Hout.
        assert (Hnd2 : NoDup (acc ++ [u])).
        { apply NoDup_app; [exact Hnd | constructor; [intros [] | constructor]|].
          intros x Hx [<-|[]]. contradiction. }
        destruct (IH Hrest (acc ++ [u]) out Hnd2 Hout)
          as (texts & -> & Hnd' & Hchar).
        exists texts. split; [reflexivity|]. split; [exact Hnd'|].
        intros t. rewrite Hchar, email_of_cons, in_app_iff. simpl. split.
        -- intros [[H|[<-|[]]]|H]; tauto.
        -- intros [H|[[He _]|H]]; try tauto.
           rewrite Hrec in He. injection He as ->. tauto.
    + intros Hout.
      destruct (IH Hrest acc out Hnd Hout) as (texts & -> & Hnd' & Hchar).
      exists texts. split; [reflexivity|]. split; [exact Hnd'|].
      intros t. rewrite Hchar, email_of_cons. split; [tauto|].
      intros [H|[[He Hne]|H]]; try tauto.
      rewrite Hrec in He. injection He as ->.
      simpl in Htruthy. rewrite Hne in Htruthy. discriminate.
Qed.

(** The sorted emails of a list of records whose emails are texts. *)
Lemma attendance_emails_characterised records collected emails :
  text_emails records ->
  collect_emails records [] = Ret collected ->
  py_sorted collected = Ret emails ->
  exists texts,
    emails = map JStr texts /\ increasing texts
    /\ forall t, In t texts <-> email_of records t.
Proof.
  intros Htext Hcollect Hsort.
  destruct (collect_emails_texts records Htext [] collected
              (NoDup_nil _) Hcollect) as (found & -> & Hnd & Hchar).
  rewrite py_sorted_texts in Hsort. injection Hsort as <-.
  exists (sorted_texts found).
  split; [reflexivity|]. split; [now apply sorted_texts_increasing|].
  intros t. split.
  - intros Hin.
    apply (Permutation_in _ (Permutation_sym (sorted_texts_perm found))) in Hin.
    apply Hchar in Hin. destruct Hin as [[]|H]. exact H.
  - intros H. apply (Permutation_in _ (sorted_texts_perm found)).
    apply Hchar. now right.
Qed.

Lemma email_of_permutation records records' t :
  Permutation records records' -> email_of records t -> email_of records' t.
Proof.
  intros Hp (r & Hin & He). exists r. split; [|exact He].
  exact (Permutation_in _ Hp Hin).
Qed.

(** ** The attendees of an event *)

(** A name or an address as the calendar service sends it: a text, or
    nothing at all. *)
Definition text_or_absent (v : json) : option string :=
  match v with
  | JStr s => Some s
  | JNull => Some EmptyString
  | _ => None
  end.

(** The attendee is an object; its [emailAddress], when it has one, is an
    object that gives the person's name and address. *)
Definition invited (attendee : json) (person : string * string) : Prop :=
  exists d e,
    attendee = JObj d
    /\ py_or (dict_get d "emailAddress") (JObj []) = JObj e
    /\ text_or_absent (dict_get e "name") = Some (fst person)
    /\ text_or_absent (dict_get e "address") = Some (snd person).

Definition present (texts : list string) : list string :=
  filter (fun s => negb (PyStr.is_empty s)) texts.

Lemma truthy_text_or_absent v s :
  text_or_absent v = Some s -> truthy v = negb (PyStr.is_empty s).
Proof.
  destruct v; simpl; try discriminate; now intros [= <-].
Qed.

Lemma text_or_absent_present v s :
  text_or_absent v = Some s -> truthy v = true -> v = JStr s.
Proof.
  destruct v; simpl; try discriminate; now intros [= <-].
Qed.

Lemma collect_attendees_invited attendees people :
  Forall2 invited attendees people ->
  forall names emails,
    collect_attendees attendees names emails
    = Ret (names ++ map JStr (present (map fst people)),
           emails ++ map JStr (present (map snd people))).
Proof.
  induction 1 as [|attendee person attendees people Hinv _ IH];
    intros names emails.
  - simpl. now rewrite !app_nil_r.
  - destruct Hinv as (d & e & -> & Hinfo & Hname & Haddr).
    cbn [collect_attendees obj_get bind]. rewrite Hinfo.
    cbn [obj_get bind]. rewrite IH.
    cbn [map present filter].
    rewrite <- (truthy_text_or_absent _ _ Hname).
    rewrite <- (truthy_text_or_absent _ _ Haddr).
    destruct (truthy (dict_get e "name")) eqn:Tn;
      destruct (truthy (dict_get e "address")) eqn:Ta;
      try rewrite (text_or_absent_present _ _ Hname Tn);
      try rewrite (text_or_absent_present _ _ Haddr Ta);
      cbn [map]; rewrite <- ?app_assoc; reflexivity.
Qed.

Lemma as_strings_texts texts : as_strings (map JStr texts) = Ret texts.
Proof.
  induction texts as [|s rest IH]; [reflexivity|].
  cbn [map as_strings]. now rewrite IH.
Qed.

(** ** A successful attendance lookup *)

Section AttendanceSuccess.

Variable json_loads : string -> option json.
Variable http_get : request -> result response.
Variable py_str : json -> string.
Variable headers : list (string * string).

Lemma answered_value_intro req resp body :
  http_get req = Ret resp ->
  negb (status_code resp =? 200) = false ->
  response_json json_loads resp = Ret body ->
  forall value, obj_get_default body "value" (JArr []) = Ret value ->
  answered_value json_loads http_get req value.
Proof.
  intros Hget Hok Hjson value Hvalue.
  unfold response_json in Hjson.
  destruct (json_loads (text resp)) as [j|] eqn:Hj; [|discriminate].
  injection Hjson as ->.
  destruct body; try discriminate. injection Hvalue as <-.
  exists resp, fields. repeat split; try assumption.
  apply negb_false_iff, Z.eqb_eq in Hok. exact Hok.
Qed.

Lemma records_success meeting_id report_id count emails :
  attendance_records json_loads http_get py_str headers meeting_id report_id
  = Ret (Some (count, emails)) ->
  exists value items collected,
    answered_value json_loads http_get
      (page_request headers (records_url py_str meeting_id report_id)) value
    /\ py_iter value = Ret items
    /\ count = Z.of_nat (List.length items)
    /\ collect_emails items [] = Ret collected
    /\ py_sorted collected = Ret emails.
Proof.
  unfold attendance_records, get_url. fold (page_request headers
    (records_url py_str meeting_id report_id)).
  destruct (http_get _) as [resp|] eqn:Hget; [|discriminate]. cbn [bind].
  destruct (negb (status_code resp =? 200)) eqn:Hok; [discriminate|].
  destruct (response_json json_loads resp) as [body|] eqn:Hjson;
    [|discriminate]. cbn [bind].
  destruct (obj_get_default body "value" (JArr [])) as [value|] eqn:Hvalue;
    [|discriminate]. cbn [bind].
  destruct (py_iter value) as [items|] eqn:Hiter; [|discriminate]. cbn [bind].
  destruct (collect_emails items []) as [collected|] eqn:Hcollect;
    [|discriminate]. cbn [bind].
  destruct (py_sorted collected) as [sorted|] eqn:Hsort; [|discriminate].
  cbn [bind]. intros [= <- <-].
  exists value, items, collected. repeat split; try assumption.
  exact (answered_value_intro _ _ _ Hget Hok Hjson _ Hvalue).
Qed.

Lemma reports_success meeting_id r :
  attendance_reports json_loads http_get py_str headers meeting_id
  = Ret (Some r) ->
  exists report_id,
    report_found json_loads http_get py_str headers meeting_id report_id
    /\ attendance_records json_loads http_get py_str headers
         meeting_id report_id = Ret (Some r).
Proof.
  unfold attendance_reports, get_url. fold (page_request headers
    (reports_url py_str meeting_id)).
  destruct (http_get _) as [resp|] eqn:Hget; [|discriminate]. cbn [bind].
  destruct (negb (status_code resp =? 200)) eqn:Hok; [discriminate|].
  destruct (response_json json_loads resp) as [body|] eqn:Hjson;
    [|discriminate]. cbn [bind].
  destruct (obj_get_default body "value" (JArr [])) as [value|] eqn:Hvalue;
    [|discriminate]. cbn [bind].
  destruct (negb (truthy value)) eqn:Htruthy; [discriminate|].
  destruct (sort_reports value) as [sorted|] eqn:Hsort; [|discriminate].
  cbn [bind].
  destruct (rev sorted) as [|latest before] eqn:Hrev; [discriminate|].
  cbn [bind].
  destruct (obj_get latest "id") as [report_id|] eqn:Hid; [|discriminate].
  cbn [bind].
  destruct (negb (truthy report_id)) eqn:Hrid; [discriminate|].
  intros Hrecords. exists report_id. split; [|exact Hrecords].
  destruct latest as [| | | | |latest_fields]; try discriminate.
  injection Hid as Hid.
  assert (Hsorted : sorted = rev before ++ [JObj latest_fields]).
  { rewrite <- (rev_involutive sorted), Hrev. reflexivity. }
  destruct value as [| | | |reports|]; try discriminate.
  exists reports, (rev before), latest_fields.
  split; [exact (answered_value_intro _ _ _
                   Hget Hok Hjson _ Hvalue)|].
  split; [now destruct reports|].
  split; [now rewrite <- Hsorted|].
  split; [exact Hid|]. now apply negb_false_iff in Hrid.
Qed.

Lemma lookup_success join r :
  attendance_lookup json_loads http_get py_str headers (JStr join)
  = Ret (Some r) ->
  exists meeting_id,
    meeting_found json_loads http_get headers join meeting_id
    /\ attendance_reports json_loads http_get py_str headers meeting_id
       = Ret (Some r).
Proof.
  unfold attendance_lookup. fold (meetings_request headers join).
  destruct (http_get _) as [resp|] eqn:Hget; [|discriminate]. cbn [bind].
  destruct (negb (status_code resp =? 200)) eqn:Hok; [discriminate|].
  destruct (response_json json_loads resp) as [body|] eqn:Hjson;
    [|discriminate]. cbn [bind].
  destruct (obj_get_default body "value" (JArr [])) as [value|] eqn:Hvalue;
    [|discriminate]. cbn [bind].
  destruct (negb (truthy value)) eqn:Htruthy; [discriminate|].
  destruct (first_item value) as [first|] eqn:Hfirst; [|discriminate].
  cbn [bind].
  destruct (obj_get first "id") as [meeting_id|] eqn:Hid; [|discriminate].
  cbn [bind].
  destruct (negb (truthy meeting_id)) eqn:Hmid; [discriminate|].
  intros Hreports. exists meeting_id. split; [|exact Hreports].
  destruct first as [| | | | |first_fields]; try discriminate.
  injection Hid as Hid.
  destruct value as [| | |s|[|x rest]|]; try discriminate.
  - destruct s; discriminate.
  - injection Hfirst as ->.
    exists first_fields, rest.
    split; [exact (answered_value_intro _ _ _
                     Hget Hok Hjson _ Hvalue)|].
    split; [exact Hid|]. now apply negb_false_iff in Hmid.
Qed.

Lemma fetch_success join r :
  fetch_attendance json_loads http_get py_str headers (JStr join)
  = Ret (Some r) ->
  attendance_lookup json_loads http_get py_str headers (JStr join)
  = Ret (Some r).
Proof.
  unfold fetch_attendance.
  destruct (negb (truthy (JStr join))); [discriminate|].
  destruct (attendance_lookup _ _ _ _ _) as [x|e]; simpl; [|discriminate].
  intros [= ->]. reflexivity.
Qed.

End AttendanceSuccess.

Lemma collect_emails_reads_all records :
  forall acc out,
    collect_emails records acc = Ret out ->
    forall record, In record records -> exists e, record_email record = Ret e.
Proof.
  induction records as [|r rest IH]; intros acc out Hout record Hin;
    [destruct Hin|].
  cbn [collect_emails] in Hout.
  destruct (record_email r) as [e|] eqn:Hr; [|discriminate].
  cbn [bind] in Hout.
  destruct Hin as [<-|Hin]; [now exists e|].
  destruct (truthy e).
  - destruct (set_add acc e) as [acc'|]; [|discriminate].
    exact (IH _ _ Hout record Hin).
  - exact (IH _ _ Hout record Hin).
Qed.

Lemma collect_emails_succeeds records :
  text_emails records ->
  (forall record, In record records -> exists e, record_email record = Ret e) ->
  forall acc, exists out, collect_emails records (map JStr acc) = Ret out.
Proof.
  induction records as [|r rest IH]; intros Htext Hread acc;
    [now exists (map JStr acc)|].
  cbn [collect_emails].
  destruct (Hread r (or_introl eq_refl)) as [e He]. rewrite He. cbn [bind].
  assert (Htext' : text_emails rest).
  { intros x y Hin. apply Htext. now right. }
  assert (Hread' : forall record, In record rest ->
                                  exists e, record_email record = Ret e).
  { intros x Hin. apply Hread. now right. }
  destruct (truthy e) eqn:Htruthy; [|exact (IH Htext' Hread' acc)].
  destruct (Htext r e (or_introl eq_refl) He Htruthy) as [u ->].
  unfold set_add. cbn [hashable negb].
  destruct (set_mem (JStr u) (map JStr acc)); cbn [bind].
  - exact (IH Htext' Hread' acc).
  - replace (map JStr acc ++ [JStr u]) with (map JStr (acc ++ [u]))
      by (rewrite map_app; reflexivity).
    exact (IH Htext' Hread' (acc ++ [u])).
Qed.

Lemma text_emails_permutation records records' :
  Permutation records records' -> text_emails records -> text_emails records'.
Proof.
  intros Hp Htext record e Hin. apply Htext.
  exact (Permutation_in _ (Permutation_sym Hp) Hin).
Qed.

(** ** Attendance records as the service sends them *)

(** The record is an object; its [identity], and the [user] of the
    identity, are objects when they are there, and the [email] of the user
    is a text or absent.  [email] is that text, empty when there is none. *)
Definition attendance_record (record : json) (email : string) : Prop :=
  exists fields identity user,
    record = JObj fields
    /\ py_or (dict_get fields "identity") (JObj []) = JObj identity
    /\ py_or (dict_get identity "user") (JObj []) = JObj user
    /\ text_or_absent (dict_get user "email") = Some email.

Lemma attendance_record_email record email :
  attendance_record record email ->
  exists e, record_email record = Ret e /\ text_or_absent e = Some email.
Proof.
  intros (fields & identity & user & -> & Hi & Hu & He).
  exists (dict_get user "email"). split; [|exact He].
  unfold record_email. cbn [obj_get bind]. rewrite Hi.
  cbn [obj_get bind]. rewrite Hu. reflexivity.
Qed.

Lemma text_or_absent_text t email :
  text_or_absent (JStr t) = Some email -> email = t.
Proof. now intros [= <-]. Qed.

Lemma attendance_records_shape records carried :
  Forall2 attendance_record records carried ->
  text_emails records
  /\ (forall record, In record records ->
                     exists e, record_email record = Ret e)
  /\ (forall t, email_of records t
                <-> In t carried /\ PyStr.is_empty t = false).
Proof.
  induction 1 as [|record email records carried Hrec _ IH].
  - split; [intros r e []|]. split; [intros r []|].
    intros t. split; [intros (r & [] & _)|intros [[] _]].
  - destruct IH as (Htext & Hread & Hchar).
    destruct (attendance_record_email _ _ Hrec) as (e & He & Hte).
    split; [|split].
    + intros r x [<-|Hin] Hx Htruthy.
      * rewrite He in Hx. injection Hx as <-.
        destruct e; try discriminate. eauto.
      * exact (Htext r x Hin Hx Htruthy).
    + intros r [<-|Hin]; [now exists e|exact (Hread r Hin)].
    + intros t. rewrite email_of_cons, Hchar. split.
      * intros [[Ht Hne]|[Hin Hne]].
        -- rewrite He in Ht. injection Ht as ->.
           apply text_or_absent_text in Hte. subst email.
           split; [now left|exact Hne].
        -- split; [now right|exact Hne].
      * intros [[<-|Hin] Hne]; [left|right; now split].
        split; [|exact Hne]. rewrite He. f_equal.
        destruct e; try discriminate.
        -- injection Hte as <-. discriminate Hne.
        -- now injection Hte as ->.
Qed.

Lemma increasing_NoDup texts : increasing texts -> NoDup texts.
Proof.
  unfold increasing. induction 1 as [|t rest Hrest IH Hall]; constructor.
  - intros Hin. rewrite Forall_forall in Hall.
    specialize (Hall t Hin). now rewrite str_lt_irrefl in Hall.
  - exact IH.
Qed.

Section AttendanceAnswered.

Variable json_loads : string -> option json.
Variable http_get : request -> result response.
Variable py_str : json -> string.
Variable headers : list (string * string).

(** The three requests of a lookup are answered, and the third lists
    [records]. *)
Definition lookup_answered (join : string) (records : list json) : Prop :=
  exists meeting_id report_id,
    meeting_found json_loads http_get headers join meeting_id
    /\ report_found json_loads http_get py_str headers meeting_id report_id
    /\ answered_value json_loads http_get
         (page_request headers (records_url py_str meeting_id report_id))
         (JArr records).

Lemma records_answered meeting_id report_id records carried :
  answered_value json_loads http_get
    (page_request headers (records_url py_str meeting_id report_id))
    (JArr records) ->
  Forall2 attendance_record records carried ->
  exists texts,
    attendance_records json_loads http_get py_str headers meeting_id report_id
    = Ret (Some (Z.of_nat (List.length records), map JStr texts))
    /\ increasing texts
    /\ forall t, In t texts <-> In t carried /\ PyStr.is_empty t = false.
Proof.
  intros (resp & fields & Hget & Hok & Hjson & Hvalue) Hshape.
  destruct (attendance_records_shape _ _ Hshape) as (Htext & Hread & Hchar).
  destruct (collect_emails_succeeds records Htext Hread []) as [out Hout].
  cbn [map] in Hout.
  destruct (collect_emails_texts records Htext [] out (NoDup_nil _) Hout)
    as (found & -> & Hnd & Hfound).
  exists (sorted_texts found).
  split; [|split].
  - unfold attendance_records, get_url, page_request in *.
    rewrite Hget. cbn [bind]. rewrite Hok. cbn [Z.eqb Pos.eqb negb].
    unfold response_json. rewrite Hjson. cbn [bind obj_get_default].
    rewrite Hvalue. cbn [py_iter bind]. rewrite Hout. cbn [bind].
    rewrite py_sorted_texts. reflexivity.
  - now apply sorted_texts_increasing.
  - intros t. rewrite <- Hchar. split.
    + intros Hin.
      apply (Permutation_in _ (Permutation_sym (sorted_texts_perm found)))
        in Hin.
      apply Hfound in Hin. now destruct Hin as [[]|Hin].
    + intros Hin. apply (Permutation_in _ (sorted_texts_perm found)).
      apply Hfound. now right.
Qed.

Lemma fetch_answered join records carried :
  PyStr.is_empty join = false ->
  lookup_answered join records ->
  Forall2 attendance_record records carried ->
  exists texts,
    fetch_attendance json_loads http_get py_str headers (JStr join)
    = Ret (Some (Z.of_nat (List.length records), map JStr texts))
    /\ increasing texts
    /\ forall t, In t texts <-> In t carried /\ PyStr.is_empty t = false.
Proof.
  intros Hjoin (meeting_id & report_id & Hmeeting & Hreport & Hvalue) Hshape.
  destruct (records_answered _ _ _ _ Hvalue Hshape)
    as (texts & Hrecords & Hinc & Hchar).
  exists texts. split; [|now split].
  unfold fetch_attendance. cbn [truthy]. rewrite Hjoin. cbn [negb].
  rewrite (lookup_meeting_found _ _ _ _ _ _ Hmeeting).
  rewrite (reports_report_found _ _ _ _ _ _ Hreport).
  rewrite Hrecords. reflexivity.
Qed.

End AttendanceAnswered.

Arguments lookup_answered json_loads http_get py_str headers join records
  : assert.

(** C10: when the three requests of a lookup are answered and the records
    are as the service sends them, [fetch_attendance] returns the number of
    the records, those without an email included, with the strictly
    increasing list of the distinct non-empty emails of the records, which
    is never longer than the count; the result is the same for every order
    of the records; and every result that is not absent comes from three
    answered requests. *)
Theorem C10_attendance_count_and_emails :
  (forall json_loads http_get py_str headers join records carried,
      PyStr.is_empty join = false ->
      lookup_answered json_loads http_get py_str headers join records ->
      Forall2 attendance_record records carried ->
      exists texts,
        fetch_attendance json_loads http_get py_str headers (JStr join)
        = Ret (Some (Z.of_nat (List.length records), map JStr texts))
        /\ increasing texts
        /\ (forall t, In t texts
                      <-> In t carried /\ PyStr.is_empty t = false)
        /\ (List.length texts <= List.length records)%nat)
  /\
  (forall json_loads http_get http_get' py_str headers join
          records records' carried,
      PyStr.is_empty join = false ->
      lookup_answered json_loads http_get py_str headers join records ->
      lookup_answered json_loads http_get' py_str headers join records' ->
      Forall2 attendance_record records carried ->
      Permutation records records' ->
      fetch_attendance json_loads http_get py_str headers (JStr join)
      = fetch_attendance json_loads http_get' py_str headers (JStr join))
  /\
  (forall json_loads http_get py_str headers join count emails,
      fetch_attendance json_loads http_get py_str headers (JStr join)
      = Ret (Some (count, emails)) ->
      exists meeting_id report_id value records,
        meeting_found json_loads http_get headers join meeting_id
        /\ report_found json_loads http_get py_str headers
             meeting_id report_id
        /\ answered_value json_loads http_get
             (page_request headers (records_url py_str meeting_id report_id))
             value
        /\ py_iter value = Ret records
        /\ count = Z.of_nat (List.length records)
        /\ (text_emails records ->
            exists texts,
              emails = map JStr texts /\ increasing texts
              /\ forall t, In t texts <-> email_of records t)).
Proof.
  split; [|split].
  - intros json_loads http_get py_str headers join records carried
           Hjoin Hlookup Hshape.
    destruct (fetch_answered _ _ _ _ _ _ _ Hjoin Hlookup Hshape)
      as (texts & Hfetch & Hinc & Hchar).
    exists texts. repeat (split; [assumption|]).
    rewrite (Forall2_length Hshape).
    apply NoDup_incl_length; [exact (increasing_NoDup _ Hinc)|].
    intros t Hin. now apply Hchar.
  - intros json_loads http_get http_get' py_str headers join
           records records' carried Hjoin Hlookup Hlookup' Hshape Hperm.
    destruct (Permutation_Forall2 Hperm Hshape)
      as (carried' & Hcarried & Hshape').
    destruct (fetch_answered _ _ _ _ _ _ _ Hjoin Hlookup Hshape)
      as (texts & -> & Hinc & Hchar).
    destruct (fetch_answered _ _ _ _ _ _ _ Hjoin Hlookup' Hshape')
      as (texts' & -> & Hinc' & Hchar').
    rewrite (Permutation_length Hperm).
    assert (Hsame : texts = texts').
    { apply increasing_unique; try assumption.
      intros t. rewrite Hchar, Hchar'. split; intros [Hin Hne]; split;
        try exact Hne.
      - exact (Permutation_in _ Hcarried Hin).
      - exact (Permutation_in _ (Permutation_sym Hcarried) Hin). }
    now rewrite Hsame.
  - intros json_loads http_get py_str headers join count emails Hfetch.
    apply fetch_success in Hfetch.
    destruct (lookup_success _ _ _ _ _ _ Hfetch) as (mid & Hmeeting & Hreports).
    destruct (reports_success _ _ _ _ _ _ Hreports) as (rid & Hreport & Hrecords).
    destruct (records_success _ _ _ _ _ _ _ _ Hrecords)
      as (value & records & collected & Hvalue & Hiter & Hcount & Hcollect & Hsort).
    exists mid, rid, value, records.
    repeat (split; [assumption|]).
    intros Htext.
    exact (attendance_emails_characterised _ _ _ Htext Hcollect Hsort).
Qed.

Lemma service_lookup_answered :
  lookup_answered JsonText.json_loads_lite
    (AttendanceExamples.service
       (AttendanceExamples.ok AttendanceExamples.records_body))
    AttendanceExamples.text_only [] AttendanceExamples.join_link
    [ AttendanceExamples.attendee "zoe@example.com";
      JObj [("role", JStr "Presenter")];
      AttendanceExamples.attendee "adam@example.com";
      AttendanceExamples.attendee "zoe@example.com" ].
Proof.
  exists (JStr "m1"), (JStr "r2").
  split; [apply AttendanceExamples.service_meeting_found|].
  split; [apply AttendanceExamples.service_report_found|].
  exists (AttendanceExamples.ok AttendanceExamples.records_body).
  eexists. split; [reflexivity|]. split; [reflexivity|].
  split; [vm_compute; reflexivity|reflexivity].
Qed.

Lemma service_records_shape :
  Forall2 attendance_record
    [ AttendanceExamples.attendee "zoe@example.com";
      JObj [("role", JStr "Presenter")];
      AttendanceExamples.attendee "adam@example.com";
      AttendanceExamples.attendee "zoe@example.com" ]
    [ "zoe@example.com"; EmptyString; "adam@example.com"; "zoe@example.com" ].
Proof.
  repeat constructor;
    (eexists; eexists; eexists; split; [reflexivity|];
     split; [reflexivity|]; split; reflexivity).
Qed.

Lemma C10_attendance_count_and_emails_witness :
  fetch_attendance JsonText.json_loads_lite
    (AttendanceExamples.service
       (AttendanceExamples.ok AttendanceExamples.records_body))
    AttendanceExamples.text_only [] (JStr AttendanceExamples.join_link)
  = Ret (Some (4, [JStr "adam@example.com"; JStr "zoe@example.com"]))
  /\ exists texts,
       fetch_attendance JsonText.json_loads_lite
         (AttendanceExamples.service
            (AttendanceExamples.ok AttendanceExamples.records_body))
         AttendanceExamples.text_only [] (JStr AttendanceExamples.join_link)
       = Ret (Some (Z.of_nat
                      (List.length
                         [ AttendanceExamples.attendee "zoe@example.com";
                           JObj [("role", JStr "Presenter")];
                           AttendanceExamples.attendee "adam@example.com";
                           AttendanceExamples.attendee "zoe@example.com" ]),
                    map JStr texts))
       /\ increasing texts
       /\ (forall t,
              In t texts
              <-> In t [ "zoe@example.com"; EmptyString;
                         "adam@example.com"; "zoe@example.com" ]
                  /\ PyStr.is_empty t = false)
       /\ (List.length texts
           <= List.length
                [ AttendanceExamples.attendee "zoe@example.com";
                  JObj [("role", JStr "Presenter")];
                  AttendanceExamples.attendee "adam@example.com";
                  AttendanceExamples.attendee "zoe@example.com" ])%nat.
Proof.
  split; [vm_compute; reflexivity|].
  apply (proj1 C10_attendance_count_and_emails).
  - reflexivity.
  - exact service_lookup_answered.
  - exact service_records_shape.
Defined.

(** ** Wall-clock times *)

(** The fields of a wall-clock time are those of a date and a time of
    day. *)
Definition valid_wall (dt : datetime) : Prop :=
  1 <= year dt <= 9999 /\ 1 <= month dt <= 12
  /\ 1 <= day dt <= days_in_month (year dt) (month dt)
  /\ 0 <= hour dt < 24 /\ 0 <= minute dt < 60 /\ 0 <= second dt < 60
  /\ 0 <= microsecond dt < 1000000.

(** The same wall-clock fields, at the offset [off]. *)
Definition at_offset (dt : datetime) (off : Z) : datetime :=
  {| year := year dt; month := month dt; day := day dt;
     hour := hour dt; minute := minute dt; second := second dt;
     microsecond := microsecond dt; utcoffset := Some off |}.

Lemma of_wall_micros_wall dt off :
  valid_wall dt ->
  of_wall_micros (wall_micros dt) (Some off) = Ret (at_offset dt off).
Proof.
  intros (Hy & Hm & Hd & Hh & Hmi & Hs & Hus).
  pose proof (ymd2ord_bounds _ _ _ Hy Hm Hd) as Hord.
  unfold of_wall_micros, wall_micros, US_PER_DAY, US_PER_SECOND, MAXORDINAL in *.
  set (N := ymd2ord (year dt) (month dt) (day dt)) in *.
  set (secs := hour dt * 3600 + minute dt * 60 + second dt).
  replace ((N * 86400 + hour dt * 3600 + minute dt * 60 + second dt) * 1000000
           + microsecond dt)
    with (N * (86400 * 1000000) + (secs * 1000000 + microsecond dt))
    by (subst secs; lia).
  assert (Hsecs : 0 <= secs < 86400) by (subst secs; lia).
  assert (E1 : (N * (86400 * 1000000) + (secs * 1000000 + microsecond dt))
               / (86400 * 1000000) = N)
    by (Z.div_mod_to_equations; lia).
  assert (E2 : (N * (86400 * 1000000) + (secs * 1000000 + microsecond dt))
               mod (86400 * 1000000) = secs * 1000000 + microsecond dt)
    by (Z.div_mod_to_equations; lia).
  rewrite E1, E2.
  assert (E3 : (secs * 1000000 + microsecond dt) / 1000000 = secs)
    by (Z.div_mod_to_equations; lia).
  assert (E4 : (secs * 1000000 + microsecond dt) mod 1000000 = microsecond dt)
    by (Z.div_mod_to_equations; lia).
  rewrite E3, E4.
  assert (Hr : (0 <? N) && (N <=? 3652059) = true) by lia.
  rewrite Hr. subst N. rewrite ord2ymd_ymd2ord by lia.
  assert (E5 : secs / 3600 = hour dt)
    by (subst secs; Z.div_mod_to_equations; lia).
  assert (E6 : secs mod 3600 / 60 = minute dt)
    by (subst secs; Z.div_mod_to_equations; lia).
  assert (E7 : secs mod 60 = second dt)
    by (subst secs; Z.div_mod_to_equations; lia).
  rewrite E5, E6, E7. reflexivity.
Qed.

(** ** The report *)

Section Report.

Variable json_loads : string -> option json.
Variable http_get : request -> result response.
Variable py_str : json -> string.
Variable pytz_timezone : string -> option tzinfo.
Variable fromisoformat : string -> option datetime.
Variable headers : list (string * string).
Variable attendance : bool.
Variable tz : tzinfo.

Let process :=
  process_event json_loads http_get py_str pytz_timezone fromisoformat
    headers attendance tz.
Let parse := parse_event_time pytz_timezone fromisoformat.

(** The meetings of the events that are kept, in the order of the events. *)
Definition kept_meetings (events : list json) : list meeting :=
  flat_map (fun event =>
              match process event with
              | Ret (Some m) => [m]
              | _ => []
              end) events.

(** The loop body runs to its end for the event. *)
Definition processed (event : json) : Prop :=
  exists outcome, process event = Ret outcome.

Lemma collect_meetings_processed events :
  Forall processed events ->
  forall meetings,
    collect_meetings json_loads http_get py_str pytz_timezone fromisoformat
      headers attendance tz events meetings
    = Ret (meetings ++ kept_meetings events).
Proof.
  induction 1 as [|event rest (outcome & Hev) _ IH]; intros meetings.
  - simpl. now rewrite app_nil_r.
  - cbn [collect_meetings kept_meetings flat_map]. fold process.
    rewrite Hev. cbn [bind]. destruct outcome as [m|].
    + rewrite IH, <- app_assoc. reflexivity.
    + rewrite IH. reflexivity.
Qed.

Lemma collect_meetings_returns events :
  forall meetings out,
    collect_meetings json_loads http_get py_str pytz_timezone fromisoformat
      headers attendance tz events meetings = Ret out ->
    Forall processed events.
Proof.
  induction events as [|event rest IH]; intros meetings out Hout;
    [constructor|].
  cbn [collect_meetings] in Hout. fold process in Hout.
  destruct (process event) as [outcome|e] eqn:Hev; [|discriminate].
  cbn [bind] in Hout. constructor; [now exists outcome|].
  destruct outcome; exact (IH _ _ Hout).
Qed.

Lemma process_event_outcome fields outcome :
  process (JObj fields) = Ret outcome ->
  exists start_local end_local,
    parse (dict_get_default fields "start" (JObj [])) tz = Ret start_local
    /\ parse (dict_get_default fields "end" (JObj [])) tz = Ret end_local
    /\ match outcome with
       | None => start_local = None \/ end_local = None
       | Some m =>
           exists start_dt end_dt,
             start_local = Some start_dt /\ end_local = Some end_dt
             /\ subject m = dict_get_default fields "subject" (JStr "No Subject")
             /\ startTime m = strftime_local start_dt
             /\ endTime m = strftime_local end_dt
       end.
Proof.
  unfold process, process_event. fold parse.
  destruct (py_iter _) as [attendee_list|]; [|discriminate]. cbn [bind].
  destruct (collect_attendees _ _ _) as [[names emails]|]; [|discriminate].
  cbn [bind].
  destruct (join_names names) as [attendees|]; [|discriminate]. cbn [bind].
  destruct (event_join_url fields) as [join_url|]; [|discriminate].
  cbn [bind].
  destruct (parse (dict_get_default fields "start" (JObj [])) tz)
    as [start_local|]; [|discriminate]. cbn [bind].
  destruct (parse (dict_get_default fields "end" (JObj [])) tz)
    as [end_local|]; [|discriminate]. cbn [bind].
  intros H. exists start_local, end_local.
  split; [reflexivity|]. split; [reflexivity|].
  destruct start_local as [start_dt|].
  - destruct end_local as [end_dt|].
    + destruct (if attendance then _ else _) as [info|]; [|discriminate].
      cbn [bind] in H. injection H as <-.
      exists start_dt, end_dt. repeat split; reflexivity.
    + injection H as <-. now right.
  - injection H as <-. now left.
Qed.

End Report.

Arguments kept_meetings json_loads http_get py_str pytz_timezone fromisoformat
  headers attendance tz events : assert.
Arguments processed json_loads http_get py_str pytz_timezone fromisoformat
  headers attendance tz event : assert.

Module ReportExamples.

Definition attendee (name address : string) : json :=
  JObj [("emailAddress",
         JObj [("name", JStr name); ("address", JStr address)])].

Definition time_part (wall : string) : json :=
  JObj [("dateTime", JStr wall); ("timeZone", JStr "UTC")].

(** An event with both times. *)
Definition planning : json :=
  JObj [ ("subject", JStr "Planning");
         ("start", time_part "2024-03-04T09:00:00.0000000");
         ("end", time_part "2024-03-04T09:30:00.0000000");
         ("attendees", JArr [ attendee "A" "a@x.com";
                              attendee "B" "b@x.com" ]) ].

(** An event whose start has no [dateTime]. *)
Definition no_start : json :=
  JObj [ ("subject", JStr "Untimed");
         ("start", JObj [("timeZone", JStr "UTC")]);
         ("end", time_part "2024-03-05T11:00:00.0000000");
         ("attendees", JArr []) ].

(** A zone database that knows UTC. *)
Definition utc_only (name : string) : option tzinfo :=
  if String.eqb name "UTC" then Some utc_zone else None.

Definition offline (req : request) : result response := Raise TransportError.

Definition planning_meeting : meeting :=
  {| subject := JStr "Planning";
     startTime := "2024-03-04 09:00:00";
     endTime := "2024-03-04 09:30:00";
     participants := "A, B";
     attendanceCount := None;
     attendanceEmails := [];
     attendeeEmails := [JStr "a@x.com"; JStr "b@x.com"] |}.

End ReportExamples.

(** ** Events as the calendar service sends them *)

Section ReportShape.

Variable json_loads : string -> option json.
Variable http_get : request -> result response.
Variable py_str : json -> string.
Variable pytz_timezone : string -> option tzinfo.
Variable fromisoformat : string -> option datetime.
Variable headers : list (string * string).
Variable attendance : bool.
Variable tz : tzinfo.

(** The times that the zones at hand take without an exception. *)
Variable timely : datetime -> Prop.

Let process :=
  process_event json_loads http_get py_str pytz_timezone fromisoformat
    headers attendance tz.
Let parse := parse_event_time pytz_timezone fromisoformat.

(** The output zone and the zones of the database localize the timely
    values into timely values, and the output zone converts them. *)
Definition zones_work : Prop :=
  (forall naive,
      timely naive ->
      exists aware, tz_localize tz naive = Ret aware /\ timely aware)
  /\ (forall name zone naive,
         pytz_timezone name = Some zone -> timely naive ->
         exists aware, tz_localize zone naive = Ret aware /\ timely aware)
  /\ (forall aware,
         timely aware -> exists local, tz_convert tz aware = Ret local).

(** A time part: absent or empty, or an object whose [dateTime] is absent,
    empty, or a text that the library reads, if it reads it, as a timely
    value, and whose [timeZone] is absent, empty or a text. *)
Definition readable_part (part : json) : Prop :=
  truthy part = false
  \/ exists fields,
       part = JObj fields
       /\ (truthy (dict_get fields "dateTime") = false
           \/ exists wall,
                dict_get fields "dateTime" = JStr wall
                /\ (truthy (dict_get fields "timeZone") = false
                    \/ exists label, dict_get fields "timeZone" = JStr label)
                /\ forall parsed,
                     fromisoformat (normalize_iso_datetime wall) = Some parsed ->
                     timely parsed).

(** A raw event: an object whose attendees are a list of invited people,
    whose online meeting, when the event has no meeting URL of its own, is
    absent, empty or an object, and whose start and end are time parts. *)
Definition raw_event (event : json) : Prop :=
  exists fields attendees people,
    event = JObj fields
    /\ dict_get_default fields "attendees" (JArr []) = JArr attendees
    /\ Forall2 invited attendees people
    /\ (truthy (dict_get fields "onlineMeetingUrl") = true
        \/ truthy (dict_get fields "onlineMeeting") = false
        \/ exists meeting, dict_get fields "onlineMeeting" = JObj meeting)
    /\ readable_part (dict_get_default fields "start" (JObj []))
    /\ readable_part (dict_get_default fields "end" (JObj [])).

(** Both time parts of the event parse. *)
Definition both_parse (event : json) : bool :=
  match event with
  | JObj fields =>
      match parse (dict_get_default fields "start" (JObj [])) tz,
            parse (dict_get_default fields "end" (JObj [])) tz with
      | Ret (Some _), Ret (Some _) => true
      | _, _ => false
      end
  | _ => false
  end.

(** The meeting carries the subject of the event and its two times, as
    parsed and printed. *)
Definition meeting_of (event : json) (m : meeting) : Prop :=
  exists fields start_dt end_dt,
    event = JObj fields
    /\ parse (dict_get_default fields "start" (JObj [])) tz
       = Ret (Some start_dt)
    /\ parse (dict_get_default fields "end" (JObj [])) tz = Ret (Some end_dt)
    /\ subject m = dict_get_default fields "subject" (JStr "No Subject")
    /\ startTime m = strftime_local start_dt
    /\ endTime m = strftime_local end_dt.

Lemma resolve_label_source label :
  resolve_label pytz_timezone label tz = tz
  \/ exists name, pytz_timezone name = Some (resolve_label pytz_timezone label tz).
Proof.
  unfold resolve_label.
  destruct (PyStr.mem "/" label).
  - destruct (pytz_timezone label) as [zone|] eqn:Hz; [right; eauto|].
    destruct (assoc label WINDOWS_TZ_MAP) as [mapped|]; [|now left].
    destruct (PyStr.is_empty mapped); [now left|].
    destruct (pytz_timezone mapped) as [zone|] eqn:Hm; [right; eauto|now left].
  - destruct (assoc label WINDOWS_TZ_MAP) as [mapped|]; [|now left].
    destruct (PyStr.is_empty mapped); [now left|].
    destruct (pytz_timezone mapped) as [zone|] eqn:Hm; [right; eauto|now left].
Qed.

Lemma readable_part_parsed part :
  zones_work -> readable_part part -> exists outcome, parse part tz = Ret outcome.
Proof.
  intros (Hlocal & Hzone & Hconvert) Hpart. unfold parse, parse_event_time.
  destruct Hpart as [Hfalse|(fields & -> & Hfields)].
  { rewrite Hfalse. now exists None. }
  destruct (negb (truthy (JObj fields))); [now exists None|].
  cbn [obj_get bind].
  destruct Hfields as [Hfalse|(wall & Hwall & Hlabel & Htimely)].
  { rewrite Hfalse. now exists None. }
  rewrite Hwall. destruct (negb (truthy (JStr wall))); [now exists None|].
  destruct (fromisoformat (normalize_iso_datetime wall)) as [parsed|] eqn:Hp;
    [|now exists None].
  specialize (Htimely parsed eq_refl).
  assert (Hsource : forall zone,
             zone = tz \/ (exists name, pytz_timezone name = Some zone) ->
             exists local,
               (aware <- tz_localize zone parsed ;;
                local <- tz_convert tz aware ;;
                Ret (Some local))%py = Ret local).
  { intros zone Hzone'.
    assert (exists aware, tz_localize zone parsed = Ret aware /\ timely aware)
      as (aware & -> & Haware).
    { destruct Hzone' as [->|(name & Hname)];
        [exact (Hlocal _ Htimely)|exact (Hzone _ _ _ Hname Htimely)]. }
    cbn [bind]. destruct (Hconvert aware Haware) as (local & ->).
    cbn [bind]. eauto. }
  destruct (utcoffset parsed) as [off|].
  - cbn [bind]. destruct (Hconvert parsed Htimely) as (local & ->).
    cbn [bind]. eauto.
  - cbn [obj_get bind]. unfold resolve_timezone.
    destruct Hlabel as [Hfalse|(label & ->)].
    + rewrite Hfalse. cbn [negb bind]. apply Hsource. now left.
    + destruct (negb (truthy (JStr label))); cbn [bind].
      * apply Hsource. now left.
      * apply Hsource. exact (resolve_label_source label).
Qed.

Lemma raw_event_processed event :
  zones_work -> raw_event event ->
  processed json_loads http_get py_str pytz_timezone fromisoformat headers
    attendance tz event.
Proof.
  intros Hzones (fields & attendees & people & -> & Hatt & Hinv & Hjoin
                 & Hstart & Hend).
  destruct (readable_part_parsed _ Hzones Hstart) as (start_local & Hs).
  destruct (readable_part_parsed _ Hzones Hend) as (end_local & He).
  unfold processed, process_event. rewrite Hatt. cbn [py_iter bind].
  rewrite (collect_attendees_invited _ _ Hinv). cbn [bind app].
  unfold join_names. rewrite as_strings_texts. cbn [bind].
  assert (Hurl : exists join_url, event_join_url fields = Ret join_url).
  { unfold event_join_url.
    destruct (truthy (dict_get fields "onlineMeetingUrl")) eqn:Hdirect;
      [eauto|].
    destruct Hjoin as [Hd|[Hnone|(meeting & Hm)]]; [discriminate| |].
    - unfold py_or. rewrite Hnone. cbn [obj_get]. eauto.
    - unfold py_or. rewrite Hm.
      destruct (truthy (JObj meeting)); cbn [obj_get]; eauto. }
  destruct Hurl as (join_url & ->). cbn [bind].
  fold parse. rewrite Hs, He. cbn [bind].
  destruct start_local as [start_dt|]; [|eauto].
  destruct end_local as [end_dt|]; [|eauto].
  destruct attendance.
  - destruct (fetch_never_raises json_loads http_get py_str headers join_url)
      as [info ->]. cbn [bind]. eauto.
  - cbn [bind]. eauto.
Qed.

Lemma kept_meetings_parsable events :
  Forall (processed json_loads http_get py_str pytz_timezone fromisoformat
            headers attendance tz) events ->
  Forall2 meeting_of (filter both_parse events)
    (kept_meetings json_loads http_get py_str pytz_timezone fromisoformat
       headers attendance tz events).
Proof.
  induction 1 as [|event rest (outcome & Hev) _ IH]; [constructor|].
  cbn [kept_meetings flat_map filter]. fold process in Hev |- *.
  rewrite Hev.
  destruct event as [| | | | |fields];
    try (unfold process, process_event in Hev; discriminate Hev).
  destruct (process_event_outcome _ _ _ _ _ _ _ _ _ _ Hev)
    as (start_local & end_local & Hs & He & Hshape).
  unfold both_parse. fold parse in Hs, He. rewrite Hs, He.
  destruct outcome as [m|].
  - destruct Hshape as (start_dt & end_dt & -> & -> & Hsub & Hst & Hen).
    cbn [app]. constructor; [|exact IH].
    exists fields, start_dt, end_dt. repeat split; assumption.
  - destruct Hshape as [-> | ->]; [exact IH|].
    destruct start_local; exact IH.
Qed.

End ReportShape.

Arguments zones_work pytz_timezone tz timely : assert.
Arguments readable_part fromisoformat timely part : assert.
Arguments raw_event fromisoformat timely event : assert.
Arguments both_parse pytz_timezone fromisoformat tz event : assert.
Arguments meeting_of pytz_timezone fromisoformat tz event m : assert.

Module ShapeExamples.

(** An event whose start carries a number where the text of the time is
    expected. *)
Definition numbered_start : json :=
  JObj [ ("subject", JStr "Numbered");
         ("start", JObj [("dateTime", JInt 20240304); ("timeZone", JStr "UTC")]);
         ("end", ReportExamples.time_part "2024-03-05T11:00:00.0000000");
         ("attendees", JArr []) ].

(** Wall-clock times without an offset or at the offset zero. *)
Definition utc_time (dt : datetime) : Prop :=
  valid_wall dt /\ (utcoffset dt = None \/ utcoffset dt = Some 0).

Lemma utc_zone_localizes naive :
  utc_time naive ->
  exists aware, tz_localize utc_zone naive = Ret aware /\ utc_time aware.
Proof.
  intros [Hwall _]. eexists. split; [reflexivity|].
  split; [exact Hwall|now right].
Qed.

Lemma utc_zones_work : zones_work ReportExamples.utc_only utc_zone utc_time.
Proof.
  split; [exact utc_zone_localizes|]. split.
  - intros name zone naive Hname. unfold ReportExamples.utc_only in Hname.
    destruct (String.eqb name "UTC"); [|discriminate].
    injection Hname as <-. exact (utc_zone_localizes naive).
  - intros aware [Hwall Hoff]. cbn [tz_convert utc_zone].
    assert (Hinstant : instant aware = wall_micros aware).
    { unfold instant. destruct Hoff as [-> | ->]; lia. }
    rewrite Hinstant, (of_wall_micros_wall aware 0 Hwall). eauto.
Qed.

Lemma planning_raw :
  raw_event IsoText.fromisoformat_basic utc_time ReportExamples.planning.
Proof.
  eexists. exists [ReportExamples.attendee "A" "a@x.com";
                   ReportExamples.attendee "B" "b@x.com"],
                  [("A", "a@x.com"); ("B", "b@x.com")].
  split; [reflexivity|]. split; [reflexivity|]. split.
  { repeat constructor;
      (eexists; eexists; split; [reflexivity|];
       split; [reflexivity|]; split; reflexivity). }
  split; [right; left; reflexivity|].
  split; right; eexists; (split; [reflexivity|]); right; eexists;
    (split; [reflexivity|]); (split; [right; eexists; reflexivity|]);
    intros parsed H; vm_compute in H; injection H as <-;
    (split; [unfold valid_wall; vm_compute; repeat split; discriminate
            |now left]).
Qed.

Lemma no_start_raw :
  raw_event IsoText.fromisoformat_basic utc_time ReportExamples.no_start.
Proof.
  eexists. exists [], [].
  split; [reflexivity|]. split; [reflexivity|]. split; [constructor|].
  split; [right; left; reflexivity|].
  split; right; eexists; (split; [reflexivity|]).
  - left. reflexivity.
  - right. eexists. split; [reflexivity|].
    split; [right; eexists; reflexivity|].
    intros parsed H. vm_compute in H. injection H as <-.
    split; [unfold valid_wall; vm_compute; repeat split; discriminate
           |now left].
Qed.

End ShapeExamples.

(** C9 as the specification words it: every list of events gives a report
    with the events whose times both parse, and with their number. *)
Definition every_event_list_reported : Prop :=
  forall json_loads http_get py_str pytz_timezone fromisoformat headers
         attendance tz month_key events,
    exists report,
      assemble_report json_loads http_get py_str pytz_timezone fromisoformat
        headers attendance tz month_key events = Ret report
      /\ report_count report
         = Z.of_nat (List.length (report_meetings report))
      /\ Forall2 (meeting_of pytz_timezone fromisoformat tz)
           (filter (both_parse pytz_timezone fromisoformat tz) events)
           (report_meetings report).

(** C9, counterexample: an event whose start carries a number for its
    [dateTime] is not dropped: it ends the run with an exception, and
    there is no report. *)
Lemma C9_numbered_time_aborts : ~ every_event_list_reported.
Proof.
  intros claim.
  destruct (claim JsonText.json_loads_lite ReportExamples.offline
              (fun _ => EmptyString) ReportExamples.utc_only
              IsoText.fromisoformat_basic [] false utc_zone "2024-03"
              [ReportExamples.planning; ShapeExamples.numbered_start])
    as (report & Hreport & _).
  vm_compute in Hreport. discriminate Hreport.
Qed.

(** C9, amended: for events as the calendar service sends them (objects
    with a list of invited attendees, an online meeting that is absent or
    an object, and start and end parts that are absent or objects with a
    [dateTime] and a [timeZone] that are absent or texts) and zones that
    take their times, the report holds, in the order of the events, the
    meetings of exactly the events whose start and end both parse, and its
    count is their number.  Whenever there is a report, it is that one.  Of
    an event with both times and an event without a start time, only the
    first is in the report, and the count is 1. *)
Theorem C9_report_keeps_parsable_events :
  (forall json_loads http_get py_str pytz_timezone fromisoformat headers
          attendance tz timely month_key events,
      zones_work pytz_timezone tz timely ->
      Forall (raw_event fromisoformat timely) events ->
      exists meetings,
        assemble_report json_loads http_get py_str pytz_timezone
          fromisoformat headers attendance tz month_key events
        = Ret {| report_month := month_key;
                 report_count := Z.of_nat (List.length meetings);
                 report_meetings := meetings |}
        /\ Forall2 (meeting_of pytz_timezone fromisoformat tz)
             (filter (both_parse pytz_timezone fromisoformat tz) events)
             meetings)
  /\
  (forall json_loads http_get py_str pytz_timezone fromisoformat headers
          attendance tz month_key events report,
      assemble_report json_loads http_get py_str pytz_timezone fromisoformat
        headers attendance tz month_key events = Ret report ->
      report_count report = Z.of_nat (List.length (report_meetings report))
      /\ Forall2 (meeting_of pytz_timezone fromisoformat tz)
           (filter (both_parse pytz_timezone fromisoformat tz) events)
           (report_meetings report))
  /\
  assemble_report JsonText.json_loads_lite ReportExamples.offline
    (fun _ => EmptyString) ReportExamples.utc_only IsoText.fromisoformat_basic
    [] false utc_zone "2024-03"
    [ReportExamples.planning; ReportExamples.no_start]
  = Ret {| report_month := "2024-03";
           report_count := 1;
           report_meetings := [ReportExamples.planning_meeting] |}.
Proof.
  split; [|split; [|vm_compute; reflexivity]].
  - intros json_loads http_get py_str pytz_timezone fromisoformat headers
           attendance tz timely month_key events Hzones Hraw.
    assert (Hall : Forall (processed json_loads http_get py_str pytz_timezone
                             fromisoformat headers attendance tz) events).
    { revert Hraw. apply Forall_impl. intros event.
      now apply raw_event_processed. }
    exists (kept_meetings json_loads http_get py_str pytz_timezone
              fromisoformat headers attendance tz events).
    split; [|now apply kept_meetings_parsable].
    unfold assemble_report.
    rewrite (collect_meetings_processed _ _ _ _ _ _ _ _ _ Hall). reflexivity.
  - intros json_loads http_get py_str pytz_timezone fromisoformat headers
           attendance tz month_key events report Hreport.
    unfold assemble_report in Hreport.
    destruct (collect_meetings _ _ _ _ _ _ _ _ _ _) as [meetings|] eqn:Hc;
      [|discriminate].
    cbn [bind] in Hreport. injection Hreport as <-.
    cbn [report_count report_meetings]. split; [reflexivity|].
    pose proof (collect_meetings_returns _ _ _ _ _ _ _ _ _ _ _ Hc) as Hall.
    rewrite (collect_meetings_processed _ _ _ _ _ _ _ _ _ Hall) in Hc.
    injection Hc as <-. now apply kept_meetings_parsable.
Qed.

Lemma C9_report_keeps_parsable_events_witness :
  exists meetings,
    assemble_report JsonText.json_loads_lite ReportExamples.offline
      (fun _ => EmptyString) ReportExamples.utc_only
      IsoText.fromisoformat_basic [] true utc_zone "2024-03"
      [ReportExamples.no_start; ReportExamples.planning]
    = Ret {| report_month := "2024-03";
             report_count := Z.of_nat (List.length meetings);
             report_meetings := meetings |}
    /\ Forall2 (meeting_of ReportExamples.utc_only
                  IsoText.fromisoformat_basic utc_zone)
         (filter (both_parse ReportExamples.utc_only
                    IsoText.fromisoformat_basic utc_zone)
            [ReportExamples.no_start; ReportExamples.planning])
         meetings.
Proof.
  apply (proj1 C9_report_keeps_parsable_events JsonText.json_loads_lite ReportExamples.offline
           (fun _ => EmptyString) ReportExamples.utc_only
           IsoText.fromisoformat_basic [] true utc_zone
           ShapeExamples.utc_time "2024-03"
           [ReportExamples.no_start; ReportExamples.planning]).
  - exact ShapeExamples.utc_zones_work.
  - repeat constructor;
      [exact ShapeExamples.no_start_raw|exact ShapeExamples.planning_raw].
Defined.

(** * Further properties of the script *)

(** ** The shape test *)

Lemma split_parts_clean sep s :
  Forall (fun part => PyStr.mem sep part = false) (PyStr.split sep s).
Proof.
  induction s as [|c rest IH]; simpl.
  - constructor; [reflexivity | constructor].
  - destruct (Ascii.eqb c sep) eqn:Hc.
    + constructor; [reflexivity | exact IH].
    + destruct (PyStr.split sep rest) as [|hd tl].
      * constructor; [simpl; now rewrite Hc | constructor].
      * inversion IH as [|? ? Hhd Htl]; subst.
        constructor; [simpl; now rewrite Hc, Hhd | exact Htl].
Qed.

Lemma split_not_empty sep s : PyStr.split sep s <> [].
Proof.
  destruct s as [|c rest]; simpl; [discriminate|].
  destruct (Ascii.eqb c sep); [discriminate|].
  destruct (PyStr.split sep rest); discriminate.
Qed.

Lemma join_split sep s :
  PyStr.join (String sep EmptyString) (PyStr.split sep s) = s.
Proof.
  induction s as [|c rest IH]; [reflexivity|].
  simpl. destruct (Ascii.eqb c sep) eqn:Hc.
  - apply Ascii.eqb_eq in Hc. subst c.
    pose proof (split_not_empty sep rest) as Hne.
    destruct (PyStr.split sep rest) as [|hd tl]; [contradiction|].
    cbn [PyStr.join]. simpl in *. now rewrite IH.
  - pose proof (split_not_empty sep rest) as Hne.
    destruct (PyStr.split sep rest) as [|hd tl]; [contradiction|].
    destruct tl as [|hd2 tl2]; simpl in *; now rewrite <- IH.
Qed.

(** [value] is three dot-free parts joined by dots. *)
Definition three_parts (value a b c : string) : Prop :=
  value = (a ++ "." ++ b ++ "." ++ c)%string
  /\ PyStr.mem "." a = false /\ PyStr.mem "." b = false
  /\ PyStr.mem "." c = false.

(** X1: [looks_like_jwt] accepts exactly the texts made of three parts
    without a dot, joined by two dots, each part longer than 10. *)
Theorem looks_like_jwt_iff value :
  looks_like_jwt value = true <->
  exists a b c,
    three_parts value a b c
    /\ (10 < String.length a)%nat /\ (10 < String.length b)%nat
    /\ (10 < String.length c)%nat.
Proof.
  unfold looks_like_jwt, three_parts. split.
  - intros H.
    pose proof (join_split "." value) as Hjoin.
    pose proof (split_parts_clean "." value) as Hclean.
    destruct (PyStr.split "." value) as [|a [|b [|c [|d rest]]]];
      try discriminate.
    simpl in H. apply andb_true_iff in H. destruct H as [Ha H].
    apply andb_true_iff in H. destruct H as [Hb H].
    apply andb_true_iff in H. destruct H as [Hc _].
    apply Nat.ltb_lt in Ha, Hb, Hc.
    inversion Hclean as [|? ? Ca Hclean']; clear Hclean.
    inversion Hclean' as [|? ? Cb Hclean'']; clear Hclean'.
    inversion Hclean'' as [|? ? Cc _]; clear Hclean''.
    exists a, b, c. repeat split; try assumption.
    symmetry. exact Hjoin.
  - intros (a & b & c & (-> & Ca & Cb & Cc) & Ha & Hb & Hc).
    change ("." ++ b ++ "." ++ c)%string
      with (String "."%char (b ++ String "."%char c)).
    rewrite split_at_separator by exact Ca.
    rewrite split_at_separator by exact Cb.
    rewrite split_without_separator by exact Cc.
    simpl. apply Nat.ltb_lt in Ha, Hb, Hc. now rewrite Ha, Hb, Hc.
Qed.

Lemma looks_like_jwt_iff_witness :
  looks_like_jwt "eyJhbGciOiJI.eyJzdWIiOiIx.c2lnbmF0dXJl" = true.
Proof.
  apply (proj2 (looks_like_jwt_iff _)).
  exists "eyJhbGciOiJI", "eyJzdWIiOiIx", "c2lnbmF0dXJl".
  split; [repeat split; reflexivity|].
  cbn [String.length]. lia.
Defined.

(** ** Tokens inside objects *)

(** [data] holds a token-shaped text under [key]. *)
Definition named_token (data : dict) (key : string) (token : string) : Prop :=
  dict_get data key = JStr token /\ looks_like_jwt token = true.

(** [data] holds no token-shaped text under [key]. *)
Definition no_named_token (data : dict) (key : string) : Prop :=
  forall token, dict_get data key = JStr token -> looks_like_jwt token = false.

Lemma token_by_name_skip data key rest :
  no_named_token data key ->
  token_by_name data (key :: rest) = token_by_name data rest.
Proof.
  intros H. simpl. destruct (dict_get data key) eqn:Hk; try reflexivity.
  now rewrite (H s Hk).
Qed.

Lemma token_by_name_hit data key rest token :
  named_token data key token ->
  token_by_name data (key :: rest) = Some token.
Proof. intros [Hk Hj]. simpl. now rewrite Hk, Hj. Qed.

(** X2: [extract_token_from_object] looks at the fields [secret],
    [accessToken] and [access_token] of the object itself, in that order,
    before any nested object: the first of them that holds a token-shaped
    text is the result, and only when none does are the nested objects
    searched, in field order. *)
Theorem extract_token_named_fields_first data :
  (forall token,
      named_token data "secret" token ->
      extract_token_from_object data = Some token)
  /\ (forall token,
         no_named_token data "secret" ->
         named_token data "accessToken" token ->
         extract_token_from_object data = Some token)
  /\ (forall token,
         no_named_token data "secret" ->
         no_named_token data "accessToken" ->
         named_token data "access_token" token ->
         extract_token_from_object data = Some token)
  /\ (no_named_token data "secret" ->
      no_named_token data "accessToken" ->
      no_named_token data "access_token" ->
      extract_token_from_object data = token_in_values (dict_values data)).
Proof.
  rewrite extract_token_from_object_eq. unfold token_keys.
  split; [|split; [|split]].
  - intros token H. now rewrite (token_by_name_hit _ _ _ _ H).
  - intros token H1 H2.
    now rewrite (token_by_name_skip _ _ _ H1), (token_by_name_hit _ _ _ _ H2).
  - intros token H1 H2 H3.
    now rewrite (token_by_name_skip _ _ _ H1), (token_by_name_skip _ _ _ H2),
      (token_by_name_hit _ _ _ _ H3).
  - intros H1 H2 H3.
    now rewrite (token_by_name_skip _ _ _ H1), (token_by_name_skip _ _ _ H2),
      (token_by_name_skip _ _ _ H3).
Qed.

Lemma extract_token_named_fields_first_witness :
  extract_token_from_object
    [ ("cache", JObj [("secret", JStr "nnnnnnnnnnn.eeeeeeeeeee.sssssssssss")]);
      ("secret", JStr "short");
      ("accessToken", JStr "aaaaaaaaaaa.ccccccccccc.ttttttttttt") ]
  = Some "aaaaaaaaaaa.ccccccccccc.ttttttttttt".
Proof.
  apply (proj1 (proj2 (extract_token_named_fields_first _))).
  - intros token H. vm_compute in H. injection H as <-. reflexivity.
  - split; reflexivity.
Defined.

(** A token-shaped text that the search can reach: under one of the three
    names, in the object itself or in an object nested through fields. *)
Inductive reachable_token : json -> string -> Prop :=
| reach_named data key token :
    In key token_keys -> named_token data key token ->
    reachable_token (JObj data) token
| reach_nested data key fields token :
    In (key, JObj fields) data ->
    reachable_token (JObj fields) token ->
    reachable_token (JObj data) token.

Lemma token_by_name_none data keys :
  token_by_name data keys = None ->
  forall key, In key keys -> no_named_token data key.
Proof.
  induction keys as [|k rest IH]; intros H key Hin; [destruct Hin|].
  simpl in H. intros token Hk.
  destruct Hin as [->|Hin].
  - rewrite Hk in H. destruct (looks_like_jwt token); [discriminate|reflexivity].
  - refine (IH _ key Hin token Hk).
    destruct (dict_get data k); try exact H.
    destruct (looks_like_jwt s); [discriminate | exact H].
Qed.

Lemma token_by_name_some data keys token :
  token_by_name data keys = Some token ->
  exists key, In key keys /\ named_token data key token.
Proof.
  induction keys as [|k rest IH]; simpl; [discriminate|].
  intros H.
  assert (Hrest : token_by_name data rest = Some token ->
                  exists key, In key (k :: rest) /\ named_token data key token).
  { intros Hr. destruct (IH Hr) as (key & Hin & Hn).
    exists key. split; [now right | exact Hn]. }
  destruct (dict_get data k) eqn:Hk; try exact (Hrest H).
  destruct (looks_like_jwt s) eqn:Hj; [|exact (Hrest H)].
  injection H as <-. exists k. split; [now left | now split].
Qed.

(** X3: [extract_token_from_object] finds a token exactly when one can be
    reached through nested objects under one of the three names; it never
    looks inside lists.  What it returns is such a token. *)
Theorem extract_token_reachability v :
  (forall token,
      extract_token_from_value v = Some token -> reachable_token v token)
  /\ (extract_token_from_value v = None ->
      forall token, ~ reachable_token v token).
Proof.
  induction v using json_nested_ind;
    try (split; [discriminate | intros _ token Hr; inversion Hr]).
  change (extract_token_from_value (JObj d))
    with (extract_token_from_object d).
  rewrite extract_token_from_object_eq.
  destruct (token_by_name d token_keys) as [found|] eqn:Hnamed.
  - split; [|discriminate].
    intros token [= <-].
    destruct (token_by_name_some _ _ _ Hnamed) as (key & Hin & Hn).
    exact (reach_named d key found Hin Hn).
  - pose proof (token_by_name_none _ _ Hnamed) as Hnone.
    assert (Hvalues :
      (forall token,
          token_in_values (dict_values d) = Some token ->
          exists key fields,
            In (key, JObj fields) d /\ reachable_token (JObj fields) token)
      /\ (token_in_values (dict_values d) = None ->
          forall key fields token,
            In (key, JObj fields) d ->
            ~ reachable_token (JObj fields) token)).
    { clear Hnamed Hnone. unfold dict_values.
      induction d as [|[k x] rest IH]; simpl.
      - split; [discriminate|]. intros _ key fields token [].
      - inversion H as [|? ? Hx Hrest]; subst. simpl in Hx.
        destruct (IH Hrest) as [IHsome IHnone].
        assert (Hskip :
          (forall fields, x <> JObj fields) ->
          (forall token,
              token_in_values (map snd rest) = Some token ->
              exists key fields,
                ((k, x) = (key, JObj fields) \/ In (key, JObj fields) rest)
                /\ reachable_token (JObj fields) token)
          /\ (token_in_values (map snd rest) = None ->
              forall key fields token,
                (k, x) = (key, JObj fields) \/ In (key, JObj fields) rest ->
                ~ reachable_token (JObj fields) token)).
        { intros Hx'. split.
          - intros token Ht. destruct (IHsome token Ht) as (key & f & Hin & Hr).
            exists key, f. split; [now right | exact Hr].
          - intros Hn key f token [[= _ ->]|Hin]; [now contradiction (Hx' f)|].
            exact (IHnone Hn key f token Hin). }
        destruct x; try (apply Hskip; discriminate).
        unfold extract_token_from_object.
        destruct Hx as [Hxsome Hxnone].
        destruct (extract_token_from_value (JObj fields)) as [tok|] eqn:He.
        + split; [|discriminate]. intros token [= <-].
          exists k, fields. split; [now left | exact (Hxsome _ eq_refl)].
        + split.
          * intros token Ht. destruct (IHsome token Ht) as (key & f & Hin & Hr).
            exists key, f. split; [now right | exact Hr].
          * intros Hn key f token [[= <- <-]|Hin].
            -- exact (Hxnone eq_refl token).
            -- exact (IHnone Hn key f token Hin). }
    destruct Hvalues as [Hsome Hnonev]. split.
    + intros token Ht. destruct (Hsome token Ht) as (key & fields & Hin & Hr).
      exact (reach_nested d key fields token Hin Hr).
    + intros Hn token Hr.
      inversion Hr as [? key ? Hin [Hk Hj]|? key fields ? Hin Hr']; subst.
      * rewrite (Hnone key Hin token Hk) in Hj. discriminate.
      * exact (Hnonev Hn key fields token Hin Hr').
Qed.

Lemma extract_token_reachability_witness :
  reachable_token
    (JObj [("cache",
            JObj [("secret", JStr "nnnnnnnnnnn.eeeeeeeeeee.sssssssssss")])])
    "nnnnnnnnnnn.eeeeeeeeeee.sssssssssss"
  /\ ~ reachable_token
         (JObj [("tokens",
                 JArr [JObj [("secret",
                              JStr "nnnnnnnnnnn.eeeeeeeeeee.sssssssssss")]])])
         "nnnnnnnnnnn.eeeeeeeeeee.sssssssssss".
Proof.
  split.
  - apply (proj1 (extract_token_reachability _)). reflexivity.
  - apply (proj2 (extract_token_reachability _)). reflexivity.
Defined.

(** ** A target that is not text *)

Lemma prefer_graph_raises before token after :
  (forall p, In p before -> passed_over p) ->
  target_lower token = Raise AttributeError ->
  prefer_graph (before ++ token :: after) = Raise AttributeError.
Proof.
  intros Hb Ht. induction before as [|p rest IH]; simpl.
  - now rewrite Ht.
  - destruct (Hb p (or_introl eq_refl)) as (tp & Htp & Hp).
    rewrite Htp. simpl.
    assert (IH' : prefer_graph (rest ++ token :: after) = Raise AttributeError).
    { apply IH. intros q Hq. apply Hb. now right. }
    destruct Hp as [Hp|Hp].
    + now rewrite Hp.
    + rewrite Hp. now destruct (PyStr.contains GRAPH_HOST tp).
Qed.

(** X4: [extract_access_token] is not total.  When no entry yields a value
    through the generic scan and the first tagged entry that is not passed
    over has a target that is neither empty nor text (a number, a list, an
    object), taking its lower case raises [AttributeError], outside any
    [try]. *)
Theorem extract_access_token_raises_on_target :
  forall json_loads entries before token after,
    (forall e, In e entries -> entry_token json_loads (snd e) = None) ->
    tagged_in_storage json_loads entries = before ++ token :: after ->
    (forall p, In p before -> passed_over p) ->
    truthy (dict_get token "target") = true ->
    (forall s, dict_get token "target" <> JStr s) ->
    extract_access_token json_loads (storage entries) = Raise AttributeError.
Proof.
  intros json_loads entries before token after Hsilent Htag Hb Htruthy Hnot.
  unfold extract_access_token, storage. simpl.
  rewrite scan_entries_eq, (first_entry_token_silent _ _ Hsilent). simpl.
  rewrite Htag, prefer_graph_raises; [reflexivity | exact Hb|].
  unfold target_lower, py_or. rewrite Htruthy.
  destruct (dict_get token "target") eqn:Ht; try reflexivity.
  now contradiction (Hnot s).
Qed.

Lemma extract_access_token_raises_on_target_witness :
  extract_access_token JsonText.json_loads_lite
    (storage [("msal.token",
               JsonText.json_dumps
                 (JObj [ ("credentialType", JStr "AccessToken");
                         ("target", JArr [JStr "https://graph.microsoft.com"]);
                         ("secret", JStr "opaque") ]))])
  = Raise AttributeError.
Proof.
  apply (extract_access_token_raises_on_target JsonText.json_loads_lite _
           []
           [ ("credentialType", JStr "AccessToken");
             ("target", JArr [JStr "https://graph.microsoft.com"]);
             ("secret", JStr "opaque") ]
           []).
  - intros e [<-|[]]. vm_compute. reflexivity.
  - vm_compute. reflexivity.
  - intros p [].
  - reflexivity.
  - intros s H. vm_compute in H. discriminate H.
Defined.

(** ** Quoting a join URL *)

Lemma escape_append a b :
  escape_odata_string (a ++ b)
  = (escape_odata_string a ++ escape_odata_string b)%string.
Proof.
  unfold escape_odata_string.
  induction a as [|c rest IH]; [reflexivity|].
  simpl. destruct (Ascii.eqb c "'"); simpl; now rewrite IH.
Qed.

Lemma escape_injective a b :
  escape_odata_string a = escape_odata_string b -> a = b.
Proof.
  unfold escape_odata_string. revert b.
  induction a as [|c a IH]; intros [|d b]; simpl.
  - reflexivity.
  - destruct (Ascii.eqb d "'"); discriminate.
  - destruct (Ascii.eqb c "'"); discriminate.
  - destruct (Ascii.eqb c "'") eqn:Hc, (Ascii.eqb d "'") eqn:Hd.
    + apply Ascii.eqb_eq in Hc, Hd. subst. intros [= H]. now rewrite (IH _ H).
    + intros [= <- H]. now rewrite Ascii.eqb_refl in Hd.
    + intros [= -> H]. now rewrite Ascii.eqb_refl in Hc.
    + intros [= <- H]. now rewrite (IH _ H).
Qed.

(** X5: [escape_odata_string] doubles every single quote and nothing else:
    a text without a quote is unchanged, a quote between two texts becomes
    two quotes between their escapes, and two different texts never have the
    same escape.  The filter of the meeting lookup carries the escaped URL
    between quotes. *)
Theorem escape_odata_string_doubles_quotes :
  (forall s, PyStr.mem "'" s = false -> escape_odata_string s = s)
  /\ (forall a b,
         escape_odata_string (a ++ "'" ++ b)
         = (escape_odata_string a ++ "''" ++ escape_odata_string b)%string)
  /\ (forall a b, escape_odata_string a = escape_odata_string b -> a = b)
  /\ (forall a b,
         join_filter (a ++ "'" ++ b)
         = ("joinWebUrl eq '" ++ escape_odata_string a ++ "''"
            ++ escape_odata_string b ++ "'")%string).
Proof.
  assert (Hquote : forall a b,
             escape_odata_string (a ++ "'" ++ b)
             = (escape_odata_string a ++ "''" ++ escape_odata_string b)%string).
  { intros a b. now rewrite escape_append. }
  split; [|split; [exact Hquote|split; [exact escape_injective|]]].
  - unfold escape_odata_string.
    induction s as [|c rest IH]; simpl; [reflexivity|].
    intros H. apply orb_false_iff in H. destruct H as [Hc Hrest].
    now rewrite Hc, (IH Hrest).
  - intros a b. unfold join_filter. rewrite Hquote.
    now rewrite !append_assoc.
Qed.

Lemma escape_odata_string_doubles_quotes_witness :
  escape_odata_string "https://teams.example/join" = "https://teams.example/join".
Proof.
  apply (proj1 escape_odata_string_doubles_quotes). reflexivity.
Defined.

(** ** Other shapes of ISO text *)

Lemma append_empty_r (s : string) : (s ++ "")%string = s.
Proof. induction s as [|c rest IH]; simpl; [reflexivity|]. now rewrite IH. Qed.

Lemma normalize_not_zulu value :
  PyStr.endswith "Z" value = false ->
  normalize_iso_datetime value =
  if negb (PyStr.mem "." value) then value
  else
    let (base, rest) := PyStr.split1 "." value in
    let (frac, offset) :=
      if PyStr.mem "+" rest then
        let (frac, offset) := PyStr.split1 "+" rest in
        (frac, String "+" offset)
      else if PyStr.mem "-" rest then
        let (frac, offset) := PyStr.split1 "-" rest in
        (frac, String "-" offset)
      else (rest, EmptyString) in
    (base ++ "." ++ six_digits frac ++ offset)%string.
Proof. intros H. unfold normalize_iso_datetime. now rewrite H. Qed.

(** X6: what [normalize_iso_datetime] does to the other shapes of text.  A
    text without a dot is returned as it is, but for a final Z, which
    becomes [+00:00].  With a fraction and an offset [+hh:mm] or [-hh:mm],
    or no offset, the fraction is brought to six characters and the offset
    is kept; dashes before the dot (those of the date) play no part. *)
Theorem normalize_iso_datetime_shapes :
  (forall value,
      PyStr.mem "." value = false -> PyStr.endswith "Z" value = false ->
      normalize_iso_datetime value = value)
  /\ (forall value,
         PyStr.mem "." value = false ->
         normalize_iso_datetime (value ++ "Z") = (value ++ "+00:00")%string)
  /\ (forall base frac offset,
         PyStr.mem "." base = false -> PyStr.mem "+" frac = false ->
         PyStr.endswith "Z" (base ++ "." ++ frac ++ "+" ++ offset) = false ->
         normalize_iso_datetime (base ++ "." ++ frac ++ "+" ++ offset)
         = (base ++ "." ++ six_digits frac ++ "+" ++ offset)%string)
  /\ (forall base frac offset,
         PyStr.mem "." base = false ->
         PyStr.mem "+" frac = false -> PyStr.mem "-" frac = false ->
         PyStr.mem "+" offset = false ->
         PyStr.endswith "Z" (base ++ "." ++ frac ++ "-" ++ offset) = false ->
         normalize_iso_datetime (base ++ "." ++ frac ++ "-" ++ offset)
         = (base ++ "." ++ six_digits frac ++ "-" ++ offset)%string)
  /\ (forall base frac,
         PyStr.mem "." base = false ->
         PyStr.mem "+" frac = false -> PyStr.mem "-" frac = false ->
         PyStr.endswith "Z" (base ++ "." ++ frac) = false ->
         normalize_iso_datetime (base ++ "." ++ frac)
         = (base ++ "." ++ six_digits frac)%string).
Proof.
  split; [|split; [|split; [|split]]].
  - intros value Hdot Hz. rewrite (normalize_not_zulu _ Hz). now rewrite Hdot.
  - intros value Hdot. unfold normalize_iso_datetime.
    change (value ++ "Z")%string with (value ++ String "Z" EmptyString)%string.
    rewrite endswith_append, drop_last_append.
    rewrite mem_append, Hdot. reflexivity.
  - intros base frac offset Hbase Hfrac Hz. rewrite (normalize_not_zulu _ Hz).
    change (base ++ "." ++ frac ++ "+" ++ offset)%string
      with (base ++ String "." (frac ++ String "+" offset))%string.
    rewrite mem_append. cbn [PyStr.mem Ascii.eqb Bool.eqb]. cbn [orb andb].
    rewrite orb_true_r. cbn [negb].
    rewrite (split1_at_separator "." base _ Hbase).
    rewrite mem_append. cbn [PyStr.mem Ascii.eqb Bool.eqb]. cbn [orb andb].
    rewrite orb_true_r.
    rewrite (split1_at_separator "+" frac _ Hfrac). reflexivity.
  - intros base frac offset Hbase Hplus Hminus Hoff Hz.
    rewrite (normalize_not_zulu _ Hz).
    change (base ++ "." ++ frac ++ "-" ++ offset)%string
      with (base ++ String "." (frac ++ String "-" offset))%string.
    rewrite mem_append. cbn [PyStr.mem Ascii.eqb Bool.eqb]. cbn [orb andb].
    rewrite orb_true_r. cbn [negb].
    rewrite (split1_at_separator "." base _ Hbase).
    rewrite mem_append, Hplus. cbn [PyStr.mem Ascii.eqb Bool.eqb orb andb].
    rewrite Hoff.
    rewrite mem_append. cbn [PyStr.mem Ascii.eqb Bool.eqb]. cbn [orb andb].
    rewrite orb_true_r.
    rewrite (split1_at_separator "-" frac _ Hminus). reflexivity.
  - intros base frac Hbase Hplus Hminus Hz.
    rewrite (normalize_not_zulu _ Hz).
    change (base ++ "." ++ frac)%string with (base ++ String "." frac)%string.
    rewrite mem_append. cbn [PyStr.mem Ascii.eqb Bool.eqb]. cbn [orb andb].
    rewrite orb_true_r. cbn [negb].
    rewrite (split1_at_separator "." base _ Hbase).
    rewrite Hplus, Hminus. now rewrite append_empty_r.
Qed.

Lemma normalize_iso_datetime_shapes_witness :
  normalize_iso_datetime "2024-03-04T09:00:00.0000000-05:00"
  = "2024-03-04T09:00:00.000000-05:00".
Proof.
  apply (proj1 (proj2 (proj2 (proj2 normalize_iso_datetime_shapes)))
           "2024-03-04T09:00:00" "0000000" "05:00"); reflexivity.
Defined.

(** ** Zones of event times *)

Lemma assoc_in key table value :
  assoc key table = Some value -> In (key, value) table.
Proof.
  induction table as [|[k v] rest IH]; simpl; [discriminate|].
  destruct (String.eqb k key) eqn:Hk.
  - apply String.eqb_eq in Hk. intros [= <-]. left. now subst.
  - intros H. right. exact (IH H).
Qed.

Lemma windows_names_not_empty label name :
  assoc label WINDOWS_TZ_MAP = Some name -> PyStr.is_empty name = false.
Proof.
  intros H. apply assoc_in in H.
  assert (Hall : Forall (fun kv => PyStr.is_empty (snd kv) = false)
                   WINDOWS_TZ_MAP)
    by (repeat constructor).
  rewrite Forall_forall in Hall. exact (Hall _ H).
Qed.

(** X7: [resolve_timezone] returns the fallback for an absent or empty
    label; for a label that is text it never fails, and returns the zone
    [pytz] has under the label when the label has a slash, else the zone
    [pytz] has under the name the table gives for the label, else the
    fallback; a label that is neither empty nor text raises [TypeError]. *)
Theorem resolve_timezone_cases :
  forall (pytz_timezone : string -> option tzinfo) (default_tz : tzinfo),
    (forall label,
        truthy label = false ->
        resolve_timezone pytz_timezone label default_tz = Ret default_tz)
    /\ (forall label zone,
           PyStr.is_empty label = false ->
           PyStr.mem "/" label = true ->
           pytz_timezone label = Some zone ->
           resolve_timezone pytz_timezone (JStr label) default_tz = Ret zone)
    /\ (forall label name zone,
           PyStr.is_empty label = false ->
           (PyStr.mem "/" label = false \/ pytz_timezone label = None) ->
           assoc label WINDOWS_TZ_MAP = Some name ->
           pytz_timezone name = Some zone ->
           resolve_timezone pytz_timezone (JStr label) default_tz = Ret zone)
    /\ (forall label,
           (PyStr.mem "/" label = false \/ pytz_timezone label = None) ->
           (assoc label WINDOWS_TZ_MAP = None
            \/ exists name, assoc label WINDOWS_TZ_MAP = Some name
                            /\ pytz_timezone name = None) ->
           resolve_timezone pytz_timezone (JStr label) default_tz
           = Ret default_tz)
    /\ (forall label,
           truthy label = true -> (forall text, label <> JStr text) ->
           resolve_timezone pytz_timezone label default_tz = Raise TypeError).
Proof.
  intros pytz_timezone default_tz.
  pose proof windows_names_not_empty as Hnames.
  split; [|split; [|split; [|split]]].
  - intros label H. unfold resolve_timezone. now rewrite H.
  - intros label zone Hne Hslash Hknown.
    unfold resolve_timezone, resolve_label. cbn [truthy]. rewrite Hne.
    cbn [negb]. now rewrite Hslash, Hknown.
  - intros label name zone Hne Hdirect Hmap Hknown.
    unfold resolve_timezone, resolve_label. cbn [truthy]. rewrite Hne.
    cbn [negb]. rewrite Hmap, (Hnames _ _ Hmap), Hknown.
    destruct Hdirect as [-> | Hnone]; [reflexivity|].
    rewrite Hnone. now destruct (PyStr.mem "/" label).
  - intros label Hdirect Hmap.
    unfold resolve_timezone, resolve_label. cbn [truthy].
    destruct (PyStr.is_empty label); [reflexivity|]. cbn [negb].
    assert (Hd : (if PyStr.mem "/" label then pytz_timezone label else None)
                 = None).
    { destruct Hdirect as [-> | ->]; [reflexivity|].
      now destruct (PyStr.mem "/" label). }
    rewrite Hd.
    destruct Hmap as [-> | (name & Hmapped & Hnone)]; [reflexivity|].
    rewrite Hmapped.
    rewrite (Hnames label name Hmapped), Hnone. reflexivity.
  - intros label Htruthy Hnot. unfold resolve_timezone. rewrite Htruthy.
    destruct label; try reflexivity. now contradiction (Hnot s).
Qed.

Module ZoneExamples.

(** A zone two hours east of UTC, all year. *)
Definition two_east : tzinfo := {|
  tz_key := "Asia/Jerusalem";
  tz_localize := fun naive =>
    Ret {| year := year naive; month := month naive; day := day naive;
           hour := hour naive; minute := minute naive;
           second := second naive; microsecond := microsecond naive;
           utcoffset := Some (2 * 3600 * US_PER_SECOND) |};
  tz_convert := fun aware =>
    of_wall_micros (instant aware + 2 * 3600 * US_PER_SECOND)
      (Some (2 * 3600 * US_PER_SECOND))
|}.

(** A database with that zone and UTC. *)
Definition database (name : string) : option tzinfo :=
  if String.eqb name "Asia/Jerusalem" then Some two_east
  else if String.eqb name "UTC" then Some utc_zone
  else None.

End ZoneExamples.

Lemma resolve_timezone_cases_witness :
  resolve_timezone ZoneExamples.database (JStr "Israel Standard Time") utc_zone
  = Ret ZoneExamples.two_east.
Proof.
  apply (proj1 (proj2 (proj2 (resolve_timezone_cases
                                 ZoneExamples.database utc_zone)))
           "Israel Standard Time" "Asia/Jerusalem").
  - reflexivity.
  - left. reflexivity.
  - reflexivity.
  - reflexivity.
Defined.

(** X8: [parse_event_time] returns absent, without raising, for an absent
    or empty time part, for a part whose [dateTime] is missing or empty, and
    for a [dateTime] text that the library does not read.  A part that is
    not an object, or a [dateTime] that is not text, raises
    [AttributeError]. *)
Theorem parse_event_time_absent_or_raises :
  forall pytz_timezone fromisoformat output_tz,
    (forall part,
        truthy part = false ->
        parse_event_time pytz_timezone fromisoformat part output_tz = Ret None)
    /\ (forall fields,
           truthy (dict_get fields "dateTime") = false ->
           parse_event_time pytz_timezone fromisoformat (JObj fields) output_tz
           = Ret None)
    /\ (forall fields wall,
           dict_get fields "dateTime" = JStr wall ->
           fromisoformat (normalize_iso_datetime wall) = None ->
           parse_event_time pytz_timezone fromisoformat (JObj fields) output_tz
           = Ret None)
    /\ (forall part,
           truthy part = true -> (forall fields, part <> JObj fields) ->
           parse_event_time pytz_timezone fromisoformat part output_tz
           = Raise AttributeError)
    /\ (forall fields,
           truthy (dict_get fields "dateTime") = true ->
           (forall wall, dict_get fields "dateTime" <> JStr wall) ->
           parse_event_time pytz_timezone fromisoformat (JObj fields) output_tz
           = Raise AttributeError).
Proof.
  intros pytz_timezone fromisoformat output_tz.
  split; [|split; [|split; [|split]]].
  - intros part H. unfold parse_event_time. now rewrite H.
  - intros fields H. unfold parse_event_time.
    destruct (negb (truthy (JObj fields))); [reflexivity|].
    cbn [obj_get bind]. now rewrite H.
  - intros fields wall Hwall Hlib. unfold parse_event_time.
    destruct (negb (truthy (JObj fields))); [reflexivity|].
    cbn [obj_get bind]. rewrite Hwall.
    destruct (negb (truthy (JStr wall))); [reflexivity|]. now rewrite Hlib.
  - intros part Htruthy Hnot. unfold parse_event_time. rewrite Htruthy.
    cbn [negb]. destruct part; try reflexivity. now contradiction (Hnot fields).
  - intros fields Htruthy Hnot. unfold parse_event_time.
    destruct fields as [|kv rest]; [discriminate Htruthy|].
    cbn [truthy negb obj_get bind]. rewrite Htruthy. cbn [negb].
    destruct (dict_get (kv :: rest) "dateTime") eqn:Hd; try reflexivity.
    now contradiction (Hnot s).
Qed.

Lemma parse_event_time_absent_or_raises_witness :
  parse_event_time ZoneExamples.database IsoText.fromisoformat_basic
    (JObj [("dateTime", JStr "tomorrow"); ("timeZone", JStr "UTC")]) utc_zone
  = Ret None.
Proof.
  apply (proj1 (proj2 (proj2 (parse_event_time_absent_or_raises
                                 ZoneExamples.database
                                 IsoText.fromisoformat_basic utc_zone)))
           _ "tomorrow"); reflexivity.
Defined.

(** X9: the [timeZone] label of a time part matters only for a wall-clock
    text without an offset: two parts with the same [dateTime] that the
    library reads with an offset give the same result whatever their
    labels.  With the output zone UTC, a text read at offset zero is
    returned as read, and a text without an offset whose label is absent
    or empty is read as UTC wall-clock time. *)
Theorem parse_event_time_label_only_for_naive :
  forall pytz_timezone fromisoformat fields wall parsed,
    PyStr.is_empty wall = false ->
    dict_get fields "dateTime" = JStr wall ->
    fromisoformat (normalize_iso_datetime wall) = Some parsed ->
    (forall output_tz fields' offset,
        dict_get fields' "dateTime" = JStr wall ->
        utcoffset parsed = Some offset ->
        parse_event_time pytz_timezone fromisoformat (JObj fields) output_tz
        = parse_event_time pytz_timezone fromisoformat (JObj fields')
            output_tz)
    /\ (valid_wall parsed -> utcoffset parsed = Some 0 ->
        parse_event_time pytz_timezone fromisoformat (JObj fields) utc_zone
        = Ret (Some parsed))
    /\ (valid_wall parsed -> utcoffset parsed = None ->
        truthy (dict_get fields "timeZone") = false ->
        parse_event_time pytz_timezone fromisoformat (JObj fields) utc_zone
        = Ret (Some (at_offset parsed 0))).
Proof.
  intros pytz_timezone fromisoformat fields wall parsed Hne Hwall Hlib.
  assert (Hshape : forall f output_tz,
             dict_get f "dateTime" = JStr wall ->
             parse_event_time pytz_timezone fromisoformat (JObj f) output_tz
             = (aware <-
                  match utcoffset parsed with
                  | None =>
                      label <- obj_get (JObj f) "timeZone" ;;
                      source_tz <- resolve_timezone pytz_timezone label
                                     output_tz ;;
                      tz_localize source_tz parsed
                  | Some _ => Ret parsed
                  end ;;
                local <- tz_convert output_tz aware ;;
                Ret (Some local))%py).
  { intros f output_tz Hf.
    assert (Hfields : truthy (JObj f) = true).
    { destruct f; [discriminate Hf | reflexivity]. }
    unfold parse_event_time. rewrite Hfields. cbn [negb obj_get bind].
    rewrite Hf. cbn [truthy]. rewrite Hne. cbn [negb]. now rewrite Hlib. }
  split; [|split].
  - intros output_tz fields' offset Hwall' Hoff.
    rewrite (Hshape fields output_tz Hwall), (Hshape fields' output_tz Hwall').
    now rewrite Hoff.
  - intros Hvalid Hoff. rewrite (Hshape fields utc_zone Hwall), Hoff.
    cbn [bind utc_zone tz_convert]. unfold instant. rewrite Hoff, Z.sub_0_r.
    rewrite (of_wall_micros_wall parsed 0 Hvalid). cbn [bind].
    destruct parsed. cbn in Hoff. subst. reflexivity.
  - intros Hvalid Hnaive Hlabel. rewrite (Hshape fields utc_zone Hwall), Hnaive.
    cbn [obj_get bind]. unfold resolve_timezone. rewrite Hlabel.
    cbn [negb bind utc_zone tz_localize tz_convert].
    fold (at_offset parsed 0).
    replace (instant (at_offset parsed 0)) with (wall_micros parsed)
      by (unfold instant, wall_micros; simpl; lia).
    now rewrite (of_wall_micros_wall parsed 0 Hvalid).
Qed.

Lemma parse_event_time_label_only_for_naive_witness :
  parse_event_time ZoneExamples.database IsoText.fromisoformat_basic
    (JObj [ ("dateTime", JStr "2024-03-04T09:00:00.0000000") ]) utc_zone
  = Ret (Some {| year := 2024; month := 3; day := 4;
                 hour := 9; minute := 0; second := 0; microsecond := 0;
                 utcoffset := Some 0 |}).
Proof.
  apply (proj2 (proj2 (parse_event_time_label_only_for_naive
                         ZoneExamples.database IsoText.fromisoformat_basic
                         [ ("dateTime", JStr "2024-03-04T09:00:00.0000000") ]
                         "2024-03-04T09:00:00.0000000"
                         {| year := 2024; month := 3; day := 4;
                            hour := 9; minute := 0; second := 0;
                            microsecond := 0; utcoffset := None |}
                         eq_refl eq_refl eq_refl))).
  - unfold valid_wall. vm_compute. repeat split; discriminate.
  - reflexivity.
  - reflexivity.
Defined.

(** ** Chains of pages *)

Section Pages.

Variable json_loads : string -> option json.
Variable http_get : request -> result response.
Variable headers : list (string * string).

(** What one request for a page gives: its items and the next link, the
    end of the chain for a status other than 200, or an exception. *)
Inductive page_outcome : Type :=
| PageItems (items : list json) (next : json)
| PageFailed
| PageRaised (e : exn).

Definition read_page (url : json) : page_outcome :=
  match get_url http_get headers url with
  | Raise e => PageRaised e
  | Ret resp =>
      if status_code resp =? 200 then
        match response_json json_loads resp with
        | Raise e => PageRaised e
        | Ret body =>
            match obj_get_default body "value" (JArr []) with
            | Raise e => PageRaised e
            | Ret value =>
                match py_iter value with
                | Raise e => PageRaised e
                | Ret items =>
                    match obj_get body "@odata.nextLink" with
                    | Raise e => PageRaised e
                    | Ret next => PageItems items next
                    end
                end
            end
        end
      else PageFailed
  end.

(** [crawl n url outcome]: following the links from [url] takes [n]
    requests and ends with [outcome]. *)
Inductive crawl : nat -> json -> result (list json) -> Prop :=
| crawl_end url :
    truthy url = false -> crawl 0 url (Ret [])
| crawl_failed url :
    truthy url = true -> read_page url = PageFailed ->
    crawl 1 url (Ret [])
| crawl_raised url e :
    truthy url = true -> read_page url = PageRaised e ->
    crawl 1 url (Raise e)
| crawl_next n url items next outcome :
    truthy url = true -> read_page url = PageItems items next ->
    crawl n next outcome ->
    crawl (S n) url
      (match outcome with
       | Ret later => Ret (items ++ later)
       | Raise e => Raise e
       end).

Lemma fetch_events_loop_step fuel url events :
  truthy url = true ->
  fetch_events_loop json_loads http_get headers (S fuel) url events =
  match read_page url with
  | PageItems items next =>
      fetch_events_loop json_loads http_get headers fuel next (events ++ items)
  | PageFailed => Some (Ret events)
  | PageRaised e => Some (Raise e)
  end.
Proof.
  intros Hurl. cbn [fetch_events_loop]. rewrite Hurl. cbn [negb].
  unfold read_page.
  destruct (get_url http_get headers url) as [resp|e]; [|reflexivity].
  destruct (status_code resp =? 200); [|reflexivity].
  destruct (response_json json_loads resp) as [body|e]; [|reflexivity].
  destruct (obj_get_default body "value" (JArr [])) as [value|e];
    [|reflexivity].
  destruct (py_iter value) as [items|e]; [|reflexivity].
  destruct (obj_get body "@odata.nextLink") as [next|e]; reflexivity.
Qed.

Lemma fetch_events_loop_crawl n url outcome :
  crawl n url outcome ->
  forall fuel events,
    (n <= fuel)%nat ->
    fetch_events_loop json_loads http_get headers fuel url events
    = Some (match outcome with
            | Ret later => Ret (events ++ later)
            | Raise e => Raise e
            end).
Proof.
  induction 1 as [url Hurl|url Hurl Hpage|url e Hurl Hpage
                  |n url items next outcome Hurl Hpage Hrest IH];
    intros fuel events Hfuel.
  - destruct fuel; cbn [fetch_events_loop]; rewrite Hurl, app_nil_r;
      reflexivity.
  - destruct fuel as [|fuel]; [lia|].
    rewrite (fetch_events_loop_step _ _ _ Hurl), Hpage, app_nil_r.
    reflexivity.
  - destruct fuel as [|fuel]; [lia|].
    now rewrite (fetch_events_loop_step _ _ _ Hurl), Hpage.
  - destruct fuel as [|fuel]; [lia|].
    rewrite (fetch_events_loop_step _ _ _ Hurl), Hpage.
    rewrite (IH fuel (events ++ items)) by lia.
    destruct outcome; [now rewrite app_assoc | reflexivity].
Qed.

Lemma fetch_events_loop_inv fuel :
  forall url events r,
    fetch_events_loop json_loads http_get headers fuel url events = Some r ->
    exists n outcome,
      (n <= fuel)%nat /\ crawl n url outcome
      /\ r = match outcome with
             | Ret later => Ret (events ++ later)
             | Raise e => Raise e
             end.
Proof.
  induction fuel as [|fuel IH]; intros url events r Hrun.
  - cbn [fetch_events_loop] in Hrun.
    destruct (truthy url) eqn:Hurl; [discriminate|].
    injection Hrun as <-. exists 0%nat, (Ret []).
    split; [lia|]. split; [now apply crawl_end | now rewrite app_nil_r].
  - destruct (truthy url) eqn:Hurl.
    + rewrite (fetch_events_loop_step _ _ _ Hurl) in Hrun.
      destruct (read_page url) as [items next| |e] eqn:Hpage.
      * destruct (IH _ _ _ Hrun) as (n & outcome & Hn & Hcrawl & ->).
        exists (S n), (match outcome with
                       | Ret later => Ret (items ++ later)
                       | Raise e => Raise e
                       end).
        split; [lia|].
        split; [exact (crawl_next n url items next outcome Hurl Hpage Hcrawl)|].
        destruct outcome; [now rewrite app_assoc | reflexivity].
      * injection Hrun as <-. exists 1%nat, (Ret []).
        split; [lia|].
        split; [now apply crawl_failed | now rewrite app_nil_r].
      * injection Hrun as <-. exists 1%nat, (Raise e).
        split; [lia|]. split; [now apply crawl_raised | reflexivity].
    + cbn [fetch_events_loop] in Hrun. rewrite Hurl in Hrun.
      injection Hrun as <-. exists 0%nat, (Ret []).
      split; [lia|]. split; [now apply crawl_end | now rewrite app_nil_r].
Qed.

End Pages.

Arguments PageItems items next : assert.
Arguments crawl json_loads http_get headers _ _ _ : assert.
Arguments read_page json_loads http_get headers url : assert.

(** X10: [fetch_events] returns the items of all pages, in page order, up
    to the end of the chain of links or the first page answered with a
    status other than 200; an exception at any page (a transport failure,
    a body that is not a JSON object, a value that cannot be iterated, a
    link that is not text) is raised to the caller and the items of the
    earlier pages are lost.  A chain of n requests needs n iterations. *)
Theorem fetch_events_follows_chain :
  forall json_loads http_get headers url outcome fuel,
    (forall n,
        crawl json_loads http_get headers n (JStr url) outcome ->
        (n <= fuel)%nat ->
        fetch_events json_loads http_get headers fuel url = Some outcome)
    /\ (fetch_events json_loads http_get headers fuel url = Some outcome ->
        exists n,
          (n <= fuel)%nat
          /\ crawl json_loads http_get headers n (JStr url) outcome).
Proof.
  intros json_loads http_get headers url outcome fuel. split.
  - intros n Hcrawl Hfuel. unfold fetch_events.
    rewrite (fetch_events_loop_crawl _ _ _ _ _ _ Hcrawl fuel [] Hfuel).
    now destruct outcome.
  - intros Hrun.
    destruct (fetch_events_loop_inv _ _ _ _ _ _ _ Hrun)
      as (n & out & Hn & Hcrawl & ->).
    exists n. split; [exact Hn|]. now destruct out.
Qed.

Module ChainExamples.

Definition page (items : list json) (next : option string) : response :=
  {| status_code := 200;
     text := JsonText.json_dumps
               (JObj (("value", JArr items)
                      :: match next with
                         | Some link => [("@odata.nextLink", JStr link)]
                         | None => []
                         end)) |}.

(** Three pages; the third answers 200 with a body that is not JSON. *)
Definition broken_third (req : request) : result response :=
  if String.eqb (req_url req) "https://api/events"
  then Ret (page [JStr "e1"; JStr "e2"] (Some "https://api/events?p=2"))
  else if String.eqb (req_url req) "https://api/events?p=2"
  then Ret (page [JStr "e3"] (Some "https://api/events?p=3"))
  else Ret {| status_code := 200; text := "<html>gateway</html>" |}.

(** Two pages, the second without a link. *)
Definition two_pages (req : request) : result response :=
  if String.eqb (req_url req) "https://api/events"
  then Ret (page [JStr "e1"; JStr "e2"] (Some "https://api/events?p=2"))
  else Ret (page [JStr "e3"] None).

End ChainExamples.

Lemma fetch_events_follows_chain_witness :
  fetch_events JsonText.json_loads_lite ChainExamples.two_pages [] 5
    "https://api/events"
  = Some (Ret [JStr "e1"; JStr "e2"; JStr "e3"])
  /\ fetch_events JsonText.json_loads_lite ChainExamples.broken_third [] 5
       "https://api/events"
     = Some (Raise JSONDecodeError).
Proof.
  split.
  - apply (proj1 (fetch_events_follows_chain _ _ _ _ _ _) 2%nat); [|lia].
    apply (crawl_next _ _ _ 1 (JStr "https://api/events")
             [JStr "e1"; JStr "e2"] (JStr "https://api/events?p=2")
             (Ret [JStr "e3"])); try reflexivity.
    apply (crawl_next _ _ _ 0 (JStr "https://api/events?p=2")
             [JStr "e3"] JNull (Ret [])); try reflexivity.
    now apply crawl_end.
  - apply (proj1 (fetch_events_follows_chain _ _ _ _ _ _) 3%nat); [|lia].
    apply (crawl_next _ _ _ 2 (JStr "https://api/events")
             [JStr "e1"; JStr "e2"] (JStr "https://api/events?p=2")
             (Raise JSONDecodeError)); try reflexivity.
    apply (crawl_next _ _ _ 1 (JStr "https://api/events?p=2")
             [JStr "e3"] (JStr "https://api/events?p=3")
             (Raise JSONDecodeError)); try reflexivity.
    now apply crawl_raised.
Defined.

(** ** The latest report *)

(** The creation time of a report when it is text; a report without one
    sorts as the empty text. *)
Definition created_text (report : dict) : option string :=
  match dict_get_default report "createdDateTime" (JStr EmptyString) with
  | JStr s => Some s
  | _ => None
  end.

Definition keyed_report (report : dict) : string * json :=
  (match created_text report with Some s => s | None => EmptyString end,
   JObj report).

Lemma created_keys_text reports :
  (forall r, In r reports -> exists s, created_text r = Some s) ->
  created_keys (map JObj reports)
  = Ret (map text_key (map keyed_report reports)).
Proof.
  induction reports as [|r rest IH]; intros Hall; [reflexivity|].
  cbn [map created_keys obj_get_default bind].
  rewrite IH by (intros x Hx; apply Hall; now right). cbn [bind].
  destruct (Hall r (or_introl eq_refl)) as [s Hs].
  unfold keyed_report, text_key. rewrite Hs. cbn [fst snd].
  unfold created_text in Hs.
  destruct (dict_get_default r "createdDateTime" (JStr EmptyString));
    try discriminate.
  now injection Hs as ->.
Qed.

Lemma ascending_last {A : Type} (l : list (string * A)) x :
  ascending (l ++ [x]) ->
  forall y, In y (l ++ [x]) -> str_lt (fst x) (fst y) = false.
Proof.
  unfold ascending. induction l as [|a rest IH]; simpl; intros Hs y Hin.
  - destruct Hin as [<-|[]]. apply str_lt_irrefl.
  - inversion Hs as [|? ? Hrest Hall]; subst.
    destruct Hin as [<-|Hin]; [|exact (IH Hrest y Hin)].
    rewrite Forall_forall in Hall. apply Hall.
    apply in_or_app. right. now left.
Qed.

(** X11: when the creation times of the reports are texts, the sort
    succeeds and the report whose records are fetched, the last after the
    sort, is one of the reports and none has a greater creation time. *)
Theorem sort_reports_latest :
  forall reports,
    reports <> [] ->
    (forall r, In r reports -> exists s, created_text r = Some s) ->
    exists earlier latest key,
      sort_reports (JArr (map JObj reports))
      = Ret (map JObj (earlier ++ [latest]))
      /\ Permutation reports (earlier ++ [latest])
      /\ created_text latest = Some key
      /\ forall r k, In r reports -> created_text r = Some k ->
                     str_lt key k = false.
Proof.
  intros reports Hne Htext.
  pose proof (sort_text_perm (map keyed_report reports)) as Hperm.
  pose proof (sort_text_ascending (map keyed_report reports)) as Hasc.
  assert (Hshape : forall l,
             Permutation (map keyed_report reports) l ->
             exists rs, l = map keyed_report rs /\ Permutation reports rs).
  { intros l Hp. apply Permutation_sym in Hp.
    apply Permutation_map_inv in Hp.
    destruct Hp as (rs & -> & Hp). now exists rs. }
  destruct (Hshape _ Hperm) as (sorted & Hsorted & Hp).
  assert (Hlast : exists earlier latest, sorted = earlier ++ [latest]).
  { destruct (exists_last (l := sorted)) as (earlier & latest & ->).
    - intros ->. apply Permutation_sym, Permutation_nil in Hp. contradiction.
    - now exists earlier, latest. }
  destruct Hlast as (earlier & latest & ->).
  assert (Hin : In latest reports).
  { apply (Permutation_in _ (Permutation_sym Hp)).
    apply in_or_app. right. now left. }
  destruct (Htext latest Hin) as [key Hkey].
  exists earlier, latest, key.
  split; [|split; [exact Hp|split; [exact Hkey|]]].
  - unfold sort_reports. rewrite (created_keys_text _ Htext). cbn [bind].
    rewrite sort_keyed_text. cbn [bind]. rewrite Hsorted.
    rewrite !map_map. reflexivity.
  - intros r k Hr Hk.
    rewrite Hsorted, map_app in Hasc. cbn [map] in Hasc.
    assert (Hmem : In (keyed_report r)
                      (map keyed_report earlier ++ [keyed_report latest])).
    { rewrite <- map_app with (l' := [latest]).
      apply in_map. exact (Permutation_in _ Hp Hr). }
    pose proof (ascending_last _ _ Hasc (keyed_report r) Hmem) as Hmax.
    unfold keyed_report in Hmax. cbn [fst] in Hmax.
    now rewrite Hkey, Hk in Hmax.
Qed.

Lemma sort_reports_latest_witness :
  exists earlier latest key,
    sort_reports
      (JArr (map JObj [AttendanceExamples.late_report;
                       AttendanceExamples.early_report]))
    = Ret (map JObj (earlier ++ [latest]))
    /\ Permutation [AttendanceExamples.late_report;
                    AttendanceExamples.early_report] (earlier ++ [latest])
    /\ created_text latest = Some key
    /\ forall r k,
         In r [AttendanceExamples.late_report;
               AttendanceExamples.early_report] ->
         created_text r = Some k -> str_lt key k = false.
Proof.
  apply sort_reports_latest; [discriminate|].
  intros r [<-|[<-|[]]]; eexists; reflexivity.
Defined.

(** ** The attendees in the report *)

(** X12: an event that is kept lists, in [participants], the names of its
    attendees that are not empty, in the order of the invitation and
    separated by a comma and a space, and in [attendeeEmails] the addresses
    that are not empty, in the same order. *)
Theorem process_event_attendees :
  forall json_loads http_get py_str pytz_timezone fromisoformat headers
         attendance tz fields attendees people m,
    dict_get_default fields "attendees" (JArr []) = JArr attendees ->
    Forall2 invited attendees people ->
    process_event json_loads http_get py_str pytz_timezone fromisoformat
      headers attendance tz (JObj fields) = Ret (Some m) ->
    participants m = PyStr.join ", " (present (map fst people))
    /\ attendeeEmails m = map JStr (present (map snd people)).
Proof.
  intros json_loads http_get py_str pytz_timezone fromisoformat headers
         attendance tz fields attendees people m Hatt Hinv.
  unfold process_event. rewrite Hatt. cbn [py_iter bind].
  rewrite (collect_attendees_invited _ _ Hinv). cbn [bind app].
  unfold join_names. rewrite as_strings_texts. cbn [bind].
  destruct (event_join_url fields) as [join_url|]; [|discriminate].
  cbn [bind].
  destruct (parse_event_time _ _ _ _) as [[start_dt|]|];
    try discriminate; cbn [bind];
    destruct (parse_event_time _ _ _ _) as [[end_dt|]|];
    try discriminate; cbn [bind].
  destruct (if attendance then _ else _) as [info|]; [|discriminate].
  cbn [bind]. intros [= <-]. split; reflexivity.
Qed.

Lemma process_event_attendees_witness :
  participants ReportExamples.planning_meeting
  = PyStr.join ", " (present (map fst [("A", "a@x.com"); ("B", "b@x.com")]))
  /\ attendeeEmails ReportExamples.planning_meeting
     = map JStr (present (map snd [("A", "a@x.com"); ("B", "b@x.com")])).
Proof.
  apply (process_event_attendees
           JsonText.json_loads_lite ReportExamples.offline
           AttendanceExamples.text_only ReportExamples.utc_only
           IsoText.fromisoformat_basic [] false utc_zone
           [ ("subject", JStr "Planning");
             ("start", ReportExamples.time_part "2024-03-04T09:00:00.0000000");
             ("end", ReportExamples.time_part "2024-03-04T09:30:00.0000000");
             ("attendees", JArr [ ReportExamples.attendee "A" "a@x.com";
                                  ReportExamples.attendee "B" "b@x.com" ]) ]
           [ ReportExamples.attendee "A" "a@x.com";
             ReportExamples.attendee "B" "b@x.com" ]).
  - reflexivity.
  - repeat constructor;
      (eexists; eexists; split; [reflexivity|];
       split; [reflexivity|]; split; reflexivity).
  - vm_compute. reflexivity.
Defined.

(** ** Attendance and the shape of the report *)

(** What a meeting says apart from its attendance. *)
Definition invitation (m : meeting)
  : json * string * string * string * list json :=
  (subject m, startTime m, endTime m, participants m, attendeeEmails m).

Definition no_attendance (m : meeting) : Prop :=
  attendanceCount m = None /\ attendanceEmails m = [].

Section AttendanceFlag.

Variable json_loads : string -> option json.
Variable http_get : request -> result response.
Variable py_str : json -> string.
Variable pytz_timezone : string -> option tzinfo.
Variable fromisoformat : string -> option datetime.
Variable headers : list (string * string).
Variable tz : tzinfo.

Let process :=
  process_event json_loads http_get py_str pytz_timezone fromisoformat
    headers.
Let collect :=
  collect_meetings json_loads http_get py_str pytz_timezone fromisoformat
    headers.

Lemma process_event_flag event :
  match process false tz event, process true tz event with
  | Ret None, Ret None => True
  | Ret (Some plain), Ret (Some full) =>
      invitation plain = invitation full /\ no_attendance plain
  | Raise e, Raise e' => e = e'
  | _, _ => False
  end.
Proof.
  unfold process, process_event. destruct event; try reflexivity.
  destruct (py_iter _) as [attendee_list|]; [|reflexivity]. cbn [bind].
  destruct (collect_attendees _ _ _) as [[names emails]|]; [|reflexivity].
  cbn [bind].
  destruct (join_names names) as [attendees|]; [|reflexivity]. cbn [bind].
  destruct (event_join_url _) as [join_url|]; [|reflexivity]. cbn [bind].
  destruct (parse_event_time _ _ _ _) as [[start_dt|]|];
    cbn [bind]; try reflexivity;
    destruct (parse_event_time _ _ _ _) as [[end_dt|]|];
    cbn [bind]; try reflexivity; try exact I.
  destruct (fetch_never_raises json_loads http_get py_str headers join_url)
    as [info ->].
  cbn [bind]. split; [reflexivity|split; reflexivity].
Qed.

Lemma collect_meetings_flag events :
  forall plain full,
    map invitation plain = map invitation full ->
    Forall no_attendance plain ->
    match collect false tz events plain, collect true tz events full with
    | Ret plain', Ret full' =>
        map invitation plain' = map invitation full'
        /\ Forall no_attendance plain'
    | Raise e, Raise e' => e = e'
    | _, _ => False
    end.
Proof.
  unfold collect.
  induction events as [|event rest IH]; intros plain full Hsame Hnone.
  - cbn [collect_meetings]. now split.
  - cbn [collect_meetings]. pose proof (process_event_flag event) as Hev.
    unfold process in Hev.
    destruct (process_event _ _ _ _ _ _ false tz event) as [[m0|]|e0];
      destruct (process_event _ _ _ _ _ _ true tz event) as [[m1|]|e1];
      try contradiction; cbn [bind].
    + destruct Hev as [Hinv Hno]. apply IH.
      * rewrite !map_app. cbn [map]. now rewrite Hsame, Hinv.
      * apply Forall_app. split; [exact Hnone|now constructor].
    + now apply IH.
    + exact Hev.
Qed.

End AttendanceFlag.

(** X13: asking for attendance changes neither whether the report is
    produced nor which meetings it holds: with and without the option the
    run ends with the same error, or both reports have the same count and
    the same meetings apart from the attendance, and no meeting of the
    report without attendance has a count or an attendance address. *)
Theorem attendance_keeps_report_shape :
  forall json_loads http_get py_str pytz_timezone fromisoformat headers
         tz month_key all_events,
    match assemble_report json_loads http_get py_str pytz_timezone
            fromisoformat headers false tz month_key all_events,
          assemble_report json_loads http_get py_str pytz_timezone
            fromisoformat headers true tz month_key all_events
    with
    | Ret plain, Ret full =>
        report_month plain = report_month full
        /\ report_count plain = report_count full
        /\ map invitation (report_meetings plain)
           = map invitation (report_meetings full)
        /\ Forall no_attendance (report_meetings plain)
    | Raise e, Raise e' => e = e'
    | _, _ => False
    end.
Proof.
  intros json_loads http_get py_str pytz_timezone fromisoformat headers
         tz month_key all_events.
  unfold assemble_report.
  pose proof (collect_meetings_flag json_loads http_get py_str pytz_timezone
                fromisoformat headers tz all_events [] [] eq_refl
                (Forall_nil _)) as H.
  destruct (collect_meetings _ _ _ _ _ _ false tz all_events [])
    as [plain|e0];
    destruct (collect_meetings _ _ _ _ _ _ true tz all_events [])
      as [full|e1]; try contradiction; cbn [bind]; [|exact H].
  destruct H as [Hsame Hnone]. cbn.
  split; [reflexivity|]. split; [|split; assumption].
  apply (f_equal (@List.length _)) in Hsame.
  rewrite !length_map in Hsame. now rewrite Hsame.
Qed.

(** ** The month that is asked for, and the month by default *)

(** X14: without a month, and with an empty one, the window is the one of
    the current month: from its first instant to now.  The month is
    printed with the year as [strftime] writes it, which from the year 1000
    on is the way a specifier is written. *)
Theorem month_range_default :
  forall now,
    valid_utc now -> year now < 9999 \/ month now < 12 ->
    month_range now None
    = Ret (first_instant_text (year now) (month now),
           strftime_iso_z now,
           printed_month (year now) (month now))
    /\ month_range now (Some EmptyString) = month_range now None
    /\ month_range now (Some (month_text (year now) (month now)))
       = month_range now None
    /\ (1000 <= year now ->
        printed_month (year now) (month now)
        = month_text (year now) (month now)).
Proof.
  intros now Hnow Hlast.
  pose proof Hnow as (Hny & Hnm & Hnd & _).
  unfold MINYEAR, MAXYEAR in Hny.
  assert (Hend : strftime_iso_z
                   (dt_min now (last_second (year now) (month now)))
                 = strftime_iso_z now).
  { apply clamped_end_text; try assumption.
    exact (current_month_running now Hnow). }
  assert (Hdefault :
            month_range now None
            = Ret (first_instant_text (year now) (month now),
                   strftime_iso_z now,
                   printed_month (year now) (month now))).
  { unfold month_range.
    rewrite (month_window_of_start now None (year now) (month now)
               Hny Hnm Hlast (utc_date_first _ _ Hny Hnm)).
    cbn [bind]. now rewrite Hend. }
  split; [exact Hdefault|]. split; [reflexivity|].
  split; [|intros Hy; exact (proj1 (printed_month_text _ _ Hy))].
  rewrite Hdefault, (month_range_of_text now _ _ Hny Hnm Hlast).
  now rewrite Hend.
Qed.

Lemma month_range_default_witness :
  month_range WindowExamples.mid_march None
  = Ret ("2024-03-01T00:00:00Z", "2024-03-15T12:30:45Z", "2024-03")
  /\ month_range WindowExamples.mid_march (Some EmptyString)
     = month_range WindowExamples.mid_march None
  /\ month_range WindowExamples.mid_march (Some "2024-03")
     = month_range WindowExamples.mid_march None
  /\ (1000 <= year WindowExamples.mid_march ->
      printed_month (year WindowExamples.mid_march)
        (month WindowExamples.mid_march)
      = month_text (year WindowExamples.mid_march)
          (month WindowExamples.mid_march)).
Proof.
  apply (month_range_default WindowExamples.mid_march
           WindowExamples.mid_march_valid).
  left. vm_compute. reflexivity.
Defined.

(** X15: what becomes of a month that reads as two integers, however it is
    written.  Integers that do not fit a C int end the run with an overflow
    error, not with the message about the format; December 9999 ends it
    with the error of the year 10000; every other month of the calendar
    gives the window of that month, with the month printed as [strftime]
    writes it: the year in decimal, with four digits from the year 1000 on,
    and the month with two digits. *)
Theorem month_range_of_fields :
  forall now text y m,
    month_fields text = Some (y, m) ->
    (fits_c_int y && fits_c_int m = false ->
     month_range now (Some text) = Raise OverflowError)
    /\ (y = 9999 -> m = 12 ->
        month_range now (Some text)
        = Raise (ValueError "year 10000 is out of range"))
    /\ (1 <= y <= 9999 -> 1 <= m <= 12 -> y < 9999 \/ m < 12 ->
        month_range now (Some text)
        = Ret (first_instant_text y m,
               strftime_iso_z (dt_min now (last_second y m)),
               printed_month y m))
    /\ (1000 <= y -> printed_month y m = month_text y m).
Proof.
  intros now text y m Hf.
  pose proof (month_start_fields now text y m Hf) as Hstart.
  split; [|split; [|split]].
  - intros Hfit. unfold month_range, month_window. rewrite Hstart.
    unfold utc_date. rewrite Hfit. reflexivity.
  - intros -> ->. unfold month_range, month_window. rewrite Hstart.
    reflexivity.
  - intros Hy Hm Hlast.
    exact (month_range_of_month now text y m Hf Hy Hm Hlast).
  - intros Hy. exact (proj1 (printed_month_text y m Hy)).
Qed.

Lemma month_range_of_fields_witness :
  month_range WindowExamples.mid_march (Some " 2024-3")
  = Ret ("2024-03-01T00:00:00Z", "2024-03-15T12:30:45Z", "2024-03")
  /\ month_range WindowExamples.mid_march (Some "0999-05")
     = Ret ("999-05-01T00:00:00Z", "999-05-31T23:59:59Z", "999-05")
  /\ month_range WindowExamples.mid_march (Some "9999-12")
     = Raise (ValueError "year 10000 is out of range")
  /\ month_range WindowExamples.mid_march (Some "2024-4294967296")
     = Raise OverflowError.
Proof.
  split; [|split; [|split]].
  - refine (proj1 (proj2 (proj2 (month_range_of_fields
                                   WindowExamples.mid_march
                                   " 2024-3" 2024 3 _))) _ _ _).
    + vm_compute. reflexivity.
    + lia.
    + lia.
    + left. lia.
  - refine (proj1 (proj2 (proj2 (month_range_of_fields
                                   WindowExamples.mid_march
                                   "0999-05" 999 5 _))) _ _ _).
    + vm_compute. reflexivity.
    + lia.
    + lia.
    + left. lia.
  - refine (proj1 (proj2 (month_range_of_fields WindowExamples.mid_march
                            "9999-12" 9999 12 _)) _ _);
      vm_compute; reflexivity.
  - refine (proj1 (month_range_of_fields WindowExamples.mid_march
                     "2024-4294967296" 2024 4294967296 _) _);
      vm_compute; reflexivity.
Defined.

(** ** Account tiles of the sign-in page *)

(** A locator: [(By.XPATH, text)] or [(By.CSS_SELECTOR, text)]. *)
Inductive By : Type := XPATH | CSS_SELECTOR.

Definition selector : Type := (By * string)%type.

Section Browser.

(** The elements of the page, as the browser hands them out. *)
Variable element : Type.

(** Code that drives the browser: the calls it makes, each with what the
    code does with the answer.  An answer is a value or an exception. *)
Inductive browse (A : Type) : Type :=
| Done (a : A)
| FindElements (sel : selector) (k : result (list element) -> browse A)
| ElementText (e : element) (k : result (option string) -> browse A)
| ElementClick (e : element) (k : result unit -> browse A).

Arguments Done {A} a.
Arguments FindElements {A} sel k.
Arguments ElementText {A} e k.
Arguments ElementClick {A} e k.

Fixpoint and_then {A B : Type} (m : browse A) (f : A -> browse B)
  : browse B :=
  match m with
  | Done a => f a
  | FindElements sel k => FindElements sel (fun answer => and_then (k answer) f)
  | ElementText e k => ElementText e (fun answer => and_then (k answer) f)
  | ElementClick e k => ElementClick e (fun answer => and_then (k answer) f)
  end.

(** [click_first] of [try_select_account_tile]: an exception of [text] or
    of [click] moves on to the next element. *)
Fixpoint click_first (elements : list element) : browse bool :=
  match elements with
  | [] => Done false
  | element :: rest =>
      ElementText element (fun answer =>
        match answer with
        | Raise _ => click_first rest
        | Ret raw =>
            let text :=
              PyStr.lower
                (PyInt.strip
                   (match raw with Some s => s | None => EmptyString end)) in
            if PyStr.contains "use another account" text
            then click_first rest
            else ElementClick element (fun clicked =>
                   match clicked with
                   | Ret _ => Done true
                   | Raise _ => click_first rest
                   end)
        end)
  end.

(** The loop over [selectors]. *)
Fixpoint try_selectors (selectors : list selector) : browse bool :=
  match selectors with
  | [] => Done false
  | sel :: rest =>
      FindElements sel (fun answer =>
        let elements :=
          match answer with Ret found => found | Raise _ => [] end in
        match elements with
        | [] => try_selectors rest
        | _ :: _ =>
            and_then (click_first elements)
              (fun ok => if ok then Done true else try_selectors rest)
        end)
  end.

Definition username_selectors (username : string) : list selector :=
  let safe_username := PyStr.lower username in
  [ (XPATH,
     "//div[@role='button'][.//*[contains(translate(text(),"
     ++ " 'ABCDEFGHIJKLMNOPQRSTUVWXYZ','abcdefghijklmnopqrstuvwxyz'),"
     ++ " '" ++ safe_username ++ "')]]");
    (XPATH,
     "//*[contains(text(), '" ++ username
     ++ "')]/ancestor::div[@role='button'][1]") ]%string.

Definition tile_selectors : list selector :=
  [ (CSS_SELECTOR, "div[data-test-id='accountTile']");
    (CSS_SELECTOR, "div[data-test-id='tile']");
    (CSS_SELECTOR, "#tilesHolder div[role='button']");
    (CSS_SELECTOR, "#tilesHolder div[role='listitem']");
    (CSS_SELECTOR, "div[role='option']") ].

Definition account_selectors (username : option string) : list selector :=
  match username with
  | Some name =>
      if PyStr.is_empty name then tile_selectors
      else username_selectors name ++ tile_selectors
  | None => tile_selectors
  end.

Definition try_select_account_tile (username : option string)
  : browse bool :=
  try_selectors (account_selectors username).

(** A browser: what each call answers and how it changes the page. *)
Record browser (page : Type) : Type := {
  find_elements : selector -> page -> result (list element) * page;
  element_text : element -> page -> result (option string) * page;
  element_click : element -> page -> result unit * page
}.

Arguments find_elements {page} _ _ _.
Arguments element_text {page} _ _ _.
Arguments element_click {page} _ _ _.

(** The calls of a run, with their answers. *)
Inductive browser_call : Type :=
| Found (sel : selector) (answer : result (list element))
| Read (e : element) (answer : result (option string))
| Clicked (e : element) (answer : result unit).

(** The code run against a browser: the calls made, the result and the
    page that is left. *)
Fixpoint run {page A : Type} (drv : browser page) (m : browse A) (w : page)
  : list browser_call * A * page :=
  match m with
  | Done a => ([], a, w)
  | FindElements sel k =>
      let (answer, w1) := find_elements drv sel w in
      let '(log, a, w2) := run drv (k answer) w1 in
      (Found sel answer :: log, a, w2)
  | ElementText e k =>
      let (answer, w1) := element_text drv e w in
      let '(log, a, w2) := run drv (k answer) w1 in
      (Read e answer :: log, a, w2)
  | ElementClick e k =>
      let (answer, w1) := element_click drv e w in
      let '(log, a, w2) := run drv (k answer) w1 in
      (Clicked e answer :: log, a, w2)
  end.

End Browser.

Arguments Done {element A} a.
Arguments FindElements {element A} sel k.
Arguments ElementText {element A} e k.
Arguments ElementClick {element A} e k.
Arguments Found {element} sel answer.
Arguments Read {element} e answer.
Arguments Clicked {element} e answer.
Arguments find_elements {element page} _ _ _.
Arguments element_text {element page} _ _ _.
Arguments element_click {element page} _ _ _.
Arguments run {element page A} drv m w.
Arguments and_then {element A B} m f.
Arguments click_first {element} elements.
Arguments try_selectors {element} selectors.
Arguments try_select_account_tile {element} username.

(** ** The account tile that is clicked *)

(** The text of a tile names the tile for another account. *)
Definition names_other_account (raw : option string) : bool :=
  PyStr.contains "use another account"
    (PyStr.lower
       (PyInt.strip (match raw with Some s => s | None => EmptyString end))).

Section Tiles.

Variable element : Type.
Variable page : Type.
Variable drv : browser element page.

(** Every click follows the reading of the text of the same element, and
    the text does not name the tile for another account. *)
Inductive screened : list (browser_call element) -> Prop :=
| screened_end : screened []
| screened_found sel answer rest :
    screened rest -> screened (Found sel answer :: rest)
| screened_read e answer rest :
    screened rest -> screened (Read e answer :: rest)
| screened_click e raw answer rest :
    names_other_account raw = false ->
    screened rest ->
    screened (Read e (Ret raw) :: Clicked e answer :: rest).

(** No click of the log went through. *)
Definition quiet (log : list (browser_call element)) : Prop :=
  forall e, ~ In (Clicked e (Ret tt)) log.

(** The log ends with the one click that went through, or has none. *)
Definition settled (log : list (browser_call element)) (clicked : bool) : Prop :=
  if clicked
  then exists before e, log = before ++ [Clicked e (Ret tt)] /\ quiet before
  else quiet log.

(** The selectors that were looked up, in the order of the calls. *)
Fixpoint looked_up (log : list (browser_call element)) : list selector :=
  match log with
  | [] => []
  | Found sel _ :: rest => sel :: looked_up rest
  | _ :: rest => looked_up rest
  end.

Lemma screened_app l1 l2 :
  screened l1 -> screened l2 -> screened (l1 ++ l2).
Proof.
  induction 1; intros H2; simpl; try (constructor; auto); exact H2.
Qed.

Lemma quiet_nil : quiet [].
Proof. intros e []. Qed.

Lemma quiet_cons ev log :
  (forall e, ev <> Clicked e (Ret tt)) -> quiet log -> quiet (ev :: log).
Proof.
  intros Hev Hq e [H|H]; [exact (Hev e H)|exact (Hq e H)].
Qed.

Lemma quiet_app l1 l2 : quiet l1 -> quiet l2 -> quiet (l1 ++ l2).
Proof.
  intros H1 H2 e Hin. apply in_app_or in Hin.
  destruct Hin; [exact (H1 e H)|exact (H2 e H)].
Qed.

Lemma settled_cons ev log clicked :
  (forall e, ev <> Clicked e (Ret tt)) ->
  settled log clicked -> settled (ev :: log) clicked.
Proof.
  intros Hev. destruct clicked; simpl.
  - intros (before & e & -> & Hq).
    exists (ev :: before), e. split; [reflexivity|now apply quiet_cons].
  - now apply quiet_cons.
Qed.

Lemma settled_app l1 l2 clicked :
  quiet l1 -> settled l2 clicked -> settled (l1 ++ l2) clicked.
Proof.
  intros H1. destruct clicked; simpl.
  - intros (before & e & -> & Hq).
    exists (l1 ++ before), e.
    split; [now rewrite app_assoc|now apply quiet_app].
  - now apply quiet_app.
Qed.

Lemma looked_up_app l1 l2 :
  looked_up (l1 ++ l2) = looked_up l1 ++ looked_up l2.
Proof.
  induction l1 as [|[sel answer|e answer|e answer] rest IH]; simpl;
    now rewrite ?IH.
Qed.

Lemma run_and_then {A B : Type} (m : browse element A)
    (f : A -> browse element B) :
  forall w,
    run drv (and_then m f) w =
    let '(log1, a, w1) := run drv m w in
    let '(log2, b, w2) := run drv (f a) w1 in
    (log1 ++ log2, b, w2).
Proof.
  induction m as [a|sel k IH|e k IH|e k IH]; intros w; cbn [and_then run].
  - destruct (run drv (f a) w) as [[log2 b] w2]. reflexivity.
  - destruct (find_elements drv sel w) as [answer w1]. rewrite IH.
    destruct (run drv (k answer) w1) as [[log1 a] w2].
    destruct (run drv (f a) w2) as [[log2 b] w3]. reflexivity.
  - destruct (element_text drv e w) as [answer w1]. rewrite IH.
    destruct (run drv (k answer) w1) as [[log1 a] w2].
    destruct (run drv (f a) w2) as [[log2 b] w3]. reflexivity.
  - destruct (element_click drv e w) as [answer w1]. rewrite IH.
    destruct (run drv (k answer) w1) as [[log1 a] w2].
    destruct (run drv (f a) w2) as [[log2 b] w3]. reflexivity.
Qed.

Lemma click_first_run elements :
  forall w,
    let '(log, clicked, _) := run drv (click_first elements) w in
    screened log /\ settled log clicked /\ looked_up log = [].
Proof.
  induction elements as [|element0 rest IH]; intros w.
  - cbn. split; [constructor|]. split; [exact quiet_nil|reflexivity].
  - cbn [click_first run].
    destruct (element_text drv element0 w) as [[raw|err] w1].
    + fold (names_other_account raw).
      destruct (names_other_account raw) eqn:Hother.
      * specialize (IH w1).
        destruct (run drv (click_first rest) w1) as [[log clicked] w2].
        destruct IH as (Hs & Hq & Hl).
        split; [now constructor|].
        split; [apply settled_cons; [discriminate|exact Hq]|exact Hl].
      * cbn [run].
        destruct (element_click drv element0 w1) as [[[]|err] w2].
        -- cbn [run]. split; [constructor; [exact Hother|constructor]|].
           split; [|reflexivity].
           exists [Read element0 (Ret raw)], element0.
           split; [reflexivity|].
           apply quiet_cons; [discriminate|exact quiet_nil].
        -- specialize (IH w2).
           destruct (run drv (click_first rest) w2) as [[log clicked] w3].
           destruct IH as (Hs & Hq & Hl).
           split; [now constructor|].
           split; [|exact Hl].
           apply settled_cons; [discriminate|].
           apply settled_cons; [discriminate|exact Hq].
    + specialize (IH w1).
      destruct (run drv (click_first rest) w1) as [[log clicked] w2].
      destruct IH as (Hs & Hq & Hl).
      split; [now constructor|].
      split; [apply settled_cons; [discriminate|exact Hq]|exact Hl].
Qed.

Lemma try_selectors_run selectors :
  forall w,
    let '(log, clicked, _) := run drv (try_selectors selectors) w in
    screened log /\ settled log clicked
    /\ exists later,
         selectors = looked_up log ++ later
         /\ (clicked = false -> later = []).
Proof.
  induction selectors as [|sel rest IH]; intros w.
  - cbn. split; [constructor|]. split; [exact quiet_nil|].
    now exists [].
  - cbn [try_selectors run].
    destruct (find_elements drv sel w) as [answer w1].
    assert (Hrest :
              forall found,
                let '(log, clicked, _) :=
                  let '(log, a, w2) := run drv (try_selectors rest) w1 in
                  (Found sel found :: log, a, w2) in
                screened log /\ settled log clicked
                /\ exists later,
                     sel :: rest = looked_up log ++ later
                     /\ (clicked = false -> later = [])).
    { intros found. specialize (IH w1).
      destruct (run drv (try_selectors rest) w1) as [[log clicked] w2].
      destruct IH as (Hs & Hq & later & Hl & Hlast).
      split; [now constructor|].
      split; [apply settled_cons; [discriminate|exact Hq]|].
      exists later. cbn [looked_up]. split; [|exact Hlast].
      cbn [app]. now rewrite <- Hl. }
    destruct answer as [[|first others]|err]; try exact (Hrest _).
    clear Hrest. cbv beta iota zeta. rewrite run_and_then.
    pose proof (click_first_run (first :: others) w1) as Hclick.
    destruct (run drv (click_first (first :: others)) w1)
      as [[log1 ok] w2].
    destruct Hclick as (Hs1 & Hq1 & Hl1).
    destruct ok.
    + cbn [run]. rewrite app_nil_r.
      split; [now constructor|].
      split; [apply settled_cons; [discriminate|exact Hq1]|].
      exists rest. cbn [looked_up]. rewrite Hl1.
      split; [reflexivity|discriminate].
    + specialize (IH w2).
      destruct (run drv (try_selectors rest) w2) as [[log2 clicked] w3].
      destruct IH as (Hs & Hq & later & Hl & Hlast).
      split; [constructor; now apply screened_app|].
      split.
      * apply settled_cons; [discriminate|].
        apply settled_app; [exact Hq1|exact Hq].
      * exists later. cbn [looked_up]. rewrite looked_up_app, Hl1.
        cbn [app]. split; [now rewrite <- Hl|exact Hlast].
Qed.

Lemma screened_clicks log :
  screened log ->
  forall before e answer after,
    log = before ++ Clicked e answer :: after ->
    exists earlier raw,
      before = earlier ++ [Read e (Ret raw)]
      /\ names_other_account raw = false.
Proof.
  induction 1 as [|sel ans rest Hs IH|e0 ans rest Hs IH
                  |e0 raw ans rest Hraw Hs IH];
    intros before e answer after Heq.
  - destruct before; discriminate.
  - destruct before as [|ev before]; [discriminate|].
    injection Heq as Hev Heq. subst ev.
    destruct (IH _ _ _ _ Heq) as (earlier & raw & -> & Hraw).
    now exists (Found sel ans :: earlier), raw.
  - destruct before as [|ev before]; [discriminate|].
    injection Heq as Hev Heq. subst ev.
    destruct (IH _ _ _ _ Heq) as (earlier & raw & -> & Hraw).
    now exists (Read e0 ans :: earlier), raw.
  - destruct before as [|ev before]; [discriminate|].
    injection Heq as Hev Heq. subst ev.
    destruct before as [|ev before].
    + injection Heq as He Hans Hafter. subst e0.
      now exists [], raw.
    + injection Heq as Hev Heq. subst ev.
      destruct (IH _ _ _ _ Heq) as (earlier & raw' & -> & Hraw').
      now exists (Read e0 (Ret raw) :: Clicked e0 ans :: earlier), raw'.
Qed.

End Tiles.

Arguments quiet {element} log.
Arguments looked_up {element} log.

Module TileExamples.

(** A sign-in page with two account tiles; the first is the tile for
    another account.  Elements are numbered, and a click that goes through
    is counted. *)
Definition sign_in_page : browser nat nat :=
  {| find_elements := fun sel clicks =>
       (if String.eqb (snd sel) "div[data-test-id='accountTile']"
        then Ret [1%nat; 2%nat]
        else if String.eqb (snd sel) "div[role='option']"
        then Raise TransportError
        else Ret [],
        clicks);
     element_text := fun e clicks =>
       (match e with
        | 1%nat => Ret (Some "  Use another account ")
        | 2%nat => Ret (Some "dana@example.com")
        | _ => Raise TransportError
        end,
        clicks);
     element_click := fun e clicks => (Ret tt, S clicks) |}.

Lemma sign_in_page_run :
  run sign_in_page (try_select_account_tile None) 0%nat
  = ([ Found (CSS_SELECTOR, "div[data-test-id='accountTile']")
         (Ret [1%nat; 2%nat]);
       Read 1%nat (Ret (Some "  Use another account "));
       Read 2%nat (Ret (Some "dana@example.com"));
       Clicked 2%nat (Ret tt) ],
     true, 1%nat).
Proof. reflexivity. Qed.

End TileExamples.

(** X16: whatever the browser answers, [try_select_account_tile] clicks an
    element only right after it has read the text of that element, and
    only when the text, stripped and in lower case, does not contain
    [use another account].  It returns [True] exactly when a click went
    through, that click is the last call it makes, and no earlier click
    went through. *)
Theorem account_tile_clicks_screened :
  forall (element page : Type) (drv : browser element page)
         (username : option string) (w : page),
    let '(log, clicked, _) := run drv (try_select_account_tile username) w in
    (forall before e answer after,
        log = before ++ Clicked e answer :: after ->
        exists earlier raw,
          before = earlier ++ [Read e (Ret raw)]
          /\ names_other_account raw = false)
    /\ (if clicked
        then exists before e,
               log = before ++ [Clicked e (Ret tt)] /\ quiet before
        else quiet log).
Proof.
  intros element page drv username w.
  pose proof (try_selectors_run element page drv
                (account_selectors username) w) as H.
  unfold try_select_account_tile.
  destruct (run drv (try_selectors (account_selectors username)) w)
    as [[log clicked] w'].
  destruct H as (Hs & Hq & _).
  split; [exact (screened_clicks element log Hs)|exact Hq].
Qed.

Lemma account_tile_clicks_screened_witness :
  let '(log, clicked, _) :=
    run TileExamples.sign_in_page
      (try_select_account_tile (Some "dana@example.com")) 0%nat in
  (forall before e answer after,
      log = before ++ Clicked e answer :: after ->
      exists earlier raw,
        before = earlier ++ [Read e (Ret raw)]
        /\ names_other_account raw = false)
  /\ (if clicked
      then exists before e,
             log = before ++ [Clicked e (Ret tt)] /\ quiet before
      else quiet log).
Proof.
  exact (account_tile_clicks_screened nat nat TileExamples.sign_in_page
           (Some "dana@example.com") 0%nat).
Defined.


